(** * josephawallace.com: content resolver and listing presenter

    A shallow embedding of the content resolver ([lib/content.ts], with
    [formatSize] of [lib/shared.ts]) and of the listing presenter (the
    [sorted] list of [components/DirectoryListing.tsx]), and the properties
    of the specification, stated and proved over it.

    The file system is a tree of named nodes; [gray-matter], [Date.parse],
    [localeCompare] and the clock are parameters; Node's [path.extname],
    [Number.prototype.toFixed], [Date.prototype.toISOString] and
    [Array.prototype.sort] are modelled after their definitions. *)

From Stdlib Require Import ZArith List String Ascii Bool Lia Permutation Sorted.
From Stdlib Require Import OrderedTypeEx.
Import ListNotations.

(* ===================================================================== *)
(** * Part I.  Definitions *)
(* ===================================================================== *)

(** ** The data model of [lib/shared.ts] *)

(** [interface DirectoryEntry].  [size] is a [number] holding a byte count
    ([Buffer.byteLength], or the literal 0), hence an integer. *)
Module DirectoryEntry.
Record t : Type := mk {
  name : string;
  isDirectory : bool;
  extension : string;
  date : string;
  size : Z;
  description : string;
  href : string
}.
End DirectoryEntry.

(** [interface PostData]. *)
Module PostData.
Record t : Type := mk {
  title : string;
  description : string;
  date : string;
  content : string;
  slug : string
}.
End PostData.

(** ** The JavaScript runtime: exceptions, strings, numbers *)

Declare Scope js_scope.
Delimit Scope js_scope with js.
Local Open Scope string_scope.
Local Open Scope Z_scope.
Local Open Scope list_scope.

(** String concatenation ([+] on strings, template literals). *)
Notation "a +:+ b" := (String.append a b)
  (at level 60, right associativity) : js_scope.
Local Open Scope js_scope.

(** What a call can throw.  [OutOfFuel] is not a JavaScript exception: it is
    the answer of a recursive model function whose recursion budget is
    spent. *)
Inductive exn : Type :=
  | RangeError   (* [toISOString] of an invalid date *)
  | ENOENT       (* no such file or directory *)
  | ENOTDIR      (* [readdirSync] of a file *)
  | EISDIR       (* [readFileSync] of a directory *)
  | OutOfFuel.

Inductive result (A : Type) : Type :=
  | Ok (a : A)
  | Throw (e : exn).
Arguments Ok {A} a.
Arguments Throw {A} e.

Definition bind {A B : Type} (r : result A) (k : A -> result B) : result B :=
  match r with
  | Ok a => k a
  | Throw e => Throw e
  end.

Notation "x <- e ;; k" := (bind e (fun x => k))
  (at level 61, e at next level, right associativity) : js_scope.

(** [for (const x of xs) { acc = body(acc, x) }], stopping at the first
    exception. *)
Fixpoint for_of {A B : Type} (xs : list A) (acc : B)
         (body : B -> A -> result B) : result B :=
  match xs with
  | [] => Ok acc
  | x :: xs' => acc' <- body acc x ;; for_of xs' acc' body
  end.

Module JsString.

(** [s.endsWith(searchString)] *)
Definition endsWith (s searchString : string) : bool :=
  let len := String.length s in
  let searchLength := String.length searchString in
  (searchLength <=? len)%nat
  && String.eqb (substring (len - searchLength) searchLength s) searchString.

(** [s.replace(/\.mdx?$/, "")]: the pattern is tried at each start
    position from the left; it matches there exactly when the rest of the
    string is [".mdx"] or [".md"], and the match reaches the end of the
    string, so the first match removes the whole remainder. *)
Fixpoint replace_mdx_ext (s : string) : string :=
  match s with
  | EmptyString => EmptyString
  | String c s' =>
      if String.eqb s ".mdx" || String.eqb s ".md" then EmptyString
      else String c (replace_mdx_ext s')
  end.

(** [s.split(sep)[0]] for a one-character separator: the text before the
    first occurrence of [sep], or all of [s]. *)
Fixpoint split_head (sep : ascii) (s : string) : string :=
  match s with
  | EmptyString => EmptyString
  | String c s' =>
      if Ascii.eqb c sep then EmptyString else String c (split_head sep s')
  end.

(** [segments.join(sep)] *)
Fixpoint join (sep : string) (segments : list string) : string :=
  match segments with
  | [] => ""
  | [x] => x
  | x :: rest => x +:+ sep +:+ join sep rest
  end.

(** [x || dflt] on an optional string: [undefined] and [""] are falsy. *)
Definition or_else (x : option string) (dflt : string) : string :=
  match x with
  | Some s => if String.eqb s "" then dflt else s
  | None => dflt
  end.

End JsString.

Module JsNumber.

Definition digit (d : Z) : string :=
  String (ascii_of_nat (48 + Z.to_nat d)) EmptyString.

Fixpoint decimal_aux (fuel : nat) (n : Z) : string :=
  match fuel with
  | O => ""
  | S fuel' =>
      if n <? 10 then digit n
      else decimal_aux fuel' (n / 10) +:+ digit (n mod 10)
  end.

(** The decimal digits of a non-negative integer, most significant first,
    without leading zeros (["0"] for zero). *)
Definition decimal (n : Z) : string :=
  decimal_aux (S (Z.to_nat (Z.log2 n))) n.

(** The number a digit string denotes (used to state what [decimal]
    produces). *)
Fixpoint value_acc (acc : Z) (s : string) : Z :=
  match s with
  | EmptyString => acc
  | String c s' => value_acc (10 * acc + (Z.of_nat (nat_of_ascii c) - 48)) s'
  end.
Definition value (s : string) : Z := value_acc 0 s.

(** The strings made of decimal digits. *)
Definition is_digit (c : ascii) : Prop :=
  (48 <= nat_of_ascii c <= 57)%nat.

Definition all_digits (s : string) : Prop :=
  forall c, In c (list_ascii_of_string s) -> is_digit c.

(** [String(n)], [`${n}`] for an integer [n] below 10^21 in magnitude. *)
Definition toString (n : Z) : string :=
  if n <? 0 then "-" +:+ decimal (- n) else decimal n.

Fixpoint zeros (k : nat) : string :=
  match k with
  | O => ""
  | S k' => "0" +:+ zeros k'
  end.

(** [n.toString().padStart(width, "0")] *)
Definition padStart0 (width : nat) (s : string) : string :=
  zeros (width - String.length s) +:+ s.

(** [x.toFixed(f)] for the number [x = num / den] with [0 < den] and
    [|x| < 10^21]: [n] is the integer for which [n / 10^f - x] is closest
    to zero, the larger one if there are two. *)
Definition toFixed (num den : Z) (f : nat) : string :=
  let s := if num <? 0 then "-" else "" in
  let num := Z.abs num in
  let n := (2 * num * 10 ^ Z.of_nat f + den) / (2 * den) in
  let m := decimal n in
  let m :=
    if (f =? 0)%nat then m
    else
      let m := padStart0 (f + 1) m in
      let k := String.length m in
      substring 0 (k - f) m +:+ "." +:+ substring (k - f) f m in
  s +:+ m.

End JsNumber.

(** ** [Date] *)

Module JsDate.

(** A Date object is its time value: milliseconds since the epoch, or
    [None] for the invalid date (time value NaN). *)
Definition t : Type := option Z.

Definition msPerDay : Z := 86400000.

(** [TimeClip]: a time value is at most 8.64e15 in magnitude. *)
Definition TimeClip (time : Z) : t :=
  if Z.abs time <=? 8640000000000000 then Some time else None.

(** [Day(t)] and [TimeWithinDay(t)] *)
Definition Day (time : Z) : Z := time / msPerDay.
Definition TimeWithinDay (time : Z) : Z := time mod msPerDay.

(** [DaysInYear(y)] is 366 in a leap year. *)
Definition InLeapYear (y : Z) : bool :=
  if negb (y mod 4 =? 0) then false
  else if negb (y mod 100 =? 0) then true
  else if negb (y mod 400 =? 0) then false
  else true.

(** [DayFromYear(y)]: the day number of the first day of year [y]. *)
Definition DayFromYear (y : Z) : Z :=
  365 * (y - 1970) + (y - 1969) / 4 - (y - 1901) / 100 + (y - 1601) / 400.

(** Days of the year that precede month [m] (1 = January). *)
Definition daysBeforeMonth (leap : bool) (m : Z) : Z :=
  let l := if leap then 1 else 0 in
  if m =? 1 then 0
  else if m =? 2 then 31
  else if m =? 3 then 59 + l
  else if m =? 4 then 90 + l
  else if m =? 5 then 120 + l
  else if m =? 6 then 151 + l
  else if m =? 7 then 181 + l
  else if m =? 8 then 212 + l
  else if m =? 9 then 243 + l
  else if m =? 10 then 273 + l
  else if m =? 11 then 304 + l
  else 334 + l.



(** [MakeDay(y, m - 1, d)]: the day number of the calendar date
    [y]-[m]-[d]. *)
Definition MakeDay (y m d : Z) : Z :=
  DayFromYear y + daysBeforeMonth (InLeapYear y) m + d - 1.

(** [MakeFullYear(y)]: a year from 0 to 99 stands for a year of the
    twentieth century. *)
Definition MakeFullYear (y : Z) : Z :=
  if (0 <=? y) && (y <=? 99) then 1900 + y else y.

(** [Date.UTC(y, m - 1, d)]: midnight UTC of the day [m]-[d] of the year
    [MakeFullYear(y)].  The YAML loader builds the Date of a timestamp
    [YYYY-MM-DD] of a metadata block as [new Date(Date.UTC(year, month - 1,
    day))], so a date written with a year from 0000 to 0099 is loaded as a
    date of the years 1900 to 1999. *)
Definition UTC (y m d : Z) : Z :=
  let yr := MakeFullYear y in
  msPerDay * MakeDay yr m d.

(** [YearFromTime], [MonthFromTime] (1 = January) and [DateFromTime] of a
    day number, computed over the 400-year cycle of the calendar, counted
    from the first of March of year 0. *)
Definition civil_from_days (day : Z) : Z * Z * Z :=
  let z := day + 719468 in
  let era := z / 146097 in
  let doe := z mod 146097 in
  let yoe := (doe - doe / 1460 + doe / 36524 - doe / 146096) / 365 in
  let doy := doe - (365 * yoe + yoe / 4 - yoe / 100) in
  let mp := (5 * doy + 2) / 153 in
  let d := doy - (153 * mp + 2) / 5 + 1 in
  let m := if mp <? 10 then mp + 3 else mp - 9 in
  let y := yoe + era * 400 + (if m <=? 2 then 1 else 0) in
  (y, m, d).




Definition pad (width : nat) (n : Z) : string :=
  JsNumber.padStart0 width (JsNumber.decimal n).

(** The year of the ISO format: four digits from 0 to 9999, otherwise a
    sign and six digits. *)
Definition isoYear (y : Z) : string :=
  if (0 <=? y) && (y <=? 9999) then pad 4 y
  else (if y <? 0 then "-" else "+") +:+ pad 6 (Z.abs y).

Definition isoDatePart (time : Z) : string :=
  let '(y, m, d) := civil_from_days (Day time) in
  isoYear y +:+ "-" +:+ pad 2 m +:+ "-" +:+ pad 2 d.

Definition isoTimePart (time : Z) : string :=
  let ms := TimeWithinDay time in
  pad 2 (ms / 3600000) +:+ ":" +:+ pad 2 (ms / 60000 mod 60) +:+ ":"
  +:+ pad 2 (ms / 1000 mod 60) +:+ "." +:+ pad 3 (ms mod 1000).

(** [d.toISOString()]: [YYYY-MM-DDTHH:mm:ss.sssZ]; a RangeError for the
    invalid date. *)
Definition toISOString (d : t) : result string :=
  match d with
  | None => Throw RangeError
  | Some time => Ok (isoDatePart time +:+ "T" +:+ isoTimePart time +:+ "Z")
  end.

(** [d.toISOString().split("T")[0]] *)
Definition isoDay (d : t) : result string :=
  iso <- toISOString d ;; Ok (JsString.split_head "T" iso).

(** [a > b] on Date objects compares the time values; a comparison with
    NaN is false. *)
Definition gt (a b : t) : bool :=
  match a, b with
  | Some x, Some y => y <? x
  | _, _ => false
  end.

(** [d.getTime() === 0] *)
Definition getTime_is_0 (d : t) : bool :=
  match d with
  | Some x => x =? 0
  | None => false
  end.

End JsDate.

(** ** Node's [path] module (POSIX flavour) *)

Module Path.

Record extname_state : Type := mkState {
  startDot : Z;
  startPart : Z;
  end_ : Z;
  matchedSlash : bool;
  preDotState : Z
}.

(** The loop of [extname], [for (let i = path.length - 1; i >= 0; --i)],
    over the characters from the last one down; [i] is the index of the
    head of [codes]. *)
Fixpoint extname_loop (codes : list ascii) (i : Z) (st : extname_state)
  : extname_state :=
  match codes with
  | [] => st
  | code :: rest =>
      if Ascii.eqb code "/" then
        if negb (matchedSlash st) then
          (* a separator that ends the last component: break *)
          mkState (startDot st) (i + 1) (end_ st) (matchedSlash st)
                  (preDotState st)
        else extname_loop rest (i - 1) st
      else
        let st :=
          if end_ st =? -1 then
            mkState (startDot st) (startPart st) (i + 1) false (preDotState st)
          else st in
        let st :=
          if Ascii.eqb code "." then
            if startDot st =? -1 then
              mkState i (startPart st) (end_ st) (matchedSlash st)
                      (preDotState st)
            else if negb (preDotState st =? 1) then
              mkState (startDot st) (startPart st) (end_ st)
                      (matchedSlash st) 1
            else st
          else if negb (startDot st =? -1) then
            mkState (startDot st) (startPart st) (end_ st) (matchedSlash st)
                    (-1)
          else st in
        extname_loop rest (i - 1) st
  end.

(** [path.extname(p)]: from the last dot of the last component to its end;
    empty when there is no dot, when the only dot is the first character
    of the component, and for the component [".."]. *)
Definition extname (p : string) : string :=
  let st :=
    extname_loop (rev (list_ascii_of_string p))
                 (Z.of_nat (String.length p) - 1)
                 (mkState (-1) 0 (-1) true 0) in
  if (startDot st =? -1)
     || (end_ st =? -1)
     || (preDotState st =? 0)
     || ((preDotState st =? 1)
         && (startDot st =? end_ st - 1)
         && (startDot st =? startPart st + 1))
  then ""
  else substring (Z.to_nat (startDot st))
                 (Z.to_nat (end_ st - startDot st)) p.

(** A path of the content tree is kept as the list of its segments (the
    page hands over [path.join("/")] of the route's segments);
    [path.basename] is then the last segment. *)
Definition basename (segments : list string) : string := last segments "".

(** [contentPath + ext]: the suffix lands on the last segment. *)
Fixpoint add_suffix (segments : list string) (ext : string) : list string :=
  match segments with
  | [] => [ext]
  | [x] => [x +:+ ext]
  | x :: rest => x :: add_suffix rest ext
  end.

End Path.

(** ** The content tree and Node's [fs] module *)

Module Fs.

(** A node of the tree below [CONTENT_DIR]: a file with its text and its
    modification time, or a directory with its entries in the order
    [readdirSync] lists them. *)
#[warnings="-register-all"] Inductive node : Type :=
  | File (raw : string) (mtimeMs : Z)
  | Dir (items : list (string * node)).

Fixpoint child (items : list (string * node)) (item : string) : option node :=
  match items with
  | [] => None
  | (n, c) :: rest => if String.eqb n item then Some c else child rest item
  end.

(** The node a path leads to, from the root. *)
Fixpoint resolve (root : node) (segments : list string) : option node :=
  match segments with
  | [] => Some root
  | item :: rest =>
      match root with
      | File _ _ => None
      | Dir items =>
          match child items item with
          | Some c => resolve c rest
          | None => None
          end
      end
  end.

Record Stats : Type := mkStats {
  isDirectory : bool;
  mtime : JsDate.t
}.

Section Calls.
Variable root : node.

Definition existsSync (p : list string) : bool :=
  match resolve root p with
  | Some _ => true
  | None => false
  end.

(** The tree keeps no modification time for a directory; the resolver
    reads [mtime] of files only. *)
Definition statSync (p : list string) : result Stats :=
  match resolve root p with
  | Some (Dir _) => Ok (mkStats true None)
  | Some (File _ mtimeMs) => Ok (mkStats false (JsDate.TimeClip mtimeMs))
  | None => Throw ENOENT
  end.

Definition readdirSync (p : list string) : result (list string) :=
  match resolve root p with
  | Some (Dir items) => Ok (map fst items)
  | Some (File _ _) => Throw ENOTDIR
  | None => Throw ENOENT
  end.

Definition readFileSync (p : list string) : result string :=
  match resolve root p with
  | Some (File raw _) => Ok raw
  | Some (Dir _) => Throw EISDIR
  | None => Throw ENOENT
  end.
End Calls.

(** Length of the longest path below a node. *)
Fixpoint height (n : node) : nat :=
  match n with
  | File _ _ => 0%nat
  | Dir items =>
      S ((fix height_items (l : list (string * node)) : nat :=
            match l with
            | [] => 0%nat
            | (_, c) :: rest => Nat.max (height c) (height_items rest)
            end) items)
  end.

(** The names of a directory are pairwise different, at every level. *)
Fixpoint wf (n : node) : Prop :=
  match n with
  | File _ _ => True
  | Dir items =>
      NoDup (map fst items)
      /\ (fix wf_items (l : list (string * node)) : Prop :=
            match l with
            | [] => True
            | (_, c) :: rest => wf c /\ wf_items rest
            end) items
  end.

End Fs.

(** ** [gray-matter] *)

Module GrayMatter.

(** The value of the [date] key: a YAML timestamp, which the loader turns
    into a Date with the given time value, or a string. *)
Inductive date_value : Type :=
  | Timestamp (time : Z)
  | DateString (s : string).

(** The [data] object, read at its three keys; [None] is [undefined].
    [title] and [description] are strings, as the interfaces of
    [lib/shared.ts] declare them. *)
Record data_t : Type := mkData {
  title : option string;
  description : option string;
  date : option date_value
}.

Record file : Type := mkFile {
  data : data_t;
  content : string
}.

(** [data.date ? ... : ...]: an object is truthy, a string unless empty. *)
Definition truthy_date (d : option date_value) : bool :=
  match d with
  | Some (Timestamp _) => true
  | Some (DateString s) => negb (String.eqb s "")
  | None => false
  end.

End GrayMatter.

(** ** The content resolver: [lib/content.ts] *)

(** A content path ([contentPath], [dirPath], [itemPath]) is the list of its
    segments, and [path.join(CONTENT_DIR, contentPath)] is that path taken
    from the root of the tree; the segments are plain names (no [.], [..] or
    empty segment, which [path.join] would normalise).  In an [href],
    [path.join(contentPath, slug)] is the segments joined by a slash, which
    is what [path.join] gives for plain segments; the slug of a post file
    named [.mdx], [..mdx] or [...mdx] (or the same with [.md]) is not
    plain, and what is proved of an [href] leaves these files out. *)

Module Content.
Import JsString.

Section Resolver.
(** The content tree under [CONTENT_DIR]. *)
Variable root : Fs.node.
(** [matter(raw)] of gray-matter, where it returns: the parsed metadata
    block and the body.  On a malformed metadata block the parser throws a
    YAMLException instead; that exception is outside the model, which has
    [matter raw] for what the parser returned.  What is proved of a returned
    value or of a RangeError, and what is proved from a hypothesis on
    [matter raw], is proved of runs in which the parser has returned. *)
Variable matter : string -> GrayMatter.file.
(** [Date.parse], whose answer outside the ISO format is left to the
    implementation. *)
Variable Date_parse : string -> JsDate.t.
(** The time value [new Date()] reads from the clock. *)
Variable now : Z.

(** [new Date(data.date)] *)
Definition new_Date (v : option GrayMatter.date_value) : JsDate.t :=
  match v with
  | Some (GrayMatter.Timestamp time) => JsDate.TimeClip time
  | Some (GrayMatter.DateString s) => Date_parse s
  | None => None
  end.

(** [item.endsWith(".mdx") || item.endsWith(".md")] *)
Definition is_post_name (item : string) : bool :=
  endsWith item ".mdx" || endsWith item ".md".

Definition getDirectoryDate (dirPath : list string) : result string :=
  items <- Fs.readdirSync root dirPath ;;
  latestDate <-
    for_of items (Some 0) (fun latestDate item =>
      let itemPath := dirPath ++ [item] in
      stat <- Fs.statSync root itemPath ;;
      if negb (Fs.isDirectory stat) && is_post_name item then
        raw <- Fs.readFileSync root itemPath ;;
        let data := GrayMatter.data (matter raw) in
        let d :=
          if GrayMatter.truthy_date (GrayMatter.date data)
          then new_Date (GrayMatter.date data)
          else Fs.mtime stat in
        Ok (if JsDate.gt d latestDate then d else latestDate)
      else Ok latestDate) ;;
  if JsDate.getTime_is_0 latestDate
  then JsDate.isoDay (JsDate.TimeClip now)
  else JsDate.isoDay latestDate.

Definition getDirectoryDescription (dirPath : list string) : result string :=
  let indexPath := dirPath ++ ["index.mdx"] in
  if Fs.existsSync root indexPath then
    raw <- Fs.readFileSync root indexPath ;;
    let data := GrayMatter.data (matter raw) in
    Ok (or_else (GrayMatter.description data) "")
  else Ok "".

Definition readDirectory (contentPath : list string)
  : result (list DirectoryEntry.t) :=
  let fullPath := contentPath in
  if negb (Fs.existsSync root fullPath) then Ok []
  else
    st <- Fs.statSync root fullPath ;;
    if negb (Fs.isDirectory st) then Ok []
    else
      items <- Fs.readdirSync root fullPath ;;
      for_of items [] (fun entries item =>
        let itemPath := fullPath ++ [item] in
        stat <- Fs.statSync root itemPath ;;
        if Fs.isDirectory stat then
          date <- getDirectoryDate itemPath ;;
          description <- getDirectoryDescription itemPath ;;
          Ok (entries ++
              [DirectoryEntry.mk (item +:+ "/") true "" date 0 description
                 ("/" +:+ join "/" (contentPath ++ [item]))])
        else if is_post_name item then
          raw <- Fs.readFileSync root itemPath ;;
          let data := GrayMatter.data (matter raw) in
          let slug := replace_mdx_ext item in
          date <-
            (if GrayMatter.truthy_date (GrayMatter.date data)
             then JsDate.isoDay (new_Date (GrayMatter.date data))
             else JsDate.isoDay (Fs.mtime stat)) ;;
          Ok (entries ++
              [DirectoryEntry.mk item false (Path.extname item) date
                 (Z.of_nat (String.length raw))
                 (or_else (GrayMatter.description data) "")
                 ("/" +:+ join "/" (contentPath ++ [slug]))])
        else Ok entries).

Definition readPost (contentPath : list string) : result (option PostData.t) :=
  let mdxPath := Path.add_suffix contentPath ".mdx" in
  let mdPath := Path.add_suffix contentPath ".md" in
  let filePath :=
    if Fs.existsSync root mdxPath then Some mdxPath
    else if Fs.existsSync root mdPath then Some mdPath
    else None in
  match filePath with
  | None => Ok None
  | Some filePath =>
      raw <- Fs.readFileSync root filePath ;;
      let m := matter raw in
      let data := GrayMatter.data m in
      date <-
        (if GrayMatter.truthy_date (GrayMatter.date data)
         then JsDate.isoDay (new_Date (GrayMatter.date data))
         else Ok "") ;;
      Ok (Some (PostData.mk
                  (or_else (GrayMatter.title data) (Path.basename contentPath))
                  (or_else (GrayMatter.description data) "")
                  date
                  (GrayMatter.content m)
                  (join "/" contentPath)))
  end.

Definition isDirectory (contentPath : list string) : result bool :=
  let fullPath := contentPath in
  if Fs.existsSync root fullPath then
    st <- Fs.statSync root fullPath ;; Ok (Fs.isDirectory st)
  else Ok false.

Definition isPost (contentPath : list string) : bool :=
  let mdxPath := Path.add_suffix contentPath ".mdx" in
  let mdPath := Path.add_suffix contentPath ".md" in
  Fs.existsSync root mdxPath || Fs.existsSync root mdPath.

(** The inner function [walk] of [getAllPaths]; [paths] is the array it
    pushes to.  [fuel] bounds the depth of the recursion. *)
Fixpoint walk (fuel : nat) (dir segments : list string)
         (paths : list (list string)) : result (list (list string)) :=
  match fuel with
  | O => Throw OutOfFuel
  | S fuel' =>
      items <- Fs.readdirSync root dir ;;
      for_of items paths (fun paths item =>
        let itemPath := dir ++ [item] in
        stat <- Fs.statSync root itemPath ;;
        if Fs.isDirectory stat then
          let newSegments := segments ++ [item] in
          walk fuel' (dir ++ [item]) newSegments (paths ++ [newSegments])
        else if is_post_name item then
          let slug := replace_mdx_ext item in
          Ok (paths ++ [segments ++ [slug]])
        else Ok paths)
  end.

Definition getAllPaths (fuel : nat) : result (list (list string)) :=
  walk fuel [] [] [].

End Resolver.

End Content.

(** ** [formatSize] of [lib/shared.ts] *)

(** [bytes] is an integer below 2^53; [bytes / 1024], [bytes / (1024 * 1024)]
    and [bytes / (1024 * 1024 * 1024)] divide by a power of two, which is
    exact in binary floating point, so [toFixed] receives the rational it is
    given here. *)
Definition formatSize (bytes : Z) : string :=
  if bytes =? 0 then "0"
  else if bytes <? 1024 then JsNumber.toString bytes
  else if bytes <? 1024 * 1024 then
    JsNumber.toFixed bytes 1024 1 +:+ "K"
  else if bytes <? 1024 * 1024 * 1024 then
    JsNumber.toFixed bytes (1024 * 1024) 0 +:+ "M"
  else JsNumber.toFixed bytes (1024 * 1024 * 1024) 0 +:+ "G".

(** ** [Array.prototype.sort] *)

Module JsArray.

(** ECMAScript calls a comparator [cmp] consistent when it has the five
    properties below ([a =CF b] is [cmp a b = 0], [a <CF b] is
    [cmp a b < 0], [a >CF b] is [cmp a b > 0]). *)
Record ConsistentComparator {A : Type} (cmp : A -> A -> Z) : Prop := {
  cc_refl : forall a, cmp a a = 0;
  cc_sym : forall a b, cmp a b = 0 -> cmp b a = 0;
  cc_eq_trans : forall a b c, cmp a b = 0 -> cmp b c = 0 -> cmp a c = 0;
  cc_lt_trans : forall a b c, cmp a b < 0 -> cmp b c < 0 -> cmp a c < 0;
  cc_gt_trans : forall a b c, cmp a b > 0 -> cmp b c > 0 -> cmp a c > 0
}.

Section Sort.
Context {A : Type}.
Variable cmp : A -> A -> Z.

(** [x] goes in front of the first element it does not compare greater
    than: an element that compares equal to [x] stays behind it. *)
Fixpoint insert (x : A) (l : list A) : list A :=
  match l with
  | [] => [x]
  | y :: l' => if cmp x y <=? 0 then x :: y :: l' else y :: insert x l'
  end.

(** [arr.sort(cmp)].  The standard leaves the sequence of comparator calls
    to the implementation and requires the sort to be stable; for a
    consistent comparator that fixes the result, which this insertion
    sort computes (lemma [JsArrayFacts.sort_unique]). *)
Fixpoint sort (l : list A) : list A :=
  match l with
  | [] => []
  | x :: l' => insert x (sort l')
  end.
End Sort.

End JsArray.

(** ** The listing presenter: [components/DirectoryListing.tsx] *)

Module DirectoryListing.
Import DirectoryEntry.

(** [type SortColumn = "name" | "date" | "size" | "description"] *)
Inductive SortColumn : Type := name_col | date_col | size_col | description_col.

(** [type SortOrder = "asc" | "desc"] *)
Inductive SortOrder : Type := asc | desc.

Section Presenter.
(** [String.prototype.localeCompare] depends on the host's collation
    data; it is a parameter of the model. *)
Variable localeCompare : string -> string -> Z.

(** The arrow function handed to [sort]. *)
Definition comparator (sortColumn : SortColumn) (sortOrder : SortOrder)
           (a b : DirectoryEntry.t) : Z :=
  if isDirectory a && negb (isDirectory b) then -1
  else if negb (isDirectory a) && isDirectory b then 1
  else
    let cmp :=
      match sortColumn with
      | name_col => localeCompare (name a) (name b)
      | date_col => localeCompare (date a) (date b)
      | size_col => size a - size b
      | description_col => localeCompare (description a) (description b)
      end in
    match sortOrder with asc => cmp | desc => - cmp end.

(** [const sorted = [...entries].sort(...)]: the specification's
    [sortEntries]. *)
Definition sorted (sortColumn : SortColumn) (sortOrder : SortOrder)
           (entries : list DirectoryEntry.t) : list DirectoryEntry.t :=
  JsArray.sort (comparator sortColumn sortOrder) entries.
End Presenter.

End DirectoryListing.

(** The second variant of the component (with the breadcrumb header) has no
    size column. *)
Module DirectoryListingMobile.
Import DirectoryEntry.

(** [type SortColumn = "name" | "date" | "description"] *)
Inductive SortColumn : Type := name_col | date_col | description_col.

Section Presenter.
Variable localeCompare : string -> string -> Z.

Definition comparator (sortColumn : SortColumn)
           (sortOrder : DirectoryListing.SortOrder)
           (a b : DirectoryEntry.t) : Z :=
  if isDirectory a && negb (isDirectory b) then -1
  else if negb (isDirectory a) && isDirectory b then 1
  else
    let cmp :=
      match sortColumn with
      | name_col => localeCompare (name a) (name b)
      | date_col => localeCompare (date a) (date b)
      | description_col => localeCompare (description a) (description b)
      end in
    match sortOrder with
    | DirectoryListing.asc => cmp
    | DirectoryListing.desc => - cmp
    end.

Definition sorted (sortColumn : SortColumn)
           (sortOrder : DirectoryListing.SortOrder)
           (entries : list DirectoryEntry.t) : list DirectoryEntry.t :=
  JsArray.sort (comparator sortColumn sortOrder) entries.
End Presenter.

End DirectoryListingMobile.




(** ** The resolver's results, in the words of the specification *)

Module Spec.
Import Content.

(** A name of a directory entry holds no path separator. *)
Definition valid_name (item : string) : Prop :=
  ~ In "/"%char (list_ascii_of_string item).

(** The children of a directory that give a route: its subdirectories and
    its post files. *)
Definition is_routable (c : Fs.node) (item : string) : bool :=
  match c with
  | Fs.Dir _ => true
  | Fs.File _ _ => is_post_name item
  end.

(** The last segment of a child's route: the name of a subdirectory, the
    name without its extension for a post. *)
Definition route_segment (c : Fs.node) (item : string) : string :=
  match c with
  | Fs.Dir _ => item
  | Fs.File _ _ => JsString.replace_mdx_ext item
  end.

(** Pre-order enumeration: every subdirectory gives its segment path and
    then the paths below it; every post file gives its segment path without
    the extension. *)
Fixpoint enumerate (n : Fs.node) (segments : list string)
  : list (list string) :=
  match n with
  | Fs.File _ _ => []
  | Fs.Dir items =>
      flat_map
        (fun ic : string * Fs.node =>
           let (item, c) := ic in
           match c with
           | Fs.Dir _ => (segments ++ [item]) :: enumerate c (segments ++ [item])
           | Fs.File _ _ =>
               if is_post_name item
               then [segments ++ [JsString.replace_mdx_ext item]]
               else []
           end)
        items
  end.

(** The number of directories below a node. *)
Fixpoint count_directories (n : Fs.node) : nat :=
  match n with
  | Fs.File _ _ => 0%nat
  | Fs.Dir items =>
      list_sum
        (map (fun ic : string * Fs.node =>
                let (item, c) := ic in
                match c with
                | Fs.Dir _ => S (count_directories c)
                | Fs.File _ _ => 0%nat
                end)
             items)
  end.

(** The number of post files below a node. *)
Fixpoint count_posts (n : Fs.node) : nat :=
  match n with
  | Fs.File _ _ => 0%nat
  | Fs.Dir items =>
      list_sum
        (map (fun ic : string * Fs.node =>
                let (item, c) := ic in
                match c with
                | Fs.Dir _ => count_posts c
                | Fs.File _ _ => if is_post_name item then 1%nat else 0%nat
                end)
             items)
  end.

(** The route segments of the children of a directory. *)
Definition route_segments (items : list (string * Fs.node)) : list string :=
  flat_map
    (fun ic : string * Fs.node =>
       let (item, c) := ic in
       if is_routable c item then [route_segment c item] else [])
    items.

(** In every directory, the children that give a route give different
    segments: no [x.md] next to [x.mdx] or next to a directory [x]. *)
Fixpoint routes_distinct (n : Fs.node) : Prop :=
  match n with
  | Fs.File _ _ => True
  | Fs.Dir items =>
      NoDup (route_segments items)
      /\ (fix all (l : list (string * Fs.node)) : Prop :=
            match l with
            | [] => True
            | (_, c) :: rest => routes_distinct c /\ all rest
            end) items
  end.

(** [q] is the segment path, from [n], of a directory below [n] or, with
    the extension taken off, of a post file below [n]. *)
Definition is_route (n : Fs.node) (q : list string) : Prop :=
  (q <> [] /\ exists sub, Fs.resolve n q = Some (Fs.Dir sub))
  \/ (exists dir item raw mtimeMs,
         q = dir ++ [JsString.replace_mdx_ext item]
         /\ Fs.resolve n (dir ++ [item]) = Some (Fs.File raw mtimeMs)
         /\ is_post_name item = true).

Section Dates.
Variable matter : string -> GrayMatter.file.
Variable Date_parse : string -> JsDate.t.

(** The date a post file contributes: the date of its metadata block when
    there is one, its modification time otherwise. *)
Definition post_date (raw : string) (mtimeMs : Z) : JsDate.t :=
  let d := GrayMatter.date (GrayMatter.data (matter raw)) in
  if GrayMatter.truthy_date d then new_Date Date_parse d
  else JsDate.TimeClip mtimeMs.

(** The dates of the post files directly in a directory. *)
Definition post_dates (items : list (string * Fs.node)) : list JsDate.t :=
  flat_map
    (fun ic : string * Fs.node =>
       let (item, c) := ic in
       match c with
       | Fs.File raw mtimeMs =>
           if is_post_name item then [post_date raw mtimeMs] else []
       | Fs.Dir _ => []
       end)
    items.

(** [m] is the most recent of the time values [dates]. *)
Definition most_recent (dates : list JsDate.t) (m : Z) : Prop :=
  In (Some m) dates /\ forall time, In (Some time) dates -> time <= m.

(** [m] is the most recent of the time values [dates] that lie after the
    epoch, or 0 when there is none. *)
Definition most_recent_after_epoch (dates : list JsDate.t) (m : Z) : Prop :=
  0 <= m
  /\ (m = 0 \/ In (Some m) dates)
  /\ forall time, In (Some time) dates -> time <= m.

(** The file [readPost] reads for a path: the [.mdx] file, or the [.md]
    file when nothing has the [.mdx] name. *)
Definition post_file_at (root : Fs.node) (dir : list string) (base raw : string)
  : Prop :=
  (exists mtimeMs,
      Fs.resolve root (dir ++ [base +:+ ".mdx"]) = Some (Fs.File raw mtimeMs))
  \/ (Fs.resolve root (dir ++ [base +:+ ".mdx"]) = None
      /\ exists mtimeMs,
        Fs.resolve root (dir ++ [base +:+ ".md"]) = Some (Fs.File raw mtimeMs)).

End Dates.


End Spec.

(** ** More of the runtime: [split], [filter(Boolean)], [toLowerCase] *)

Module JsStringMore.

(** [s.split(sep)] for a one-character separator: the pieces between the
    occurrences of [sep], empty pieces included; [[""]] for the empty
    string. *)
Fixpoint split (sep : ascii) (s : string) : list string :=
  match s with
  | EmptyString => [""]
  | String c s' =>
      if Ascii.eqb c sep then "" :: split sep s'
      else
        match split sep s' with
        | [] => [String c ""]
        | piece :: pieces => String c piece :: pieces
        end
  end.

(** [Boolean(s)], the predicate of [filter(Boolean)]: a string is truthy
    unless it is empty. *)
Definition Boolean (s : string) : bool := negb (String.eqb s "").

(** [s.toLowerCase()] on the letters A to Z; the other characters of an
    extension are left as they are. *)
Definition toLowerCase_char (c : ascii) : ascii :=
  let n := nat_of_ascii c in
  if (65 <=? n)%nat && (n <=? 90)%nat then ascii_of_nat (n + 32) else c.

Fixpoint toLowerCase (s : string) : string :=
  match s with
  | EmptyString => EmptyString
  | String c s' => String (toLowerCase_char c) (toLowerCase s')
  end.

End JsStringMore.

(** ** [getTypeIndicator] of [lib/shared.ts] *)

Module Shared.

(** The object literal [map]. *)
Definition map : list (string * string) :=
  [(".mdx", "[TXT]"); (".md", "[TXT]"); (".txt", "[TXT]"); (".pdf", "[PDF]");
   (".png", "[IMG]"); (".jpg", "[IMG]"); (".jpeg", "[IMG]"); (".gif", "[IMG]");
   (".svg", "[IMG]"); (".tar.gz", "[CMP]"); (".zip", "[CMP]"); (".gz", "[CMP]")].

(** [map[ext]] for an extension, that is the empty string or a string that
    begins with a dot, as [path.extname] returns them: no property that the
    object literal inherits has such a name. *)
Fixpoint lookup (m : list (string * string)) (ext : string) : option string :=
  match m with
  | [] => None
  | (key, value) :: m' => if String.eqb key ext then Some value else lookup m' ext
  end.

Definition getTypeIndicator (entry : DirectoryEntry.t) : string :=
  if DirectoryEntry.isDirectory entry then "[DIR]"
  else
    let ext := JsStringMore.toLowerCase (DirectoryEntry.extension entry) in
    match lookup map ext with
    | Some tag => tag
    | None => "[ ]"
    end.

End Shared.

(** ** The controls of the listing: [components/DirectoryListing.tsx] *)

Module DirectoryListingControls.
Import DirectoryListing.

(** The two pieces of state of the component, [useState("name")] and
    [useState("asc")]. *)
Record state : Type := mkState {
  sortColumn : SortColumn;
  sortOrder : SortOrder
}.

Definition initial : state := mkState name_col asc.

(** [sortColumn === column] *)
Definition SortColumn_eqb (a b : SortColumn) : bool :=
  match a, b with
  | name_col, name_col | date_col, date_col
  | size_col, size_col | description_col, description_col => true
  | _, _ => false
  end.

(** [handleSort(column)]: the state of the next render. *)
Definition handleSort (column : SortColumn) (st : state) : state :=
  if SortColumn_eqb (sortColumn st) column then
    mkState (sortColumn st)
            (match sortOrder st with asc => desc | desc => asc end)
  else mkState column asc.

(** The list the component renders in a state. *)
Definition rendered (localeCompare : string -> string -> Z) (st : state)
           (entries : list DirectoryEntry.t) : list DirectoryEntry.t :=
  sorted localeCompare (sortColumn st) (sortOrder st) entries.

(** [parentHref]: [null] on the root, otherwise the path without its last
    segment. *)
Definition parentHref (path : string) : option string :=
  if String.eqb path "/" then None
  else
    Some ("/" +:+ JsString.join "/"
                    (removelast
                       (filter JsStringMore.Boolean
                               (JsStringMore.split "/" path)))).

End DirectoryListingControls.

(** ** [components/Breadcrumb.tsx] *)

Module Breadcrumb.

(** One [<span>] of the breadcrumb: the text of the link, its [href] and
    the separator after it. *)
Record crumb : Type := mkCrumb {
  segment : string;
  href : string;
  separator : string
}.

(** The spans that [Breadcrumb({ path })] renders after the link to the
    root. *)
Definition Breadcrumb (path : string) : list crumb :=
  let segments :=
    filter JsStringMore.Boolean (JsStringMore.split "/" path) in
  List.map
    (fun (entry : nat * string) =>
       let (i, segment) := entry in
       let isLast := Nat.eqb i (List.length segments - 1) in
       let href := "/" +:+ JsString.join "/" (firstn (i + 1) segments) in
       mkCrumb segment href
               (if isLast && negb (JsString.endsWith path "/") then "" else "/"))
    (combine (seq 0 (List.length segments)) segments).

End Breadcrumb.

(** ** The pages: [app/page.tsx] and [app/[...path]/page.tsx] *)

Module Page.
Import Content.

(** What a page function returns: the component it renders, with its
    properties, or the not-found outcome of [notFound()]. *)
Inductive page : Type :=
  | DirectoryListingPage (path : string) (entries : list DirectoryEntry.t)
  | PostViewPage (post : PostData.t) (parentPath : string)
  | notFound.

Section Pages.
Variable root : Fs.node.
Variable matter : string -> GrayMatter.file.
Variable Date_parse : string -> JsDate.t.
Variable now : Z.

(** [generateStaticParams] *)
Definition generateStaticParams (fuel : nat) : result (list (list string)) :=
  paths <- getAllPaths root fuel ;;
  Ok (List.map (fun path => path) paths).

(** [Home] *)
Definition Home : result page :=
  entries <- readDirectory root matter Date_parse now [] ;;
  Ok (DirectoryListingPage "/" entries).

(** [CatchAllPage]; [path] is the array of the route's segments. *)
Definition CatchAllPage (path : list string) : result page :=
  let contentPath := path in
  isDir <- isDirectory root contentPath ;;
  if isDir then
    entries <- readDirectory root matter Date_parse now contentPath ;;
    Ok (DirectoryListingPage ("/" +:+ JsString.join "/" path +:+ "/") entries)
  else if isPost root contentPath then
    post <- readPost root matter Date_parse contentPath ;;
    match post with
    | None => Ok notFound
    | Some post =>
        let parentSegments := removelast path in
        let parentPath :=
          if Nat.eqb (List.length parentSegments) 0 then "/"
          else "/" +:+ JsString.join "/" parentSegments in
        Ok (PostViewPage post parentPath)
    end
  else Ok notFound.

End Pages.

End Page.

(** ** The listing, item by item *)

Module ListingSpec.
Import Content.

Section Entries.
Variable root : Fs.node.
Variable matter : string -> GrayMatter.file.
Variable Date_parse : string -> JsDate.t.
Variable now : Z.

(** [e] is the entry that the item [item], with node [c], of the directory
    [contentPath] gives. *)
Definition item_entry (contentPath : list string) (item : string)
           (c : Fs.node) (e : DirectoryEntry.t) : Prop :=
  match c with
  | Fs.Dir _ =>
      exists date description,
        getDirectoryDate root matter Date_parse now (contentPath ++ [item])
        = Ok date
        /\ getDirectoryDescription root matter (contentPath ++ [item])
           = Ok description
        /\ e = DirectoryEntry.mk (item +:+ "/") true "" date 0 description
                 ("/" +:+ JsString.join "/" (contentPath ++ [item]))
  | Fs.File raw mtimeMs =>
      exists date,
        JsDate.isoDay (Spec.post_date matter Date_parse raw mtimeMs) = Ok date
        /\ e = DirectoryEntry.mk item false (Path.extname item) date
                 (Z.of_nat (String.length raw))
                 (JsString.or_else
                    (GrayMatter.description (GrayMatter.data (matter raw))) "")
                 ("/" +:+ JsString.join "/"
                      (contentPath ++ [JsString.replace_mdx_ext item]))
  end.

(** The items of a directory that are listed: subdirectories and post
    files. *)
Definition listed (items : list (string * Fs.node)) : list (string * Fs.node) :=
  filter (fun ic : string * Fs.node => Spec.is_routable (snd ic) (fst ic)) items.

End Entries.

End ListingSpec.

(** ** Plain paths *)

Module PlainPath.

(** A plain segment: a name that [path.join] leaves as it is, that is
    neither empty nor [.] nor [..], and holds no separator.  The names that
    [readdirSync] returns are plain; the slug of a post file is plain
    unless the file is named [.mdx], [..mdx], [...mdx], [.md], [..md] or
    [...md]. *)
Definition plain_name (segment : string) : Prop :=
  segment <> "" /\ segment <> "." /\ segment <> ".."
  /\ Spec.valid_name segment.

Definition plain_path (path : list string) : Prop := Forall plain_name path.

End PlainPath.

(** ** Instances of the parameters, for closed examples *)

(** A collation that orders strings by their code units: an instance of
    [localeCompare]. *)
Definition codeUnitCompare (a b : string) : Z :=
  match String.compare a b with
  | Eq => 0
  | Lt => -1
  | Gt => 1
  end.

(** Two entries of a listing: a subdirectory and a post. *)
Definition archives_entry : DirectoryEntry.t :=
  DirectoryEntry.mk "archives/" true "" "2025-06-15" 0 "Old posts" "/archives".

Definition hello_entry : DirectoryEntry.t :=
  DirectoryEntry.mk "hello.mdx" false ".mdx" "2026-02-23" 120 "First post"
                    "/hello".

Definition notes_entry : DirectoryEntry.t :=
  DirectoryEntry.mk "notes.md" false ".md" "2026-02-20" 120 "CI/CD notes"
                    "/notes".

(** A parser for three metadata blocks, every other text being a body
    without metadata: an instance of [matter]. *)
Definition sample_matter (raw : string) : GrayMatter.file :=
  if String.eqb raw "hello" then
    GrayMatter.mkFile
      (GrayMatter.mkData (Some "Hello World") (Some "First post")
                         (Some (GrayMatter.Timestamp (JsDate.UTC 2026 2 23))))
      "# Hello World"
  else if String.eqb raw "index" then
    GrayMatter.mkFile
      (GrayMatter.mkData (Some "Archives") (Some "Old posts") None) ""
  else if String.eqb raw "old" then
    GrayMatter.mkFile
      (GrayMatter.mkData (Some "An Old Post") (Some "From the archives")
                         (Some (GrayMatter.Timestamp (JsDate.UTC 2025 6 15))))
      "# An Old Post"
  else if String.eqb raw "untitled" then
    GrayMatter.mkFile
      (GrayMatter.mkData (Some "") (Some "No title yet")
                         (Some (GrayMatter.Timestamp (JsDate.UTC 2026 2 23))))
      ""
  else if String.eqb raw "1965" then
    GrayMatter.mkFile
      (GrayMatter.mkData (Some "Before the epoch") (Some "")
                         (Some (GrayMatter.Timestamp (JsDate.UTC 1965 3 1))))
      ""
  else GrayMatter.mkFile (GrayMatter.mkData None None None) raw.

(** An instance of [Date.parse] that recognises nothing. *)
Definition sample_Date_parse (s : string) : JsDate.t := None.

(** An instance of the clock: 2026-11-02T00:00:00.000Z. *)
Definition sample_now : Z := JsDate.UTC 2026 11 2.

(** The entries of the root of [sample_tree]. *)
Definition hello_entry' : DirectoryEntry.t :=
  DirectoryEntry.mk "hello.mdx" false ".mdx" "2026-02-23" 5 "First post"
                    "/hello".

Definition sample_listing : list DirectoryEntry.t :=
  [archives_entry; hello_entry'].

(** A directory that holds a post in both formats. *)
Definition both_tree : Fs.node :=
  Fs.Dir [("post.md", Fs.File "old" 1750000000000);
          ("post.mdx", Fs.File "hello" 1771804800000)].

(** A directory whose only entry is a file named [.md]. *)
Definition dotfile_tree : Fs.node :=
  Fs.Dir [(".md", Fs.File "plain" 1771804800000)].

(** A subdirectory whose index post is [index.md]. *)
Definition index_md_tree : Fs.node :=
  Fs.Dir [("archives", Fs.Dir [("index.md", Fs.File "index" 1750000000000)])].

(** A subdirectory without entries. *)
Definition empty_directory_tree : Fs.node :=
  Fs.Dir [("drafts", Fs.Dir [])].

(** A subdirectory whose only post is dated 1965-03-01. *)
Definition old_tree : Fs.node :=
  Fs.Dir [("history", Fs.Dir [("moon.mdx", Fs.File "1965" 1750000000000)])].




(** A directory named [sub.mdx], alone and next to a file [sub.md]. *)
Definition directory_mdx_tree : Fs.node :=
  Fs.Dir [("sub.mdx", Fs.Dir [])].

Definition directory_mdx_md_tree : Fs.node :=
  Fs.Dir [("sub.md", Fs.File "old" 1750000000000);
          ("sub.mdx", Fs.Dir [])].

(** The content tree of the design document, with a plain text file next to
    the posts. *)
Definition sample_tree : Fs.node :=
  Fs.Dir [("archives",
           Fs.Dir [("index.mdx", Fs.File "index" 1750000000000);
                   ("old-post.mdx", Fs.File "old" 1750000000000)]);
          ("hello.mdx", Fs.File "hello" 1771804800000);
          ("notes.txt", Fs.File "plain" 1771804800000)].

(* ===================================================================== *)
(** * Part II.  Properties *)
(* ===================================================================== *)

(** ** Sorting *)

Module JsArrayFacts.
Import JsArray.

Section Any.
Context {A : Type}.
Variable cmp : A -> A -> Z.

Lemma insert_Permutation (x : A) (l : list A) :
  Permutation (x :: l) (insert cmp x l).
Proof.
  induction l as [|y l IH]; simpl.
  - apply Permutation_refl.
  - destruct (cmp x y <=? 0).
    + apply Permutation_refl.
    + eapply perm_trans; [apply perm_swap|].
      apply perm_skip, IH.
Qed.

Lemma sort_Permutation (l : list A) : Permutation l (sort cmp l).
Proof.
  induction l as [|x l IH]; simpl.
  - apply perm_nil.
  - eapply perm_trans; [apply perm_skip, IH|].
    apply insert_Permutation.
Qed.

Lemma insert_Forall (P : A -> Prop) (x : A) (l : list A) :
  P x -> Forall P l -> Forall P (insert cmp x l).
Proof.
  intros Hx Hl.
  eapply Permutation_Forall; [apply insert_Permutation|].
  constructor; assumption.
Qed.
End Any.

Section Consistent.
Context {A : Type}.
Variable cmp : A -> A -> Z.
Hypothesis consistent : ConsistentComparator cmp.

Lemma cc_lt_gt (a b : A) : cmp a b < 0 -> cmp b a > 0.
Proof.
  intros Hab.
  destruct (Z.lt_trichotomy (cmp b a) 0) as [H|[H|H]]; [| |lia].
  - pose proof (cc_lt_trans _ consistent a b a Hab H).
    pose proof (cc_refl _ consistent a). lia.
  - pose proof (cc_sym _ consistent b a H). lia.
Qed.

Lemma cc_gt_lt (a b : A) : cmp a b > 0 -> cmp b a < 0.
Proof.
  intros Hab.
  destruct (Z.lt_trichotomy (cmp b a) 0) as [H|[H|H]]; [lia| |].
  - pose proof (cc_sym _ consistent b a H). lia.
  - assert (H' : cmp b a > 0) by lia.
    pose proof (cc_gt_trans _ consistent a b a Hab H').
    pose proof (cc_refl _ consistent a). lia.
Qed.

Lemma cc_le_trans (a b c : A) :
  cmp a b <= 0 -> cmp b c <= 0 -> cmp a c <= 0.
Proof.
  intros Hab Hbc.
  destruct (Z.lt_trichotomy (cmp a c) 0) as [H|[H|H]]; [lia|lia|].
  exfalso.
  assert (Hac : cmp a c > 0) by lia.
  assert (Hab' : cmp a b < 0 \/ cmp a b = 0) by lia.
  assert (Hbc' : cmp b c < 0 \/ cmp b c = 0) by lia.
  destruct Hab' as [Hab'|Hab'], Hbc' as [Hbc'|Hbc'].
  - pose proof (cc_lt_trans _ consistent a b c Hab' Hbc'). lia.
  - pose proof (cc_lt_gt a b Hab') as Hba.
    pose proof (cc_gt_trans _ consistent b a c Hba Hac). lia.
  - pose proof (cc_lt_gt b c Hbc') as Hcb.
    pose proof (cc_gt_trans _ consistent a c b Hac Hcb). lia.
  - pose proof (cc_eq_trans _ consistent a b c Hab' Hbc'). lia.
Qed.

Lemma insert_sorted (x : A) (l : list A) :
  StronglySorted (fun a b => cmp a b <= 0) l ->
  StronglySorted (fun a b => cmp a b <= 0) (insert cmp x l).
Proof.
  induction 1 as [|y l Hl IH Hy]; simpl.
  - constructor; constructor.
  - destruct (cmp x y <=? 0) eqn:E.
    + apply Z.leb_le in E.
      constructor; [constructor; assumption|].
      constructor; [assumption|].
      eapply Forall_impl; [|exact Hy].
      intros z Hz. eapply cc_le_trans; eassumption.
    + apply Z.leb_gt in E.
      constructor; [exact IH|].
      apply insert_Forall; [|exact Hy].
      assert (cmp x y > 0) as Hxy by lia.
      pose proof (cc_gt_lt x y Hxy). lia.
Qed.

(** The output is ordered by the comparator. *)
Lemma sort_sorted (l : list A) :
  StronglySorted (fun a b => cmp a b <= 0) (sort cmp l).
Proof.
  induction l as [|x l IH]; simpl.
  - constructor.
  - apply insert_sorted, IH.
Qed.

Lemma insert_filter_class (x a : A) (l : list A) :
  filter (fun y => cmp x y =? 0) (insert cmp a l)
  = filter (fun y => cmp x y =? 0) (a :: l).
Proof.
  induction l as [|y l IH]; [reflexivity|].
  simpl insert.
  destruct (cmp a y <=? 0) eqn:E; [reflexivity|].
  apply Z.leb_gt in E.
  change (filter (fun y0 => cmp x y0 =? 0) (y :: insert cmp a l))
    with (if cmp x y =? 0
          then y :: filter (fun y0 => cmp x y0 =? 0) (insert cmp a l)
          else filter (fun y0 => cmp x y0 =? 0) (insert cmp a l)).
  rewrite IH. simpl.
  destruct (cmp x y =? 0) eqn:Ey, (cmp x a =? 0) eqn:Ea; try reflexivity.
  exfalso.
  apply Z.eqb_eq in Ey, Ea.
  pose proof (cc_sym _ consistent x a Ea) as Hax.
  pose proof (cc_eq_trans _ consistent a x y Hax Ey). lia.
Qed.

(** The sort is stable: the entries of one equivalence class of the
    comparator keep their order. *)
Lemma sort_stable (x : A) (l : list A) :
  filter (fun y => cmp x y =? 0) (sort cmp l)
  = filter (fun y => cmp x y =? 0) l.
Proof.
  induction l as [|a l IH]; [reflexivity|].
  simpl sort. rewrite insert_filter_class.
  simpl. rewrite IH. reflexivity.
Qed.

Lemma sorted_stable_eq (l1 l2 : list A) :
  StronglySorted (fun a b => cmp a b <= 0) l1 ->
  StronglySorted (fun a b => cmp a b <= 0) l2 ->
  (forall x, filter (fun y => cmp x y =? 0) l1
             = filter (fun y => cmp x y =? 0) l2) ->
  l1 = l2.
Proof.
  intros S1. revert l2.
  induction S1 as [|a t1 St1 IH Ha]; intros l2 S2 H.
  - destruct l2 as [|b t2]; [reflexivity|].
    specialize (H b). simpl in H.
    rewrite (cc_refl _ consistent b) in H. discriminate.
  - destruct l2 as [|b t2].
    + specialize (H a). simpl in H.
      rewrite (cc_refl _ consistent a) in H. discriminate.
    + inversion S2 as [|? ? St2 Hb]; subst.
      assert (a = b) as ->.
      { pose proof (H a) as Hxa. simpl in Hxa.
        rewrite (cc_refl _ consistent a) in Hxa. change (0 =? 0) with true in Hxa.
        destruct (cmp a b =? 0) eqn:Eab; [congruence|].
        apply Z.eqb_neq in Eab.
        assert (In a t2) as Ia.
        { assert (In a (filter (fun y => cmp a y =? 0) t2)) as I
            by (rewrite <- Hxa; left; reflexivity).
          apply filter_In in I. tauto. }
        pose proof (H b) as Hxb. simpl in Hxb.
        rewrite (cc_refl _ consistent b) in Hxb. change (0 =? 0) with true in Hxb.
        destruct (cmp b a =? 0) eqn:Eba.
        { apply Z.eqb_eq in Eba.
          pose proof (cc_sym _ consistent b a Eba). lia. }
        assert (In b t1) as Ib.
        { assert (In b (filter (fun y => cmp b y =? 0) t1)) as I
            by (rewrite Hxb; left; reflexivity).
          apply filter_In in I. tauto. }
        rewrite Forall_forall in Ha, Hb.
        pose proof (Ha b Ib). pose proof (Hb a Ia).
        assert (cmp a b < 0) as Hlt by lia.
        pose proof (cc_lt_gt a b Hlt). lia. }
      f_equal. apply IH; [assumption|].
      intros x. specialize (H x). simpl in H.
      destruct (cmp x b =? 0); congruence.
Qed.

(** For a consistent comparator the standard determines the result of
    [sort]: every ordered and stable rearrangement of the input is the
    one [sort] computes. *)
Lemma sort_unique (l l' : list A) :
  StronglySorted (fun a b => cmp a b <= 0) l' ->
  (forall x, filter (fun y => cmp x y =? 0) l'
             = filter (fun y => cmp x y =? 0) l) ->
  l' = sort cmp l.
Proof.
  intros S' H'.
  apply sorted_stable_eq; [assumption|apply sort_sorted|].
  intros x. rewrite H', sort_stable. reflexivity.
Qed.
End Consistent.

(** Ways to build consistent comparators. *)
Section Build.
Context {A B : Type}.

Lemma cc_ext (cmp cmp' : A -> A -> Z) :
  (forall a b, cmp' a b = cmp a b) ->
  ConsistentComparator cmp -> ConsistentComparator cmp'.
Proof.
  intros E [R S ET LT GT].
  constructor; intros *; rewrite !E; eauto.
Qed.

Lemma cc_neg (cmp : A -> A -> Z) :
  ConsistentComparator cmp ->
  ConsistentComparator (fun a b => - cmp a b).
Proof.
  intros [R S ET LT GT].
  constructor.
  - intros a. rewrite R. reflexivity.
  - intros a b H. rewrite S; lia.
  - intros a b c H1 H2. rewrite (ET a b c); lia.
  - intros a b c H1 H2.
    assert (cmp a c > 0) by (apply (GT a b c); lia). lia.
  - intros a b c H1 H2.
    assert (cmp a c < 0) by (apply (LT a b c); lia). lia.
Qed.

Lemma cc_on (f : B -> A) (cmp : A -> A -> Z) :
  ConsistentComparator cmp ->
  ConsistentComparator (fun a b => cmp (f a) (f b)).
Proof.
  intros [R S ET LT GT].
  constructor; intros *; eauto.
Qed.

Lemma cc_sub (f : A -> Z) : ConsistentComparator (fun a b => f a - f b).
Proof. constructor; intros; lia. Qed.

Lemma cc_partition (p : A -> bool) (cmp : A -> A -> Z) :
  ConsistentComparator cmp ->
  ConsistentComparator
    (fun a b => if p a && negb (p b) then -1
                else if negb (p a) && p b then 1
                else cmp a b).
Proof.
  intros [R S ET LT GT].
  constructor.
  - intros a. destruct (p a); simpl; apply R.
  - intros a b. destruct (p a), (p b); simpl; try lia; apply S.
  - intros a b c.
    destruct (p a), (p b), (p c); simpl; try lia; apply ET.
  - intros a b c.
    destruct (p a), (p b), (p c); simpl; try lia; apply LT.
  - intros a b c.
    destruct (p a), (p b), (p c); simpl; try lia; apply GT.
Qed.
End Build.

(** A comparator that puts every element satisfying [p] before every
    other one: the sorted list is a block of [p]-elements followed by a
    block of the others. *)
Section Partition.
Context {A : Type}.
Variable cmp : A -> A -> Z.
Variable p : A -> bool.
Hypothesis p_first : forall a b, p a = true -> p b = false -> cmp a b < 0.
Hypothesis p_last : forall a b, p a = false -> p b = true -> cmp a b > 0.

Lemma insert_into_blocks_true (x : A) (ds fs : list A) :
  p x = true ->
  Forall (fun y => p y = false) fs ->
  exists ds1 ds2,
    ds = ds1 ++ ds2 /\ insert cmp x (ds ++ fs) = ds1 ++ x :: ds2 ++ fs.
Proof.
  intros Hx Hfs.
  induction ds as [|d ds IH]; simpl.
  - exists [], []. split; [reflexivity|].
    destruct fs as [|f fs]; [reflexivity|].
    simpl. inversion Hfs; subst.
    pose proof (p_first x f Hx ltac:(assumption)).
    destruct (Z.leb_spec (cmp x f) 0); [reflexivity|lia].
  - destruct (cmp x d <=? 0).
    + exists [], (d :: ds). split; reflexivity.
    + destruct IH as (ds1 & ds2 & -> & E).
      exists (d :: ds1), ds2. split; [reflexivity|].
      simpl. rewrite E. reflexivity.
Qed.

Lemma insert_into_blocks_false (x : A) (ds fs : list A) :
  p x = false ->
  Forall (fun y => p y = true) ds ->
  insert cmp x (ds ++ fs) = ds ++ insert cmp x fs.
Proof.
  intros Hx Hds.
  induction Hds as [|d ds Hd Hds IH]; [reflexivity|].
  simpl.
  pose proof (p_last x d Hx Hd).
  destruct (Z.leb_spec (cmp x d) 0); [lia|].
  rewrite IH. reflexivity.
Qed.

Lemma sort_blocks (l : list A) :
  exists ds fs,
    sort cmp l = ds ++ fs
    /\ Forall (fun y => p y = true) ds
    /\ Forall (fun y => p y = false) fs.
Proof.
  induction l as [|x l (ds & fs & E & Hds & Hfs)]; simpl.
  - exists [], []. repeat split; constructor.
  - rewrite E. destruct (p x) eqn:Hx.
    + destruct (insert_into_blocks_true x ds fs Hx Hfs)
        as (ds1 & ds2 & -> & E').
      exists (ds1 ++ x :: ds2), fs.
      rewrite E', <- app_assoc. repeat split; try assumption.
      apply Forall_app in Hds. destruct Hds as [H1 H2].
      apply Forall_app. split; [assumption|].
      constructor; assumption.
    + exists ds, (insert cmp x fs).
      rewrite (insert_into_blocks_false x ds fs Hx Hds).
      repeat split; try assumption.
      apply insert_Forall; assumption.
Qed.

Lemma sort_p_before (l : list A) (i j : nat) (a b : A) :
  nth_error (sort cmp l) i = Some a ->
  nth_error (sort cmp l) j = Some b ->
  p a = true -> p b = false ->
  (i < j)%nat.
Proof.
  destruct (sort_blocks l) as (ds & fs & -> & Hds & Hfs).
  intros Hi Hj Ha Hb.
  assert (i < List.length ds)%nat as Hi'.
  { destruct (Nat.lt_ge_cases i (List.length ds)) as [|Hge]; [assumption|].
    rewrite nth_error_app2 in Hi by assumption.
    apply nth_error_In in Hi.
    rewrite Forall_forall in Hfs. rewrite (Hfs a Hi) in Ha. discriminate. }
  assert (List.length ds <= j)%nat as Hj'.
  { destruct (Nat.lt_ge_cases j (List.length ds)) as [Hlt|]; [|assumption].
    rewrite nth_error_app1 in Hj by assumption.
    apply nth_error_In in Hj.
    rewrite Forall_forall in Hds. rewrite (Hds b Hj) in Hb. discriminate. }
  lia.
Qed.
End Partition.

End JsArrayFacts.

(** ** The listing presenter *)

Module DirectoryListingFacts.
Import DirectoryEntry DirectoryListing JsArray.

Lemma codeUnitCompare_consistent : ConsistentComparator codeUnitCompare.
Proof.
  assert (Hlt : forall a b, codeUnitCompare a b < 0 <-> String_as_OT.lt a b).
  { intros a b. unfold codeUnitCompare.
    rewrite <- String_as_OT.cmp_lt. unfold String_as_OT.cmp.
    destruct (String.compare a b); split; intros; (lia || congruence). }
  assert (Heq : forall a b, codeUnitCompare a b = 0 <-> a = b).
  { intros a b. unfold codeUnitCompare.
    rewrite <- String_as_OT.cmp_eq. unfold String_as_OT.cmp.
    destruct (String.compare a b); split; intros; (lia || congruence). }
  assert (Hgt : forall a b, codeUnitCompare a b > 0 <-> String_as_OT.lt b a).
  { intros a b. rewrite <- Hlt. unfold codeUnitCompare.
    rewrite (String.compare_antisym b a).
    destruct (String.compare a b); simpl; lia. }
  constructor.
  - intros a. apply Heq. reflexivity.
  - intros a b H. apply Heq. apply Heq in H. congruence.
  - intros a b c H1 H2. apply Heq. apply Heq in H1, H2. congruence.
  - intros a b c H1 H2. apply Hlt. apply Hlt in H1, H2.
    eapply String_as_OT.lt_trans; eassumption.
  - intros a b c H1 H2. apply Hgt. apply Hgt in H1, H2.
    eapply String_as_OT.lt_trans; eassumption.
Qed.

Section Facts.
Variable localeCompare : string -> string -> Z.

Lemma comparator_dir_file sortColumn sortOrder (a b : DirectoryEntry.t) :
  isDirectory a = true -> isDirectory b = false ->
  comparator localeCompare sortColumn sortOrder a b < 0.
Proof. intros Ha Hb. unfold comparator. rewrite Ha, Hb. simpl. lia. Qed.

Lemma comparator_file_dir sortColumn sortOrder (a b : DirectoryEntry.t) :
  isDirectory a = false -> isDirectory b = true ->
  comparator localeCompare sortColumn sortOrder a b > 0.
Proof. intros Ha Hb. unfold comparator. rewrite Ha, Hb. simpl. lia. Qed.

Hypothesis consistent : ConsistentComparator localeCompare.

(** With a consistent collation, the comparator of the listing is
    consistent, for every column and order. *)
Lemma comparator_consistent sortColumn sortOrder :
  ConsistentComparator (comparator localeCompare sortColumn sortOrder).
Proof.
  pose (key := fun a b : DirectoryEntry.t =>
    match sortColumn with
    | name_col => localeCompare (name a) (name b)
    | date_col => localeCompare (date a) (date b)
    | size_col => size a - size b
    | description_col => localeCompare (description a) (description b)
    end).
  assert (Hkey : ConsistentComparator key).
  { unfold key. destruct sortColumn.
    - apply (JsArrayFacts.cc_on name), consistent.
    - apply (JsArrayFacts.cc_on date), consistent.
    - apply (JsArrayFacts.cc_sub size).
    - apply (JsArrayFacts.cc_on description), consistent. }
  destruct sortOrder.
  - apply (JsArrayFacts.cc_ext
             (fun a b => if isDirectory a && negb (isDirectory b) then -1
                         else if negb (isDirectory a) && isDirectory b then 1
                         else key a b)).
    + intros a b. reflexivity.
    + apply JsArrayFacts.cc_partition, Hkey.
  - apply (JsArrayFacts.cc_ext
             (fun a b => if isDirectory a && negb (isDirectory b) then -1
                         else if negb (isDirectory a) && isDirectory b then 1
                         else - key a b)).
    + intros a b. reflexivity.
    + apply JsArrayFacts.cc_partition, JsArrayFacts.cc_neg, Hkey.
Qed.
End Facts.

Lemma mobile_comparator_dir_file localeCompare sortColumn sortOrder
      (a b : DirectoryEntry.t) :
  isDirectory a = true -> isDirectory b = false ->
  DirectoryListingMobile.comparator localeCompare sortColumn sortOrder a b < 0.
Proof.
  intros Ha Hb. unfold DirectoryListingMobile.comparator.
  rewrite Ha, Hb. simpl. lia.
Qed.

Lemma mobile_comparator_file_dir localeCompare sortColumn sortOrder
      (a b : DirectoryEntry.t) :
  isDirectory a = false -> isDirectory b = true ->
  DirectoryListingMobile.comparator localeCompare sortColumn sortOrder a b > 0.
Proof.
  intros Ha Hb. unfold DirectoryListingMobile.comparator.
  rewrite Ha, Hb. simpl. lia.
Qed.

(** C1.  In the sorted listing every directory entry stands before every
    file entry, whatever the collation, the sort column and the order: an
    entry with [isDirectory = true] at position [i] and one with
    [isDirectory = false] at position [j] have [i < j].  This holds for
    the comparator with the four columns and for the variant without the
    size column. *)
Theorem sorted_directories_before_files
        (localeCompare : string -> string -> Z) (sortOrder : SortOrder)
        (entries : list DirectoryEntry.t) (i j : nat)
        (a b : DirectoryEntry.t) :
  (forall sortColumn : SortColumn,
      nth_error (sorted localeCompare sortColumn sortOrder entries) i = Some a ->
      nth_error (sorted localeCompare sortColumn sortOrder entries) j = Some b ->
      isDirectory a = true -> isDirectory b = false ->
      (i < j)%nat)
  /\ (forall sortColumn : DirectoryListingMobile.SortColumn,
      nth_error (DirectoryListingMobile.sorted
                   localeCompare sortColumn sortOrder entries) i = Some a ->
      nth_error (DirectoryListingMobile.sorted
                   localeCompare sortColumn sortOrder entries) j = Some b ->
      isDirectory a = true -> isDirectory b = false ->
      (i < j)%nat).
Proof.
  split; intros sortColumn.
  - apply (JsArrayFacts.sort_p_before
             (comparator localeCompare sortColumn sortOrder) isDirectory).
    + apply comparator_dir_file.
    + apply comparator_file_dir.
  - apply (JsArrayFacts.sort_p_before
             (DirectoryListingMobile.comparator
                localeCompare sortColumn sortOrder) isDirectory).
    + apply mobile_comparator_dir_file.
    + apply mobile_comparator_file_dir.
Qed.

(** Sorted by date, newest first, the subdirectory still comes first. *)
Lemma sorted_directories_before_files_witness :
  sorted codeUnitCompare date_col desc [hello_entry; archives_entry]
  = [archives_entry; hello_entry]
  /\ (0 < 1)%nat.
Proof.
  split; [reflexivity|].
  exact (proj1 (sorted_directories_before_files
                  codeUnitCompare desc [hello_entry; archives_entry] 0 1
                  archives_entry hello_entry)
               date_col eq_refl eq_refl eq_refl eq_refl).
Defined.

(** C4.  The sort of the listing is stable: for a consistent collation,
    every column and every order, the entries that compare equal to a given
    entry [x] (they lie in the partition of [x]) come out in the order in
    which they came in. *)
Theorem sorted_stable
        (localeCompare : string -> string -> Z)
        (consistent : ConsistentComparator localeCompare)
        (sortColumn : SortColumn) (sortOrder : SortOrder)
        (entries : list DirectoryEntry.t) (x : DirectoryEntry.t) :
  filter (fun y => comparator localeCompare sortColumn sortOrder x y =? 0)
         (sorted localeCompare sortColumn sortOrder entries)
  = filter (fun y => comparator localeCompare sortColumn sortOrder x y =? 0)
           entries.
Proof.
  apply JsArrayFacts.sort_stable.
  apply comparator_consistent, consistent.
Qed.

(** Two posts of the same size, sorted by size: they keep their order, in
    ascending and in descending order. *)
Lemma sorted_stable_witness :
  ConsistentComparator codeUnitCompare
  /\ filter (fun y => comparator codeUnitCompare size_col desc hello_entry y =? 0)
            (sorted codeUnitCompare size_col desc
                    [notes_entry; archives_entry; hello_entry])
     = [notes_entry; hello_entry].
Proof.
  split; [exact codeUnitCompare_consistent|].
  rewrite (sorted_stable codeUnitCompare codeUnitCompare_consistent
                         size_col desc
                         [notes_entry; archives_entry; hello_entry]
                         hello_entry).
  reflexivity.
Defined.

End DirectoryListingFacts.

(** ** Numbers and their decimal notation *)

Module JsNumberFacts.
Import JsNumber.

Lemma append_assoc (a b c : string) : (a +:+ b) +:+ c = a +:+ b +:+ c.
Proof. induction a as [|x a IH]; simpl; [reflexivity|]. rewrite IH. reflexivity. Qed.

Lemma append_nil_r (a : string) : a +:+ "" = a.
Proof. induction a as [|x a IH]; simpl; [reflexivity|]. rewrite IH. reflexivity. Qed.

Lemma length_append (a b : string) :
  String.length (a +:+ b) = (String.length a + String.length b)%nat.
Proof. induction a as [|x a IH]; simpl; [reflexivity|]. rewrite IH. reflexivity. Qed.

Lemma substring_all (a : string) : substring 0 (String.length a) a = a.
Proof. induction a as [|x a IH]; simpl; [reflexivity|]. rewrite IH. reflexivity. Qed.

Lemma substring_append_l (a b : string) :
  substring 0 (String.length a) (a +:+ b) = a.
Proof.
  induction a as [|x a IH]; simpl.
  - destruct b; reflexivity.
  - rewrite IH. reflexivity.
Qed.

Lemma substring_append_r (a b : string) (n : nat) :
  substring (String.length a) n (a +:+ b) = substring 0 n b.
Proof. induction a as [|x a IH]; simpl; [reflexivity|]. exact IH. Qed.

Lemma decimal_aux_S (f : nat) (n : Z) :
  decimal_aux (S f) n
  = if n <? 10 then digit n else decimal_aux f (n / 10) +:+ digit (n mod 10).
Proof. reflexivity. Qed.

Lemma decimal_aux_fuel (f1 : nat) :
  forall (f2 : nat) (n : Z),
    0 <= n < 10 ^ Z.of_nat (S f1) -> n < 10 ^ Z.of_nat (S f2) ->
    decimal_aux (S f1) n = decimal_aux (S f2) n.
Proof.
  induction f1 as [|f1 IH]; intros f2 n H1 H2.
  - change (10 ^ Z.of_nat 1) with 10 in H1.
    cbn [decimal_aux]. destruct (Z.ltb_spec n 10); [reflexivity|lia].
  - rewrite (decimal_aux_S (S f1)), (decimal_aux_S f2).
    destruct (Z.ltb_spec n 10) as [|Hge]; [reflexivity|].
    destruct f2 as [|f2].
    { change (10 ^ Z.of_nat 1) with 10 in H2. lia. }
    f_equal.
    rewrite (Nat2Z.inj_succ (S f1)), Z.pow_succ_r in H1 by lia.
    rewrite (Nat2Z.inj_succ (S f2)), Z.pow_succ_r in H2 by lia.
    apply IH.
    + split; [apply Z.div_pos; lia|].
      apply Z.div_lt_upper_bound; lia.
    + apply Z.div_lt_upper_bound; lia.
Qed.

Lemma lt_pow10_log2 (n : Z) : 0 <= n -> n < 10 ^ Z.of_nat (S (Z.to_nat (Z.log2 n))).
Proof.
  intros Hn.
  rewrite Nat2Z.inj_succ, Z2Nat.id by apply Z.log2_nonneg.
  destruct (Z.eq_dec n 0) as [->|Hne].
  - change (Z.log2 0) with 0. change (10 ^ Z.succ 0) with 10. lia.
  - apply Z.lt_le_trans with (2 ^ Z.succ (Z.log2 n)).
    + apply Z.log2_spec. lia.
    + apply Z.pow_le_mono_l. lia.
Qed.

Lemma decimal_fuel (f : nat) (n : Z) :
  0 <= n < 10 ^ Z.of_nat (S f) -> decimal n = decimal_aux (S f) n.
Proof.
  intros H. unfold decimal.
  apply decimal_aux_fuel; [|lia].
  split; [lia|]. apply lt_pow10_log2. lia.
Qed.

Lemma decimal_small (n : Z) : 0 <= n < 10 -> decimal n = digit n.
Proof.
  intros H. rewrite (decimal_fuel 0) by (change (10 ^ Z.of_nat 1) with 10; lia).
  cbn [decimal_aux]. destruct (Z.ltb_spec n 10); [reflexivity|lia].
Qed.

(** The digits of [n] are those of [n / 10] followed by the last digit. *)
Lemma decimal_step (n : Z) :
  10 <= n -> decimal n = decimal (n / 10) +:+ digit (n mod 10).
Proof.
  intros H.
  assert (Hb : n < 10 ^ Z.of_nat (S (Z.to_nat (Z.log2 n))))
    by (apply lt_pow10_log2; lia).
  set (f := Z.to_nat (Z.log2 n)) in *.
  rewrite (decimal_fuel f n) by lia.
  destruct f as [|f].
  { change (10 ^ Z.of_nat 1) with 10 in Hb. lia. }
  rewrite (decimal_aux_S (S f)).
  destruct (Z.ltb_spec n 10); [lia|].
  f_equal. symmetry. apply decimal_fuel.
  rewrite (Nat2Z.inj_succ (S f)), Z.pow_succ_r in Hb by lia.
  split; [apply Z.div_pos; lia|].
  apply Z.div_lt_upper_bound; lia.
Qed.

Lemma value_acc_append (a b : string) (acc : Z) :
  value_acc acc (a +:+ b) = value_acc (value_acc acc a) b.
Proof.
  revert acc. induction a as [|x a IH]; intros acc; simpl; [reflexivity|].
  apply IH.
Qed.

Lemma value_acc_digit (acc d : Z) :
  0 <= d < 10 -> value_acc acc (digit d) = 10 * acc + d.
Proof.
  intros H. unfold digit. cbn [value_acc].
  rewrite nat_ascii_embedding by lia. lia.
Qed.

Lemma value_decimal_aux (f : nat) :
  forall n, 0 <= n < 10 ^ Z.of_nat (S f) -> value (decimal_aux (S f) n) = n.
Proof.
  unfold value.
  induction f as [|f IH]; intros n H.
  - change (10 ^ Z.of_nat 1) with 10 in H. cbn [decimal_aux].
    destruct (Z.ltb_spec n 10); [|lia].
    rewrite value_acc_digit; lia.
  - rewrite (decimal_aux_S (S f)).
    destruct (Z.ltb_spec n 10).
    + rewrite value_acc_digit; lia.
    + rewrite value_acc_append, IH, value_acc_digit.
      * pose proof (Z.div_mod n 10). lia.
      * apply Z.mod_pos_bound. lia.
      * rewrite (Nat2Z.inj_succ (S f)), Z.pow_succ_r in H by lia.
        split; [apply Z.div_pos; lia|].
        apply Z.div_lt_upper_bound; lia.
Qed.

(** [decimal n] denotes [n]. *)
Lemma value_decimal (n : Z) : 0 <= n -> value (decimal n) = n.
Proof.
  intros H. unfold decimal. apply value_decimal_aux.
  split; [lia|]. apply lt_pow10_log2. lia.
Qed.

Lemma length_digit (d : Z) : String.length (digit d) = 1%nat.
Proof. reflexivity. Qed.

Lemma length_decimal_pos (n : Z) : (1 <= String.length (decimal n))%nat.
Proof.
  unfold decimal. rewrite decimal_aux_S.
  destruct (n <? 10); [rewrite length_digit; lia|].
  rewrite length_append, length_digit. lia.
Qed.

(** [toFixed(0)]: the nearest integer. *)
Lemma toFixed_0 (num den : Z) :
  0 <= num -> toFixed num den 0 = decimal ((2 * num + den) / (2 * den)).
Proof.
  intros H. unfold toFixed.
  destruct (Z.ltb_spec num 0); [lia|].
  rewrite Z.abs_eq by lia.
  change (10 ^ Z.of_nat 0) with 1. rewrite Z.mul_1_r. reflexivity.
Qed.

(** [toFixed(1)] of a number that rounds to at least one: the integer part,
    a point, and one digit. *)
Lemma toFixed_1 (num den : Z) :
  0 <= num -> 10 <= (20 * num + den) / (2 * den) ->
  toFixed num den 1
  = decimal ((20 * num + den) / (2 * den) / 10) +:+ "."
    +:+ decimal ((20 * num + den) / (2 * den) mod 10).
Proof.
  intros H Hn. unfold toFixed.
  destruct (Z.ltb_spec num 0); [lia|].
  rewrite Z.abs_eq by lia.
  change (10 ^ Z.of_nat 1) with 10.
  replace (2 * num * 10) with (20 * num) by lia.
  set (n := (20 * num + den) / (2 * den)) in *.
  cbn [Nat.eqb Nat.add].
  rewrite (decimal_step n) by lia.
  rewrite (decimal_small (n mod 10)) by (apply Z.mod_pos_bound; lia).
  unfold padStart0.
  pose proof (length_decimal_pos (n / 10)) as Hlen.
  assert (Hl : String.length (decimal (n / 10) +:+ digit (n mod 10))
               = S (String.length (decimal (n / 10))))
    by (rewrite length_append, length_digit; lia).
  rewrite Hl.
  replace (2 - S (String.length (decimal (n / 10))))%nat with 0%nat by lia.
  cbn [zeros String.append].
  rewrite Hl.
  replace (S (String.length (decimal (n / 10))) - 1)%nat
    with (String.length (decimal (n / 10))) by lia.
  rewrite substring_append_l, substring_append_r.
  reflexivity.
Qed.

End JsNumberFacts.

(** ** [formatSize] *)

Module SharedFacts.
Import JsNumber JsNumberFacts.

Lemma formatSize_bytes (b : Z) : 0 <= b < 1024 -> formatSize b = decimal b.
Proof.
  intros H. unfold formatSize.
  destruct (Z.eqb_spec b 0) as [->|Hne]; [reflexivity|].
  destruct (Z.ltb_spec b 1024); [|lia].
  unfold toString. destruct (Z.ltb_spec b 0); [lia|reflexivity].
Qed.

Lemma formatSize_K (b : Z) :
  1024 <= b < 1024 * 1024 ->
  exists n,
    formatSize b = decimal (n / 10) +:+ "." +:+ decimal (n mod 10) +:+ "K"
    /\ 2 * Z.abs (1024 * n - 10 * b) <= 1024.
Proof.
  intros H. exists ((20 * b + 1024) / (2 * 1024)). split.
  - unfold formatSize.
    destruct (Z.eqb_spec b 0); [lia|].
    destruct (Z.ltb_spec b 1024); [lia|].
    destruct (Z.ltb_spec b (1024 * 1024)); [|lia].
    rewrite toFixed_1.
    + rewrite !append_assoc. reflexivity.
    + lia.
    + apply Z.div_le_lower_bound; lia.
  - pose proof (Z.div_mod (20 * b + 1024) (2 * 1024) ltac:(lia)).
    pose proof (Z.mod_pos_bound (20 * b + 1024) (2 * 1024) ltac:(lia)).
    lia.
Qed.

Lemma formatSize_M (b : Z) :
  1024 * 1024 <= b < 1024 * 1024 * 1024 ->
  exists n,
    formatSize b = decimal n +:+ "M"
    /\ 2 * Z.abs (1024 * 1024 * n - b) <= 1024 * 1024.
Proof.
  intros H. exists ((2 * b + 1024 * 1024) / (2 * (1024 * 1024))). split.
  - unfold formatSize.
    destruct (Z.eqb_spec b 0); [lia|].
    destruct (Z.ltb_spec b 1024); [lia|].
    destruct (Z.ltb_spec b (1024 * 1024)); [lia|].
    destruct (Z.ltb_spec b (1024 * 1024 * 1024)); [|lia].
    rewrite toFixed_0 by lia. reflexivity.
  - pose proof (Z.div_mod (2 * b + 1024 * 1024) (2 * (1024 * 1024)) ltac:(lia)).
    pose proof (Z.mod_pos_bound (2 * b + 1024 * 1024) (2 * (1024 * 1024))
                                ltac:(lia)).
    lia.
Qed.

Lemma formatSize_G (b : Z) :
  1024 * 1024 * 1024 <= b ->
  exists n,
    formatSize b = decimal n +:+ "G"
    /\ 2 * Z.abs (1024 * 1024 * 1024 * n - b) <= 1024 * 1024 * 1024.
Proof.
  intros H.
  exists ((2 * b + 1024 * 1024 * 1024) / (2 * (1024 * 1024 * 1024))). split.
  - unfold formatSize.
    destruct (Z.eqb_spec b 0); [lia|].
    destruct (Z.ltb_spec b 1024); [lia|].
    destruct (Z.ltb_spec b (1024 * 1024)); [lia|].
    destruct (Z.ltb_spec b (1024 * 1024 * 1024)); [lia|].
    rewrite toFixed_0 by lia. reflexivity.
  - pose proof (Z.div_mod (2 * b + 1024 * 1024 * 1024)
                          (2 * (1024 * 1024 * 1024)) ltac:(lia)).
    pose proof (Z.mod_pos_bound (2 * b + 1024 * 1024 * 1024)
                                (2 * (1024 * 1024 * 1024)) ltac:(lia)).
    lia.
Qed.

(** C5.  [formatSize] on a byte count [b] (an integer from 0 to
    [Number.MAX_SAFE_INTEGER]): ["0"] for 0; below 1024 the decimal notation
    of [b]; below 1 MiB the number [n / 10] of kibibytes nearest to
    [b / 1024], written with one decimal and the suffix K; below 1 GiB the
    integer [n] nearest to [b / 2^20] with the suffix M; from 1 GiB on the
    integer [n] nearest to [b / 2^30] with the suffix G.  The four sample
    values of the specification follow. *)
Theorem formatSize_spec :
  formatSize 0 = "0"
  /\ (forall b, 0 <= b < 1024 ->
        formatSize b = decimal b /\ value (formatSize b) = b)
  /\ (forall b, 1024 <= b < 1024 * 1024 ->
        exists n,
          formatSize b = decimal (n / 10) +:+ "." +:+ decimal (n mod 10) +:+ "K"
          /\ 2 * Z.abs (1024 * n - 10 * b) <= 1024)
  /\ (forall b, 1024 * 1024 <= b < 1024 * 1024 * 1024 ->
        exists n,
          formatSize b = decimal n +:+ "M"
          /\ 2 * Z.abs (1024 * 1024 * n - b) <= 1024 * 1024)
  /\ (forall b, 1024 * 1024 * 1024 <= b <= 9007199254740991 ->
        exists n,
          formatSize b = decimal n +:+ "G"
          /\ 2 * Z.abs (1024 * 1024 * 1024 * n - b) <= 1024 * 1024 * 1024)
  /\ formatSize 500 = "500"
  /\ formatSize 2048 = "2.0K"
  /\ formatSize 5242880 = "5M"
  /\ formatSize 3221225472 = "3G".
Proof.
  split; [reflexivity|].
  split.
  { intros b H. rewrite formatSize_bytes by assumption.
    split; [reflexivity|]. apply value_decimal. lia. }
  split; [exact formatSize_K|].
  split; [exact formatSize_M|].
  split; [intros b H; apply formatSize_G; lia|].
  repeat split; vm_compute; reflexivity.
Qed.

(** 1536 bytes are one and a half kibibytes, 2^31 bytes two gibibytes. *)
Lemma formatSize_spec_witness :
  (exists n, formatSize 1536
             = decimal (n / 10) +:+ "." +:+ decimal (n mod 10) +:+ "K"
             /\ 2 * Z.abs (1024 * n - 10 * 1536) <= 1024)
  /\ (exists n, formatSize 2147483648 = decimal n +:+ "G"
                /\ 2 * Z.abs (1024 * 1024 * 1024 * n - 2147483648)
                   <= 1024 * 1024 * 1024)
  /\ formatSize 1023 = decimal 1023.
Proof.
  split; [|split].
  - apply (proj1 (proj2 (proj2 formatSize_spec)) 1536). lia.
  - apply (proj1 (proj2 (proj2 (proj2 (proj2 formatSize_spec)))) 2147483648).
    lia.
  - apply (proj1 (proj2 formatSize_spec) 1023). lia.
Defined.

End SharedFacts.

(** ** The file system *)

Module FsFacts.
Import Fs.

Lemma resolve_app (root : node) (p q : list string) :
  resolve root (p ++ q)
  = match resolve root p with
    | Some n => resolve n q
    | None => None
    end.
Proof.
  revert root. induction p as [|item p IH]; intros root; simpl.
  - reflexivity.
  - destruct root as [raw mt|items]; [reflexivity|].
    destruct (child items item); [apply IH|reflexivity].
Qed.

Lemma add_suffix_snoc (q : list string) (base ext : string) :
  Path.add_suffix (q ++ [base]) ext = q ++ [base +:+ ext].
Proof.
  induction q as [|x q IH]; [reflexivity|].
  simpl. rewrite IH. destruct q; reflexivity.
Qed.

Lemma basename_snoc (q : list string) (base : string) :
  Path.basename (q ++ [base]) = base.
Proof. unfold Path.basename. apply last_last. Qed.

Lemma child_In (items : list (string * node)) (item : string) (c : node) :
  child items item = Some c -> In (item, c) items.
Proof.
  induction items as [|[n c'] items IH]; simpl; [discriminate|].
  destruct (String.eqb_spec n item) as [->|_].
  - intros H. injection H as ->. left. reflexivity.
  - intros H. right. apply IH, H.
Qed.

(** In a directory without two entries of one name, [child] finds every
    entry. *)
Lemma In_child (items : list (string * node)) (item : string) (c : node) :
  NoDup (map fst items) -> In (item, c) items -> child items item = Some c.
Proof.
  induction items as [|[n c'] items IH]; simpl; [contradiction|].
  intros Hnd [H|H].
  - injection H as -> ->. rewrite String.eqb_refl. reflexivity.
  - inversion Hnd as [|? ? Hnotin Hnd']; subst.
    destruct (String.eqb_spec n item) as [->|_].
    + exfalso. apply Hnotin.
      change item with (fst (item, c)). apply in_map, H.
    + apply IH; assumption.
Qed.

Lemma wf_Dir (items : list (string * node)) :
  wf (Dir items)
  <-> NoDup (map fst items) /\ forall item c, In (item, c) items -> wf c.
Proof.
  simpl. apply and_iff_compat_l.
  induction items as [|[n c'] items IH]; simpl.
  - split; [intros _ item c []|auto].
  - rewrite IH. split.
    + intros [Hc Hrest] item c [H|H]; [injection H as _ <-; exact Hc|eauto].
    + intros H. split; [apply (H n); left; reflexivity|].
      intros item c Hin. apply (H item). right. exact Hin.
Qed.

Lemma wf_resolve (p : list string) :
  forall root n, wf root -> resolve root p = Some n -> wf n.
Proof.
  induction p as [|item p IH]; intros root n Hwf H; simpl in H.
  - injection H as <-. exact Hwf.
  - destruct root as [raw mt|items]; [discriminate|].
    destruct (child items item) as [c|] eqn:Hc; [|discriminate].
    apply (IH c n); [|exact H].
    apply wf_Dir in Hwf. destruct Hwf as [_ Hwf].
    apply (Hwf item). apply child_In, Hc.
Qed.

Lemma resolve_snoc_Dir (root : node) (p : list string)
      (items : list (string * node)) (item : string) :
  resolve root p = Some (Dir items) ->
  resolve root (p ++ [item]) = child items item.
Proof.
  intros H. rewrite resolve_app, H. simpl.
  destruct (child items item); reflexivity.
Qed.

Lemma height_child (items : list (string * node)) (item : string) (c : node) :
  In (item, c) items -> (height c < height (Dir items))%nat.
Proof.
  simpl. induction items as [|[n c'] items IH]; simpl; [contradiction|].
  intros [H|H].
  - injection H as _ ->. lia.
  - specialize (IH H). lia.
Qed.

(** Induction on the content tree: a property of the entries of a directory
    gives it for the directory. *)
Lemma node_induction (P : node -> Prop) :
  (forall raw mtimeMs, P (File raw mtimeMs)) ->
  (forall items, (forall item c, In (item, c) items -> P c) -> P (Dir items)) ->
  forall n, P n.
Proof.
  intros HF HD.
  assert (H : forall k n, (height n <= k)%nat -> P n).
  { induction k as [|k IH]; intros [raw mt|items] Hk.
    - apply HF.
    - simpl in Hk. lia.
    - apply HF.
    - apply HD. intros item c Hin. apply IH.
      pose proof (height_child items item c Hin). lia. }
  intros n. apply (H (height n)). lia.
Qed.

Lemma resolve_File_cons (raw : string) (mt : Z) (item : string)
      (q : list string) :
  resolve (File raw mt) (item :: q) = None.
Proof. reflexivity. Qed.

Lemma resolve_Dir_cons (items : list (string * node)) (item : string)
      (q : list string) :
  resolve (Dir items) (item :: q)
  = match child items item with
    | Some c => resolve c q
    | None => None
    end.
Proof. reflexivity. Qed.

End FsFacts.

(** ** The monad of results *)

Lemma bind_Ok_inv {A B : Type} (r : result A) (k : A -> result B) (b : B) :
  bind r k = Ok b -> exists a, r = Ok a /\ k a = Ok b.
Proof. destruct r as [a|e]; simpl; [eauto|discriminate]. Qed.

(** A property of the accumulator that every round of a loop keeps holds
    when the loop is over. *)
Lemma for_of_invariant {A B : Type} (P : B -> Prop) (xs : list A)
      (body : B -> A -> result B) :
  (forall acc x acc', In x xs -> P acc -> body acc x = Ok acc' -> P acc') ->
  forall acc r, P acc -> for_of xs acc body = Ok r -> P r.
Proof.
  induction xs as [|x xs IH]; intros Hbody acc r Hacc H; simpl in H.
  - congruence.
  - apply bind_Ok_inv in H. destruct H as (acc' & Hx & H).
    apply (IH (fun acc0 x0 acc0' Hin => Hbody acc0 x0 acc0' (or_intror Hin))
              acc' r); [|assumption].
    apply (Hbody acc x acc'); [left; reflexivity|assumption|assumption].
Qed.

(** ** Strings and [path.extname] *)

Module PathFacts.
Import Path JsString JsNumberFacts.

Lemma substring_split (s : string) :
  forall k, (k <= String.length s)%nat ->
            s = substring 0 k s +:+ substring k (String.length s - k) s.
Proof.
  induction s as [|c s IH]; intros k Hk.
  - destruct k; [reflexivity|simpl in Hk; lia].
  - destruct k as [|k].
    + simpl. rewrite substring_all. reflexivity.
    + simpl in Hk. simpl. f_equal. apply IH. lia.
Qed.

Lemma endsWith_inv (s suffix : string) :
  endsWith s suffix = true -> exists stem, s = stem +:+ suffix.
Proof.
  unfold endsWith. intros H.
  apply andb_true_iff in H. destruct H as [Hlen Heq].
  apply Nat.leb_le in Hlen. apply String.eqb_eq in Heq.
  exists (substring 0 (String.length s - String.length suffix) s).
  pose proof (substring_split s (String.length s - String.length suffix)
                              ltac:(lia)) as E.
  replace (String.length s - (String.length s - String.length suffix))%nat
    with (String.length suffix) in E by lia.
  rewrite Heq in E. exact E.
Qed.

Lemma endsWith_append (stem suffix : string) :
  endsWith (stem +:+ suffix) suffix = true.
Proof.
  unfold endsWith. rewrite length_append.
  apply andb_true_iff. split; [apply Nat.leb_le; lia|].
  replace (String.length stem + String.length suffix - String.length suffix)%nat
    with (String.length stem) by lia.
  rewrite substring_append_r, substring_all. apply String.eqb_refl.
Qed.

Lemma list_ascii_of_string_append (a b : string) :
  list_ascii_of_string (a +:+ b)
  = list_ascii_of_string a ++ list_ascii_of_string b.
Proof. induction a as [|c a IH]; simpl; [reflexivity|]. rewrite IH. reflexivity. Qed.

(** Past the dot of the extension, the loop meets the characters of the
    stem: it leaves [startDot], [startPart] and [end] alone, and
    [preDotState] is no longer 0 after the first of them. *)
Lemma extname_loop_stem (codes : list ascii) :
  forall (i : Z) (st : extname_state),
    ~ In "/"%char codes ->
    startDot st <> -1 -> end_ st <> -1 ->
    (codes <> [] \/ preDotState st <> 0) ->
    let st' := extname_loop codes i st in
    startDot st' = startDot st /\ startPart st' = startPart st
    /\ end_ st' = end_ st /\ preDotState st' <> 0.
Proof.
  induction codes as [|code rest IH]; intros i st Hslash Hdot Hend Hpre.
  - simpl. destruct Hpre as [Hpre|Hpre]; [congruence|]. auto.
  - cbn [extname_loop].
    destruct (Ascii.eqb_spec code "/") as [->|Hcode].
    { exfalso. apply Hslash. left. reflexivity. }
    destruct (Z.eqb_spec (end_ st) (-1)) as [|_]; [congruence|].
    assert (Hrest : ~ In "/"%char rest) by (intros Hin; apply Hslash; right; exact Hin).
    destruct (Ascii.eqb code ".").
    + destruct (Z.eqb_spec (startDot st) (-1)) as [|_]; [congruence|].
      destruct (Z.eqb_spec (preDotState st) 1) as [E1|N1]; cbn [negb].
      * destruct (IH (i - 1) st Hrest Hdot Hend
                     ltac:(right; rewrite E1; discriminate))
          as (H1 & H2 & H3 & H4).
        auto.
      * destruct (IH (i - 1)
                     (mkState (startDot st) (startPart st) (end_ st)
                              (matchedSlash st) 1)
                     Hrest Hdot Hend ltac:(right; simpl; discriminate))
          as (H1 & H2 & H3 & H4).
        auto.
    + destruct (Z.eqb_spec (startDot st) (-1)) as [|_]; [congruence|].
      cbn [negb].
      destruct (IH (i - 1)
                   (mkState (startDot st) (startPart st) (end_ st)
                            (matchedSlash st) (-1))
                   Hrest Hdot Hend ltac:(right; simpl; discriminate))
        as (H1 & H2 & H3 & H4).
      auto.
Qed.

Lemma extname_result (p : string) (st : extname_state) (L k : nat) :
  startDot st = Z.of_nat L -> end_ st = Z.of_nat (L + k) -> (2 <= k)%nat ->
  preDotState st <> 0 ->
  (if (startDot st =? -1)
      || (end_ st =? -1)
      || (preDotState st =? 0)
      || ((preDotState st =? 1)
          && (startDot st =? end_ st - 1)
          && (startDot st =? startPart st + 1))
   then ""
   else substring (Z.to_nat (startDot st))
                  (Z.to_nat (end_ st - startDot st)) p)
  = substring L k p.
Proof.
  intros Hs He Hk Hp. rewrite Hs, He.
  destruct (Z.eqb_spec (Z.of_nat L) (-1)); [lia|].
  destruct (Z.eqb_spec (Z.of_nat (L + k)) (-1)); [lia|].
  destruct (Z.eqb_spec (preDotState st) 0); [contradiction|].
  destruct (Z.eqb_spec (Z.of_nat L) (Z.of_nat (L + k) - 1)); [lia|].
  rewrite andb_false_r. simpl.
  rewrite Nat2Z.id. f_equal. lia.
Qed.

(** One round of the loop on a character of the extension, before the dot
    is met. *)
Lemma extname_loop_ext_char (code : ascii) (rest : list ascii) (i e : Z)
      (ms : bool) :
  Ascii.eqb code "/" = false -> Ascii.eqb code "." = false ->
  extname_loop (code :: rest) i (mkState (-1) 0 e ms 0)
  = extname_loop rest (i - 1)
                 (if e =? -1 then mkState (-1) 0 (i + 1) false 0
                  else mkState (-1) 0 e ms 0).
Proof.
  intros Hslash Hdot. cbn [extname_loop]. rewrite Hslash.
  cbn [end_]. destruct (e =? -1); rewrite Hdot; reflexivity.
Qed.

(** The round that meets the dot of the extension. *)
Lemma extname_loop_ext_dot (rest : list ascii) (i e : Z) (ms : bool) :
  e <> -1 ->
  extname_loop ("."%char :: rest) i (mkState (-1) 0 e ms 0)
  = extname_loop rest (i - 1) (mkState i 0 e ms 0).
Proof.
  intros He. cbn [extname_loop]. cbn [Ascii.eqb Bool.eqb andb end_].
  cbv iota. cbn [end_].
  destruct (Z.eqb_spec e (-1)); [contradiction|].
  reflexivity.
Qed.

Lemma extname_suffix (stem : string) (c1 : ascii) (cs : list ascii) :
  stem <> "" -> ~ In "/"%char (list_ascii_of_string stem) ->
  Ascii.eqb c1 "/" = false -> Ascii.eqb c1 "." = false ->
  Forall (fun c => Ascii.eqb c "/" = false /\ Ascii.eqb c "." = false) cs ->
  forall i,
    i = Z.of_nat (String.length stem) + Z.of_nat (List.length cs) + 1 ->
    let st := extname_loop (c1 :: cs ++ "."%char :: rev (list_ascii_of_string stem))
                           i (mkState (-1) 0 (-1) true 0) in
    startDot st = Z.of_nat (String.length stem)
    /\ end_ st = i + 1 /\ preDotState st <> 0.
Proof.
  intros Hstem Hslash H1 H2 Hcs i Hi.
  cbv zeta. rewrite extname_loop_ext_char by assumption.
  change (-1 =? -1) with true. cbv iota.
  assert (Hgen : forall j e,
             e <> -1 ->
             j = Z.of_nat (String.length stem) + Z.of_nat (List.length cs) ->
             let st := extname_loop
                         (cs ++ "."%char :: rev (list_ascii_of_string stem))
                         j (mkState (-1) 0 e false 0) in
             startDot st = Z.of_nat (String.length stem)
             /\ end_ st = e /\ preDotState st <> 0).
  { clear i Hi. induction Hcs as [|c cs [Hc1 Hc2] Hcs IH]; intros j e He Hj.
    - cbn [app]. cbv zeta. rewrite extname_loop_ext_dot by assumption.
      destruct (extname_loop_stem (rev (list_ascii_of_string stem)) (j - 1)
                  (mkState j 0 e false 0)) as (E1 & E2 & E3 & E4).
      + rewrite <- in_rev. exact Hslash.
      + simpl in *. lia.
      + exact He.
      + left. destruct stem; [congruence|]. simpl.
        intros E. apply app_eq_nil in E. destruct E. discriminate.
      + rewrite E1, E3. simpl in *. split; [lia|]. split; [reflexivity|exact E4].
    - cbn [app]. cbv zeta. rewrite extname_loop_ext_char by assumption.
      destruct (Z.eqb_spec e (-1)); [contradiction|].
      apply (IH (j - 1) e He). cbn [List.length] in Hj. lia. }
  destruct (Hgen (i - 1) (i + 1)) as (E1 & E2 & E3); [lia|lia|].
  auto.
Qed.

(** The extension of [stem.mdx] is [.mdx], provided there is a stem. *)
Lemma extname_mdx (stem : string) :
  stem <> "" -> ~ In "/"%char (list_ascii_of_string stem) ->
  extname (stem +:+ ".mdx") = ".mdx".
Proof.
  intros Hstem Hslash. unfold extname.
  rewrite list_ascii_of_string_append, rev_app_distr, length_append.
  change (rev (list_ascii_of_string ".mdx") ++ rev (list_ascii_of_string stem))
    with ("x"%char :: ["d"; "m"]%char
            ++ "."%char :: rev (list_ascii_of_string stem)).
  change (String.length ".mdx") with 4%nat.
  destruct (extname_suffix stem "x" ["d"; "m"]%char Hstem Hslash eq_refl eq_refl
              ltac:(repeat constructor)
              (Z.of_nat (String.length stem + 4) - 1) ltac:(simpl; lia))
    as (E1 & E2 & E3).
  rewrite (extname_result _ _ (String.length stem) 4);
    [|exact E1|rewrite E2; lia|lia|exact E3].
  rewrite substring_append_r. reflexivity.
Qed.

(** The extension of [stem.md] is [.md], provided there is a stem. *)
Lemma extname_md (stem : string) :
  stem <> "" -> ~ In "/"%char (list_ascii_of_string stem) ->
  extname (stem +:+ ".md") = ".md".
Proof.
  intros Hstem Hslash. unfold extname.
  rewrite list_ascii_of_string_append, rev_app_distr, length_append.
  change (rev (list_ascii_of_string ".md") ++ rev (list_ascii_of_string stem))
    with ("d"%char :: ["m"%char]
            ++ "."%char :: rev (list_ascii_of_string stem)).
  change (String.length ".md") with 3%nat.
  destruct (extname_suffix stem "d" ["m"%char] Hstem Hslash eq_refl eq_refl
              ltac:(repeat constructor)
              (Z.of_nat (String.length stem + 3) - 1) ltac:(simpl; lia))
    as (E1 & E2 & E3).
  rewrite (extname_result _ _ (String.length stem) 3);
    [|exact E1|rewrite E2; lia|lia|exact E3].
  rewrite substring_append_r. reflexivity.
Qed.

End PathFacts.

(** ** Dates *)

Module JsDateFacts.
Import JsDate JsNumber JsNumberFacts.















(** *** The text of a date *)

Lemma all_digits_append (a b : string) :
  all_digits a -> all_digits b -> all_digits (a +:+ b).
Proof.
  intros Ha Hb c Hc.
  rewrite PathFacts.list_ascii_of_string_append in Hc.
  apply in_app_or in Hc. destruct Hc; auto.
Qed.

Lemma all_digits_digit (d : Z) : d < 10 -> all_digits (digit d).
Proof.
  intros Hd c [<-|[]]. unfold is_digit.
  rewrite nat_ascii_embedding by lia. lia.
Qed.

Lemma all_digits_decimal_aux (fuel : nat) :
  forall n, all_digits (decimal_aux fuel n).
Proof.
  induction fuel as [|fuel IH]; intros n.
  - intros c [].
  - rewrite decimal_aux_S. destruct (Z.ltb_spec n 10).
    + apply all_digits_digit. assumption.
    + apply all_digits_append; [apply IH|].
      apply all_digits_digit. apply Z.mod_pos_bound. lia.
Qed.

Lemma all_digits_zeros (k : nat) : all_digits (zeros k).
Proof.
  induction k as [|k IH]; [intros c []|].
  intros c [<-|Hc]; [|apply IH, Hc].
  unfold is_digit. change (nat_of_ascii "0") with 48%nat. lia.
Qed.

Lemma all_digits_pad (width : nat) (n : Z) : all_digits (pad width n).
Proof.
  unfold pad, padStart0.
  apply all_digits_append; [apply all_digits_zeros|].
  apply all_digits_decimal_aux.
Qed.

(** The characters of a string other than ["T"]. *)
Lemma all_digits_no_T (s : string) :
  all_digits s -> ~ In "T"%char (list_ascii_of_string s).
Proof.
  intros H Hin. specialize (H _ Hin). unfold is_digit in H.
  change (nat_of_ascii "T") with 84%nat in H. lia.
Qed.

Lemma no_T_append (a b : string) :
  ~ In "T"%char (list_ascii_of_string a) ->
  ~ In "T"%char (list_ascii_of_string b) ->
  ~ In "T"%char (list_ascii_of_string (a +:+ b)).
Proof.
  intros Ha Hb Hin.
  rewrite PathFacts.list_ascii_of_string_append in Hin.
  apply in_app_or in Hin. tauto.
Qed.

Lemma split_head_append (sep : ascii) (a b : string) :
  ~ In sep (list_ascii_of_string a) ->
  JsString.split_head sep (a +:+ String sep b) = a.
Proof.
  induction a as [|c a IH]; intros Hnotin; simpl.
  - rewrite Ascii.eqb_refl. reflexivity.
  - destruct (Ascii.eqb_spec c sep) as [->|_].
    + exfalso. apply Hnotin. left. reflexivity.
    + rewrite IH; [reflexivity|].
      intros Hin. apply Hnotin. right. exact Hin.
Qed.

Lemma isoDatePart_no_T (time : Z) :
  ~ In "T"%char (list_ascii_of_string (isoDatePart time)).
Proof.
  unfold isoDatePart.
  destruct (civil_from_days (Day time)) as [[y m] d].
  assert (Hdash : ~ In "T"%char (list_ascii_of_string "-"))
    by (simpl; intros [H|[]]; discriminate).
  assert (Hpad : forall w n, ~ In "T"%char (list_ascii_of_string (pad w n)))
    by (intros w n; apply all_digits_no_T, all_digits_pad).
  apply no_T_append;
    [|apply no_T_append;
      [exact Hdash
      |apply no_T_append;
       [apply Hpad|apply no_T_append; [exact Hdash|apply Hpad]]]].
  unfold isoYear. destruct ((0 <=? y) && (y <=? 9999)); [apply Hpad|].
  apply no_T_append; [|apply Hpad].
  destruct (y <? 0); simpl; intros [H|[]]; discriminate.
Qed.

(** [toISOString().split("T")[0]] is the date part of the ISO text. *)
Lemma isoDay_Some (time : Z) : isoDay (Some time) = Ok (isoDatePart time).
Proof.
  unfold isoDay, toISOString. cbn [bind].
  change (isoDatePart time +:+ "T" +:+ isoTimePart time +:+ "Z")
    with (isoDatePart time +:+ String "T" (isoTimePart time +:+ "Z")).
  rewrite split_head_append by apply isoDatePart_no_T.
  reflexivity.
Qed.






End JsDateFacts.

(** ** The content resolver *)

Module ContentFacts.
Import Content JsString.

Section Facts.
Variable root : Fs.node.
Variable matter : string -> GrayMatter.file.
Variable Date_parse : string -> JsDate.t.
Variable now : Z.

(** C6.  For a path that leads nowhere in the content tree, or to a file,
    [readDirectory] returns the empty list; it throws nothing. *)
Theorem readDirectory_not_a_directory (contentPath : list string) :
  (Fs.resolve root contentPath = None
   \/ exists raw mtimeMs, Fs.resolve root contentPath = Some (Fs.File raw mtimeMs)) ->
  readDirectory root matter Date_parse now contentPath = Ok [].
Proof.
  intros [H|(raw & mt & H)]; unfold readDirectory, Fs.existsSync, Fs.statSync;
    rewrite H; reflexivity.
Qed.

(** X22.  When [base.mdx] and [base.md] are both files of the directory
    [dir], [readPost] builds its answer from the text of [base.mdx]; and
    [isPost] is true exactly when [dir] has an entry [base.mdx] or an entry
    [base.md], be it a file or a directory. *)
Theorem readPost_prefers_mdx (dir : list string) (base : string) :
  (forall raw_mdx mt_mdx raw_md mt_md,
      Fs.resolve root (dir ++ [base +:+ ".mdx"]) = Some (Fs.File raw_mdx mt_mdx) ->
      Fs.resolve root (dir ++ [base +:+ ".md"]) = Some (Fs.File raw_md mt_md) ->
      readPost root matter Date_parse (dir ++ [base])
      = (date <-
           (if GrayMatter.truthy_date (GrayMatter.date (GrayMatter.data (matter raw_mdx)))
            then JsDate.isoDay
                   (new_Date Date_parse
                             (GrayMatter.date (GrayMatter.data (matter raw_mdx))))
            else Ok "") ;;
         Ok (Some (PostData.mk
                     (or_else (GrayMatter.title (GrayMatter.data (matter raw_mdx)))
                              base)
                     (or_else (GrayMatter.description
                                 (GrayMatter.data (matter raw_mdx))) "")
                     date
                     (GrayMatter.content (matter raw_mdx))
                     (join "/" (dir ++ [base]))))))
  /\ (isPost root (dir ++ [base]) = true
      <-> (exists n, Fs.resolve root (dir ++ [base +:+ ".mdx"]) = Some n)
          \/ (exists n, Fs.resolve root (dir ++ [base +:+ ".md"]) = Some n)).
Proof.
  split.
  - intros raw_mdx mt_mdx raw_md mt_md Hmdx Hmd.
    unfold readPost, Fs.existsSync, Fs.readFileSync.
    rewrite !FsFacts.add_suffix_snoc, Hmdx, FsFacts.basename_snoc.
    cbv beta iota zeta. rewrite Hmdx. reflexivity.
  - unfold isPost, Fs.existsSync.
    rewrite !FsFacts.add_suffix_snoc.
    destruct (Fs.resolve root (dir ++ [base +:+ ".mdx"])) as [n1|];
      destruct (Fs.resolve root (dir ++ [base +:+ ".md"])) as [n2|];
      simpl; split; intros H; eauto;
      try discriminate; destruct H as [[n H]|[n H]]; discriminate.
Qed.

(** What [readDirectory] returns for a directory: every entry comes from an
    item of the directory, a subdirectory or a post file. *)
Lemma readDirectory_inv (contentPath : list string)
      (entries : list DirectoryEntry.t) (e : DirectoryEntry.t) :
  readDirectory root matter Date_parse now contentPath = Ok entries ->
  In e entries ->
  exists items item,
    Fs.resolve root contentPath = Some (Fs.Dir items)
    /\ In item (map fst items)
    /\ ((exists sub date description,
            Fs.resolve root (contentPath ++ [item]) = Some (Fs.Dir sub)
            /\ getDirectoryDate root matter Date_parse now (contentPath ++ [item])
               = Ok date
            /\ getDirectoryDescription root matter (contentPath ++ [item])
               = Ok description
            /\ e = DirectoryEntry.mk (item +:+ "/") true "" date 0 description
                     ("/" +:+ join "/" (contentPath ++ [item])))
        \/ (exists raw mtimeMs date,
               Fs.resolve root (contentPath ++ [item]) = Some (Fs.File raw mtimeMs)
               /\ is_post_name item = true
               /\ JsDate.isoDay (Spec.post_date matter Date_parse raw mtimeMs)
                  = Ok date
               /\ e = DirectoryEntry.mk item false (Path.extname item) date
                        (Z.of_nat (String.length raw))
                        (or_else (GrayMatter.description
                                    (GrayMatter.data (matter raw))) "")
                        ("/" +:+ join "/"
                             (contentPath ++ [replace_mdx_ext item])))).
Proof.
  unfold readDirectory, Fs.existsSync, Fs.statSync at 1, Fs.readdirSync.
  destruct (Fs.resolve root contentPath) as [[raw mt|items]|] eqn:Hres;
    cbn [negb bind Fs.isDirectory];
    try (intros H; injection H as <-; contradiction).
  intros H Hin. exists items.
  revert e Hin.
  apply Forall_forall.
  refine (for_of_invariant
            (fun entries => Forall (fun e => exists item, _ /\ _ /\ _) entries)
            _ _ _ [] entries _ H); [|constructor].
  clear H entries.
  intros acc item acc' Hitem Hacc Hbody.
  unfold Fs.statSync, Fs.readFileSync in Hbody.
  destruct (Fs.resolve root (contentPath ++ [item])) as [[raw mt|sub]|] eqn:Hitemres;
    cbn [bind Fs.isDirectory] in Hbody; [| |discriminate].
  - destruct (is_post_name item) eqn:Hpost.
    + apply bind_Ok_inv in Hbody. destruct Hbody as (date & Hdate & Hbody).
      injection Hbody as <-.
      apply Forall_app. split; [assumption|].
      constructor; [|constructor].
      exists item. split; [reflexivity|]. split; [assumption|].
      right. exists raw, mt, date.
      split; [exact Hitemres|]. split; [exact Hpost|]. split; [|reflexivity].
      unfold Spec.post_date. cbv zeta.
      cbn [Fs.mtime] in Hdate.
      destruct (GrayMatter.truthy_date
                  (GrayMatter.date (GrayMatter.data (matter raw))));
        exact Hdate.
    + injection Hbody as <-. assumption.
  - apply bind_Ok_inv in Hbody. destruct Hbody as (date & Hdate & Hbody).
    apply bind_Ok_inv in Hbody. destruct Hbody as (descr & Hdescr & Hbody).
    injection Hbody as <-.
    apply Forall_app. split; [assumption|].
    constructor; [|constructor].
    exists item. split; [reflexivity|]. split; [assumption|].
    left. exists sub, date, descr.
    split; [exact Hitemres|]. split; [exact Hdate|]. split; [exact Hdescr|].
    reflexivity.
Qed.

(** C7, as the code has it.  Every entry of [readDirectory] comes from an
    item of the directory and is of one of two kinds, never both: a
    subdirectory, with [isDirectory = true] and the empty extension; or a
    file whose name ends in [.mdx] or [.md], with [isDirectory = false] and
    [path.extname] of the name as extension.  That extension is [.mdx] or
    [.md], except for a file named exactly [.mdx] or [.md], which
    [path.extname] takes for a name without extension.  A file of any other
    name gives no entry. *)
Theorem readDirectory_entry_kinds (contentPath : list string)
        (entries : list DirectoryEntry.t) (e : DirectoryEntry.t) :
  readDirectory root matter Date_parse now contentPath = Ok entries ->
  In e entries ->
  exists item,
    (DirectoryEntry.isDirectory e = true
     /\ DirectoryEntry.extension e = ""
     /\ DirectoryEntry.name e = item +:+ "/"
     /\ exists sub, Fs.resolve root (contentPath ++ [item]) = Some (Fs.Dir sub))
    \/ (DirectoryEntry.isDirectory e = false
        /\ DirectoryEntry.extension e = Path.extname item
        /\ DirectoryEntry.name e = item
        /\ (exists raw mtimeMs,
               Fs.resolve root (contentPath ++ [item]) = Some (Fs.File raw mtimeMs))
        /\ (endsWith item ".mdx" = true \/ endsWith item ".md" = true)
        /\ (item = ".mdx" \/ item = ".md" -> DirectoryEntry.extension e = "")
        /\ (Spec.valid_name item -> item <> ".mdx" -> item <> ".md" ->
            DirectoryEntry.extension e
            = if endsWith item ".mdx" then ".mdx" else ".md")).
Proof.
  intros H Hin.
  destruct (readDirectory_inv contentPath entries e H Hin)
    as (items & item & Hdir & Hitem & [Hsub|Hfile]).
  - destruct Hsub as (sub & date & descr & Hres & _ & _ & ->).
    exists item. left. simpl. eauto.
  - destruct Hfile as (raw & mt & date & Hres & Hpost & _ & ->).
    exists item. right. simpl.
    split; [reflexivity|]. split; [reflexivity|]. split; [reflexivity|].
    split; [eauto|].
    unfold is_post_name in Hpost. apply orb_true_iff in Hpost.
    split; [exact Hpost|].
    split.
    + intros [->| ->]; reflexivity.
    + intros Hvalid Hmdx Hmd. unfold Spec.valid_name in Hvalid.
      destruct (endsWith item ".mdx") eqn:E.
      * apply PathFacts.endsWith_inv in E. destruct E as (stem & ->).
        apply PathFacts.extname_mdx.
        -- intros ->. apply Hmdx. reflexivity.
        -- intros Hin'. apply Hvalid.
           rewrite PathFacts.list_ascii_of_string_append.
           apply in_or_app. left. exact Hin'.
      * destruct Hpost as [Hpost|Hpost]; [discriminate|].
        apply PathFacts.endsWith_inv in Hpost. destruct Hpost as (stem & ->).
        apply PathFacts.extname_md.
        -- intros ->. apply Hmd. reflexivity.
        -- intros Hin'. apply Hvalid.
           rewrite PathFacts.list_ascii_of_string_append.
           apply in_or_app. left. exact Hin'.
Qed.

(** C8, as the code has it.  The description of a subdirectory's entry is
    the description of the metadata block of the file [index.mdx] of that
    subdirectory (empty when the block has none), and the empty string when
    the subdirectory has no [index.mdx]; a file [index.md] is not looked
    at. *)
Theorem readDirectory_directory_description (contentPath : list string)
        (entries : list DirectoryEntry.t) (e : DirectoryEntry.t) :
  readDirectory root matter Date_parse now contentPath = Ok entries ->
  In e entries ->
  DirectoryEntry.isDirectory e = true ->
  exists item sub,
    DirectoryEntry.name e = item +:+ "/"
    /\ Fs.resolve root (contentPath ++ [item]) = Some (Fs.Dir sub)
    /\ ((exists raw mtimeMs,
            Fs.child sub "index.mdx" = Some (Fs.File raw mtimeMs)
            /\ DirectoryEntry.description e
               = or_else (GrayMatter.description (GrayMatter.data (matter raw)))
                         "")
        \/ (Fs.child sub "index.mdx" = None
            /\ DirectoryEntry.description e = "")).
Proof.
  intros H Hin Hisdir.
  destruct (readDirectory_inv contentPath entries e H Hin)
    as (items & item & Hdir & Hitem & [Hsub|Hfile]).
  - destruct Hsub as (sub & date & descr & Hres & _ & Hdescr & ->).
    exists item, sub. simpl.
    split; [reflexivity|]. split; [exact Hres|].
    unfold getDirectoryDescription, Fs.existsSync, Fs.readFileSync in Hdescr.
    rewrite FsFacts.resolve_app, Hres in Hdescr. simpl in Hdescr.
    destruct (Fs.child sub "index.mdx") as [[raw mt|sub']|].
    + left. exists raw, mt. split; [reflexivity|].
      injection Hdescr as <-. reflexivity.
    + discriminate.
    + right. split; [reflexivity|]. injection Hdescr as <-. reflexivity.
  - destruct Hfile as (raw & mt & date & _ & _ & _ & ->).
    discriminate.
Qed.

(** The loop of [getDirectoryDate] keeps the greatest time value it has
    met, starting from 0. *)
Lemma latest_fold (dates : list JsDate.t) :
  forall m0, 0 <= m0 ->
  exists m,
    fold_left (fun latest d => if JsDate.gt d latest then d else latest)
              dates (Some m0) = Some m
    /\ m0 <= m
    /\ (m = m0 \/ In (Some m) dates)
    /\ forall time, In (Some time) dates -> time <= m.
Proof.
  induction dates as [|d dates IH]; intros m0 Hm0; simpl.
  - exists m0. repeat split; [lia|left; reflexivity|intros time []].
  - destruct d as [x|]; simpl.
    + destruct (Z.ltb_spec m0 x) as [Hlt|Hge].
      * destruct (IH x ltac:(lia)) as (m & Hfold & Hle & Hin & Hmax).
        exists m. split; [exact Hfold|]. split; [lia|]. split.
        -- right. destruct Hin as [->|Hin]; [left; reflexivity|right; exact Hin].
        -- intros time [E|Hin']; [injection E as <-; exact Hle|auto].
      * destruct (IH m0 Hm0) as (m & Hfold & Hle & Hin & Hmax).
        exists m. split; [exact Hfold|]. split; [exact Hle|]. split.
        -- destruct Hin as [->|Hin]; [left; reflexivity|right; right; exact Hin].
        -- intros time [E|Hin']; [injection E as <-; lia|auto].
    + destruct (IH m0 Hm0) as (m & Hfold & Hle & Hin & Hmax).
      exists m. split; [exact Hfold|]. split; [exact Hle|]. split.
      * destruct Hin as [->|Hin]; [left; reflexivity|right; right; exact Hin].
      * intros time [E|Hin']; [discriminate|auto].
Qed.

Lemma getDirectoryDate_loop (dirPath : list string)
      (sub : list (string * Fs.node)) :
  Fs.resolve root dirPath = Some (Fs.Dir sub) ->
  forall (l : list (string * Fs.node)) (acc : JsDate.t),
    (forall item c, In (item, c) l -> Fs.child sub item = Some c) ->
    for_of (map fst l) acc
           (fun latestDate item =>
              let itemPath := dirPath ++ [item] in
              stat <- Fs.statSync root itemPath ;;
              if negb (Fs.isDirectory stat) && is_post_name item then
                raw <- Fs.readFileSync root itemPath ;;
                let data := GrayMatter.data (matter raw) in
                let d :=
                  if GrayMatter.truthy_date (GrayMatter.date data)
                  then new_Date Date_parse (GrayMatter.date data)
                  else Fs.mtime stat in
                Ok (if JsDate.gt d latestDate then d else latestDate)
              else Ok latestDate)
    = Ok (fold_left (fun latest d => if JsDate.gt d latest then d else latest)
                    (Spec.post_dates matter Date_parse l) acc).
Proof.
  intros Hres l.
  induction l as [|[item c] l IH]; intros acc Hl; [reflexivity|].
  cbn [map fst for_of].
  unfold Fs.statSync at 1, Fs.readFileSync at 1.
  rewrite (FsFacts.resolve_snoc_Dir root dirPath sub item Hres).
  rewrite (Hl item c (or_introl eq_refl)).
  assert (Hl' : forall item0 c0, In (item0, c0) l -> Fs.child sub item0 = Some c0)
    by (intros item0 c0 Hin; apply Hl; right; exact Hin).
  unfold Spec.post_dates. cbn [flat_map]. fold (Spec.post_dates matter Date_parse l).
  destruct c as [raw mt|sub']; cbn [bind Fs.isDirectory negb andb Fs.mtime].
  - destruct (is_post_name item); cbn [bind app fold_left].
    + rewrite IH by exact Hl'. reflexivity.
    + rewrite IH by exact Hl'. reflexivity.
  - cbn [app]. rewrite IH by exact Hl'. reflexivity.
Qed.

(** What [getDirectoryDate] returns for a directory without two entries of
    one name. *)
Lemma getDirectoryDate_spec (dirPath : list string)
      (sub : list (string * Fs.node)) (date : string) :
  Fs.resolve root dirPath = Some (Fs.Dir sub) ->
  NoDup (map fst sub) ->
  getDirectoryDate root matter Date_parse now dirPath = Ok date ->
  exists m,
    Spec.most_recent_after_epoch (Spec.post_dates matter Date_parse sub) m
    /\ JsDate.isoDay (if m =? 0 then JsDate.TimeClip now else Some m) = Ok date.
Proof.
  intros Hres Hnd. unfold getDirectoryDate, Fs.readdirSync.
  rewrite Hres. intros H.
  apply bind_Ok_inv in H. destruct H as (names & E & H). injection E as <-.
  cbv beta in H.
  apply bind_Ok_inv in H. destruct H as (latestDate & Hloop & H).
  cbv beta in H.
  pose proof (getDirectoryDate_loop dirPath sub Hres sub (Some 0)
                (fun item c => FsFacts.In_child sub item c Hnd)) as E.
  pose proof (eq_trans (eq_sym E) Hloop) as Hloop'. clear E Hloop.
  destruct (latest_fold (Spec.post_dates matter Date_parse sub) 0 ltac:(lia))
    as (m & Hfold & Hle & Hin & Hmax).
  rewrite Hfold in Hloop'. injection Hloop' as <-.
  exists m. split.
  - unfold Spec.most_recent_after_epoch. auto.
  - cbn [JsDate.getTime_is_0] in H. destruct (m =? 0); exact H.
Qed.

(** C9, as the code has it.  In a content tree without two entries of one
    name in a directory, take the post files directly in a subdirectory,
    each with the date of its metadata block or else its modification time.
    When the most recent of these dates lies after the epoch, the date of
    the subdirectory's entry is the day of that date; when the subdirectory
    has no post file, it is the day the clock shows. *)
Theorem readDirectory_directory_date (contentPath : list string)
        (entries : list DirectoryEntry.t) (e : DirectoryEntry.t) :
  Fs.wf root ->
  readDirectory root matter Date_parse now contentPath = Ok entries ->
  In e entries ->
  DirectoryEntry.isDirectory e = true ->
  exists item sub,
    DirectoryEntry.name e = item +:+ "/"
    /\ Fs.resolve root (contentPath ++ [item]) = Some (Fs.Dir sub)
    /\ (forall m,
           Spec.most_recent (Spec.post_dates matter Date_parse sub) m ->
           0 < m ->
           JsDate.isoDay (Some m) = Ok (DirectoryEntry.date e))
    /\ (Spec.post_dates matter Date_parse sub = [] ->
        JsDate.isoDay (JsDate.TimeClip now) = Ok (DirectoryEntry.date e)).
Proof.
  intros Hwf H Hin Hisdir.
  destruct (readDirectory_inv contentPath entries e H Hin)
    as (items & item & Hdir & Hitem & [Hsub|Hfile]).
  - destruct Hsub as (sub & date & descr & Hres & Hdate & _ & ->).
    assert (Hnd : NoDup (map fst sub)).
    { pose proof (FsFacts.wf_resolve _ _ _ Hwf Hres) as Hwfsub.
      apply FsFacts.wf_Dir in Hwfsub. tauto. }
    destruct (getDirectoryDate_spec _ sub date Hres Hnd Hdate)
      as (m0 & (Hm0 & Hin0 & Hmax0) & Hiso).
    exists item, sub. cbn [DirectoryEntry.name DirectoryEntry.date].
    split; [reflexivity|]. split; [exact Hres|]. split.
    + intros m [Hm Hmax] Hpos.
      pose proof (Hmax0 m Hm) as Hle.
      destruct Hin0 as [->|Hin0]; [lia|].
      pose proof (Hmax m0 Hin0) as Hge.
      assert (m0 = m) as -> by lia.
      destruct (Z.eqb_spec m 0); [lia|]. exact Hiso.
    + intros Hnone. rewrite Hnone in Hin0.
      destruct Hin0 as [->|[]]. exact Hiso.
  - destruct Hfile as (raw & mt & date & _ & _ & _ & ->).
    discriminate.
Qed.

(** [readPost] on the path of a post file. *)
Lemma readPost_post_file (dir : list string) (base raw : string) :
  Spec.post_file_at root dir base raw ->
  readPost root matter Date_parse (dir ++ [base])
  = (date <-
       (if GrayMatter.truthy_date (GrayMatter.date (GrayMatter.data (matter raw)))
        then JsDate.isoDay
               (new_Date Date_parse
                         (GrayMatter.date (GrayMatter.data (matter raw))))
        else Ok "") ;;
     Ok (Some (PostData.mk
                 (or_else (GrayMatter.title (GrayMatter.data (matter raw))) base)
                 (or_else (GrayMatter.description (GrayMatter.data (matter raw)))
                          "")
                 date
                 (GrayMatter.content (matter raw))
                 (join "/" (dir ++ [base]))))).
Proof.
  intros [(mt & Hmdx)|(Hmdx & mt & Hmd)];
    unfold readPost, Fs.existsSync, Fs.readFileSync;
    rewrite !FsFacts.add_suffix_snoc, Hmdx, FsFacts.basename_snoc.
  - cbv beta iota zeta. rewrite Hmdx. reflexivity.
  - rewrite Hmd. cbv beta iota zeta. rewrite Hmd. reflexivity.
Qed.


End Facts.

(** *** [getAllPaths] *)

Section Walk.
Variable root : Fs.node.

Lemma walk_Dir (fuel : nat) :
  forall (dir segments : list string) (paths : list (list string))
         (items : list (string * Fs.node)),
    Fs.resolve root dir = Some (Fs.Dir items) ->
    Fs.wf (Fs.Dir items) ->
    (Fs.height (Fs.Dir items) <= fuel)%nat ->
    walk root fuel dir segments paths
    = Ok (paths ++ Spec.enumerate (Fs.Dir items) segments).
Proof.
  induction fuel as [|fuel IH]; intros dir segments paths items Hres Hwf Hh.
  - simpl in Hh. lia.
  - cbn [walk]. unfold Fs.readdirSync. rewrite Hres. cbn [bind].
    apply FsFacts.wf_Dir in Hwf. destruct Hwf as [Hnd Hwf].
    assert (Hl : forall item c, In (item, c) items ->
                   Fs.child items item = Some c /\ Fs.wf c
                   /\ (Fs.height c <= fuel)%nat).
    { intros item c Hin. split; [apply FsFacts.In_child; assumption|].
      split; [eapply Hwf; eassumption|].
      pose proof (FsFacts.height_child items item c Hin). lia. }
    cbn [Spec.enumerate].
    clear Hnd Hwf Hh. revert paths Hl.
    generalize items at 1 3 4 as l.
    induction l as [|[item c] l IHl]; intros paths Hl.
    + simpl. rewrite app_nil_r. reflexivity.
    + destruct (Hl item c (or_introl eq_refl)) as (Hc & Hwfc & Hhc).
      assert (Hl' : forall item0 c0, In (item0, c0) l ->
                      Fs.child items item0 = Some c0 /\ Fs.wf c0
                      /\ (Fs.height c0 <= fuel)%nat)
        by (intros item0 c0 Hin; apply Hl; right; exact Hin).
      cbn [map fst for_of flat_map].
      unfold Fs.statSync at 1.
      rewrite (FsFacts.resolve_snoc_Dir root dir items item Hres), Hc.
      destruct c as [raw mt|sub]; cbn [bind Fs.isDirectory].
      * destruct (is_post_name item); cbn [bind].
        -- rewrite IHl by exact Hl'. rewrite <- app_assoc. reflexivity.
        -- rewrite IHl by exact Hl'. reflexivity.
      * rewrite (IH (dir ++ [item]) (segments ++ [item])
                    (paths ++ [segments ++ [item]]) sub);
          [|rewrite (FsFacts.resolve_snoc_Dir root dir items item Hres);
            exact Hc|exact Hwfc|exact Hhc].
        cbn [bind]. rewrite IHl by exact Hl'.
        rewrite <- !app_assoc. reflexivity.
Qed.

End Walk.

(** *** The enumeration *)

Lemma enumerate_length (n : Fs.node) :
  forall segments,
    List.length (Spec.enumerate n segments)
    = (Spec.count_directories n + Spec.count_posts n)%nat.
Proof.
  induction n as [raw mt|items IH] using FsFacts.node_induction;
    intros segments; [reflexivity|].
  cbn [Spec.enumerate Spec.count_directories Spec.count_posts].
  induction items as [|[item c] items IHitems]; [reflexivity|].
  cbn [flat_map map].
  assert (Hcons : forall a l, list_sum (a :: l) = (a + list_sum l)%nat)
    by reflexivity.
  rewrite !Hcons, length_app, IHitems
    by (intros item0 c0 Hin; apply (IH item0); right; exact Hin).
  pose proof (IH item c (or_introl eq_refl) (segments ++ [item])) as Hc.
  repeat match goal with
         | |- context [list_sum ?x] => generalize (list_sum x); intro
         end.
  destruct c as [raw mt|sub].
  - destruct (is_post_name item); cbn [List.length]; lia.
  - cbn [List.length]. rewrite Hc. lia.
Qed.

(** Every path of the enumeration below [segments] extends [segments] by
    the route segment of a child that gives a route. *)
Lemma enumerate_block_shape (segments : list string) (item : string)
      (c : Fs.node) (path : list string) :
  In path (match c with
           | Fs.Dir _ => (segments ++ [item]) :: Spec.enumerate c (segments ++ [item])
           | Fs.File _ _ =>
               if is_post_name item
               then [segments ++ [JsString.replace_mdx_ext item]]
               else []
           end) ->
  (forall p, In p (Spec.enumerate c (segments ++ [item])) ->
             exists k rest, p = (segments ++ [item]) ++ k :: rest) ->
  Spec.is_routable c item = true
  /\ exists rest, path = segments ++ Spec.route_segment c item :: rest.
Proof.
  intros Hin Hc. destruct c as [raw mt|sub]; simpl.
  - destruct (is_post_name item); [|contradiction].
    destruct Hin as [<-|[]]. split; [reflexivity|]. exists []. reflexivity.
  - split; [reflexivity|].
    destruct Hin as [<-|Hin].
    + exists []. reflexivity.
    + destruct (Hc path Hin) as (k & rest & ->).
      exists (k :: rest). rewrite <- app_assoc. reflexivity.
Qed.

Lemma enumerate_shape (n : Fs.node) :
  forall segments path,
    In path (Spec.enumerate n segments) ->
    exists k rest, path = segments ++ k :: rest.
Proof.
  induction n as [raw mt|items IH] using FsFacts.node_induction;
    intros segments path Hin; [contradiction|].
  cbn [Spec.enumerate] in Hin. apply in_flat_map in Hin.
  destruct Hin as ([item c] & Hic & Hin).
  destruct (enumerate_block_shape segments item c path Hin) as (_ & rest & ->).
  - intros p Hp. apply (IH item c Hic). exact Hp.
  - eauto.
Qed.

Lemma enumerate_NoDup (n : Fs.node) :
  forall segments, Spec.routes_distinct n -> NoDup (Spec.enumerate n segments).
Proof.
  induction n as [raw mt|items IH] using FsFacts.node_induction;
    intros segments Hrd; [constructor|].
  cbn [Spec.enumerate]. cbn [Spec.routes_distinct] in Hrd.
  destruct Hrd as [Hnd Hall].
  induction items as [|[item c] items IHitems]; [constructor|].
  cbn [flat_map]. destruct Hall as [Hc Hall].
  unfold Spec.route_segments in Hnd. cbn [flat_map] in Hnd.
  fold (Spec.route_segments items) in Hnd.
  apply NoDup_app.
  - destruct c as [raw mt|sub].
    + destruct (is_post_name item); repeat constructor. intros [].
    + constructor.
      * intros Hin. apply enumerate_shape in Hin.
        destruct Hin as (k & rest & E).
        rewrite <- (app_nil_r (segments ++ [item])) in E at 1.
        apply app_inv_head in E. discriminate.
      * apply (IH item (Fs.Dir sub) (or_introl eq_refl)). exact Hc.
  - apply IHitems.
    + intros item0 c0 Hin. apply (IH item0). right. exact Hin.
    + apply NoDup_app_remove_l in Hnd. exact Hnd.
    + exact Hall.
  - intros path Hin Hin'.
    destruct (enumerate_block_shape segments item c path Hin
                (enumerate_shape c (segments ++ [item])))
      as (Hroutable & rest & ->).
    apply in_flat_map in Hin'. destruct Hin' as ([item' c'] & Hic' & Hin').
    destruct (enumerate_block_shape segments item' c' _ Hin'
                (enumerate_shape c' (segments ++ [item'])))
      as (Hroutable' & rest' & E).
    apply app_inv_head in E. injection E as Ekey _.
    rewrite Hroutable in Hnd. cbn [app] in Hnd.
    inversion Hnd as [|? ? Hnotin _]; subst.
    apply Hnotin. rewrite Ekey.
    unfold Spec.route_segments. apply in_flat_map.
    exists (item', c'). split; [exact Hic'|].
    rewrite Hroutable'. left. reflexivity.
Qed.

Lemma is_route_cons (items : list (string * Fs.node)) (item : string)
      (c : Fs.node) (q : list string) :
  Fs.child items item = Some c ->
  Spec.is_route c q -> Spec.is_route (Fs.Dir items) (item :: q).
Proof.
  intros Hc [[Hq (sub & Hres)]|(dir & it & raw & mt & -> & Hres & Hpost)].
  - left. split; [discriminate|]. exists sub.
    rewrite FsFacts.resolve_Dir_cons, Hc. exact Hres.
  - right. exists (item :: dir), it, raw, mt.
    split; [reflexivity|]. split; [|exact Hpost].
    cbn [app]. rewrite FsFacts.resolve_Dir_cons, Hc. exact Hres.
Qed.

(** Nothing but routes is enumerated. *)
Lemma enumerate_sound (n : Fs.node) :
  forall segments path,
    Fs.wf n -> In path (Spec.enumerate n segments) ->
    exists q, path = segments ++ q /\ Spec.is_route n q.
Proof.
  induction n as [raw mt|items IH] using FsFacts.node_induction;
    intros segments path Hwf Hin; [contradiction|].
  cbn [Spec.enumerate] in Hin. apply in_flat_map in Hin.
  destruct Hin as ([item c] & Hic & Hin).
  apply FsFacts.wf_Dir in Hwf. destruct Hwf as [Hnd Hwf].
  pose proof (FsFacts.In_child items item c Hnd Hic) as Hc.
  destruct c as [raw mt|sub].
  - destruct (is_post_name item) eqn:Hpost; [|contradiction].
    destruct Hin as [<-|[]].
    exists [replace_mdx_ext item]. split; [reflexivity|].
    right. exists [], item, raw, mt.
    split; [reflexivity|]. split; [|exact Hpost].
    cbn [app]. rewrite FsFacts.resolve_Dir_cons, Hc. reflexivity.
  - destruct Hin as [<-|Hin].
    + exists [item]. split; [reflexivity|].
      left. split; [discriminate|]. exists sub.
      rewrite FsFacts.resolve_Dir_cons, Hc. reflexivity.
    + destruct (IH item (Fs.Dir sub) Hic (segments ++ [item]) path
                   (Hwf item _ Hic) Hin) as (q & -> & Hq).
      exists (item :: q). split; [rewrite <- app_assoc; reflexivity|].
      eapply is_route_cons; eassumption.
Qed.

(** Every route is enumerated. *)
Lemma enumerate_complete (n : Fs.node) :
  forall segments q,
    Spec.is_route n q -> In (segments ++ q) (Spec.enumerate n segments).
Proof.
  induction n as [raw mt|items IH] using FsFacts.node_induction;
    intros segments q Hq.
  - exfalso.
    destruct Hq as [[Hne (sub & Hres)]|(dir & it & raw' & mt' & _ & Hres & _)].
    + destruct q; [congruence|discriminate].
    + destruct dir; discriminate.
  - cbn [Spec.enumerate]. apply in_flat_map.
    destruct Hq as [[Hne (sub & Hres)]|(dir & it & raw & mt & -> & Hres & Hpost)].
    + destruct q as [|item q]; [congruence|].
      rewrite FsFacts.resolve_Dir_cons in Hres.
      destruct (Fs.child items item) as [c|] eqn:Hc; [|discriminate].
      pose proof (FsFacts.child_In items item c Hc) as Hic.
      exists (item, c). split; [exact Hic|].
      destruct q as [|x q].
      * simpl in Hres. injection Hres as ->. left. reflexivity.
      * destruct c as [raw mt|sub']; [discriminate|].
        right.
        replace (segments ++ item :: x :: q)
          with ((segments ++ [item]) ++ x :: q)
          by (rewrite <- app_assoc; reflexivity).
        apply (IH item (Fs.Dir sub') Hic).
        left. split; [discriminate|]. eauto.
    + destruct dir as [|x dir]; cbn [app] in Hres |- *;
        rewrite FsFacts.resolve_Dir_cons in Hres.
      * destruct (Fs.child items it) as [c|] eqn:Hc; [|discriminate].
        simpl in Hres. injection Hres as ->.
        exists (it, Fs.File raw mt).
        split; [apply FsFacts.child_In, Hc|].
        rewrite Hpost. left. reflexivity.
      * destruct (Fs.child items x) as [c|] eqn:Hc; [|discriminate].
        pose proof (FsFacts.child_In items x c Hc) as Hic.
        exists (x, c). split; [exact Hic|].
        destruct c as [raw' mt'|sub'].
        -- destruct dir; discriminate.
        -- right.
           replace (segments ++ x :: dir ++ [replace_mdx_ext it])
             with ((segments ++ [x]) ++ dir ++ [replace_mdx_ext it])
             by (rewrite <- app_assoc; reflexivity).
           apply (IH x (Fs.Dir sub') Hic).
           right. exists dir, it, raw, mt. auto.
Qed.

(** C2, as the code has it.  On a content tree without two entries of one
    name in a directory, with fuel for its height, [getAllPaths] returns the
    pre-order enumeration of the tree; that list has one element for each
    directory and each post file below the root; its elements are the
    segment paths of the directories below the root and those of the post
    files, extension taken off, and no others; and it has no path twice
    provided no directory holds two children that give the same route
    segment ([x.md] next to [x.mdx], or next to a directory [x]). *)
Theorem getAllPaths_enumerates (root : Fs.node) (fuel : nat) :
  Fs.wf root ->
  (exists items, root = Fs.Dir items) ->
  (Fs.height root <= fuel)%nat ->
  exists paths,
    getAllPaths root fuel = Ok paths
    /\ paths = Spec.enumerate root []
    /\ List.length paths
       = (Spec.count_directories root + Spec.count_posts root)%nat
    /\ (forall path, In path paths <-> Spec.is_route root path)
    /\ (Spec.routes_distinct root -> NoDup paths).
Proof.
  intros Hwf (items & ->) Hh.
  exists (Spec.enumerate (Fs.Dir items) []).
  split; [|split; [|split; [|split]]].
  - unfold getAllPaths.
    apply (walk_Dir (Fs.Dir items) fuel [] [] [] items eq_refl Hwf Hh).
  - reflexivity.
  - apply enumerate_length.
  - intros path. split.
    + intros Hin.
      destruct (enumerate_sound _ [] path Hwf Hin) as (q & -> & Hq).
      exact Hq.
    + intros Hq. apply (enumerate_complete _ [] path Hq).
  - apply enumerate_NoDup.
Qed.

(** *** Closed instances *)

(** Neither a missing path nor the path of a post is a directory. *)
Lemma readDirectory_not_a_directory_witness :
  readDirectory sample_tree sample_matter sample_Date_parse sample_now
                ["missing"] = Ok []
  /\ readDirectory sample_tree sample_matter sample_Date_parse sample_now
                   ["hello.mdx"] = Ok [].
Proof.
  split.
  - apply (readDirectory_not_a_directory
             sample_tree sample_matter sample_Date_parse sample_now ["missing"]).
    left. reflexivity.
  - apply (readDirectory_not_a_directory
             sample_tree sample_matter sample_Date_parse sample_now ["hello.mdx"]).
    right. exists "hello", 1771804800000. reflexivity.
Defined.

(** With [post.md] and [post.mdx] side by side, the post is read from
    [post.mdx]. *)
Lemma readPost_prefers_mdx_witness :
  readPost both_tree sample_matter sample_Date_parse ["post"]
  = Ok (Some (PostData.mk "Hello World" "First post" "2026-02-23"
                          "# Hello World" "post")).
Proof.
  refine (eq_trans
            (proj1 (readPost_prefers_mdx both_tree sample_matter
                                         sample_Date_parse [] "post")
                   "hello" 1771804800000 "old" 1750000000000
                   eq_refl eq_refl) _).
  vm_compute. reflexivity.
Defined.

(** The entry of [hello.mdx] in the listing of the root. *)
Lemma readDirectory_entry_kinds_witness :
  exists item,
    (DirectoryEntry.isDirectory hello_entry' = true
     /\ DirectoryEntry.extension hello_entry' = ""
     /\ DirectoryEntry.name hello_entry' = item +:+ "/"
     /\ exists sub, Fs.resolve sample_tree ([] ++ [item]) = Some (Fs.Dir sub))
    \/ (DirectoryEntry.isDirectory hello_entry' = false
        /\ DirectoryEntry.extension hello_entry' = Path.extname item
        /\ DirectoryEntry.name hello_entry' = item
        /\ (exists raw mtimeMs,
               Fs.resolve sample_tree ([] ++ [item]) = Some (Fs.File raw mtimeMs))
        /\ (endsWith item ".mdx" = true \/ endsWith item ".md" = true)
        /\ (item = ".mdx" \/ item = ".md" ->
            DirectoryEntry.extension hello_entry' = "")
        /\ (Spec.valid_name item -> item <> ".mdx" -> item <> ".md" ->
            DirectoryEntry.extension hello_entry'
            = if endsWith item ".mdx" then ".mdx" else ".md")).
Proof.
  apply (readDirectory_entry_kinds
           sample_tree sample_matter sample_Date_parse sample_now []
           sample_listing hello_entry').
  - vm_compute. reflexivity.
  - right. left. reflexivity.
Defined.

(** C7, counterexample.  A file named [.md] is listed, as a post file, with
    the empty extension. *)
Lemma readDirectory_dotfile_counterexample :
  ~ (forall entries e,
        readDirectory dotfile_tree sample_matter sample_Date_parse sample_now []
        = Ok entries ->
        In e entries ->
        (DirectoryEntry.isDirectory e = true /\ DirectoryEntry.extension e = "")
        \/ (DirectoryEntry.isDirectory e = false
            /\ DirectoryEntry.extension e <> "")).
Proof.
  intros H.
  destruct (H [DirectoryEntry.mk ".md" false "" "2026-02-23" 5 "" "/"] _
              eq_refl (or_introl eq_refl)) as [[Hd _]|[_ Hext]].
  - discriminate.
  - apply Hext. reflexivity.
Qed.

(** The entry of [archives/] in the listing of the root. *)
Lemma readDirectory_directory_description_witness :
  exists item sub,
    DirectoryEntry.name archives_entry = item +:+ "/"
    /\ Fs.resolve sample_tree ([] ++ [item]) = Some (Fs.Dir sub)
    /\ ((exists raw mtimeMs,
            Fs.child sub "index.mdx" = Some (Fs.File raw mtimeMs)
            /\ DirectoryEntry.description archives_entry
               = or_else (GrayMatter.description
                            (GrayMatter.data (sample_matter raw))) "")
        \/ (Fs.child sub "index.mdx" = None
            /\ DirectoryEntry.description archives_entry = "")).
Proof.
  apply (readDirectory_directory_description
           sample_tree sample_matter sample_Date_parse sample_now []
           sample_listing archives_entry).
  - vm_compute. reflexivity.
  - left. reflexivity.
  - reflexivity.
Defined.

(** C8, counterexample.  The subdirectory has an index post, [index.md],
    with the description "Old posts"; its entry has the empty description. *)
Lemma readDirectory_index_md_counterexample :
  ~ (forall entries e item sub raw mtimeMs,
        readDirectory index_md_tree sample_matter sample_Date_parse sample_now []
        = Ok entries ->
        In e entries ->
        DirectoryEntry.name e = item +:+ "/" ->
        Fs.resolve index_md_tree [item] = Some (Fs.Dir sub) ->
        (Fs.child sub "index.mdx" = Some (Fs.File raw mtimeMs)
         \/ Fs.child sub "index.md" = Some (Fs.File raw mtimeMs)) ->
        DirectoryEntry.description e
        = or_else (GrayMatter.description (GrayMatter.data (sample_matter raw)))
                  "").
Proof.
  intros H.
  specialize (H [DirectoryEntry.mk "archives/" true "" "2025-06-15" 0 ""
                                   "/archives"]
                _ "archives" _ "index" 1750000000000
                eq_refl (or_introl eq_refl) eq_refl eq_refl
                (or_intror eq_refl)).
  vm_compute in H. discriminate.
Qed.

(** The entry of [archives/] in the listing of the root: the most recent of
    its two posts is [index.mdx], by its modification time. *)
Lemma readDirectory_directory_date_witness :
  exists item sub,
    DirectoryEntry.name archives_entry = item +:+ "/"
    /\ Fs.resolve sample_tree ([] ++ [item]) = Some (Fs.Dir sub)
    /\ (forall m,
           Spec.most_recent
             (Spec.post_dates sample_matter sample_Date_parse sub) m ->
           0 < m ->
           JsDate.isoDay (Some m) = Ok (DirectoryEntry.date archives_entry))
    /\ (Spec.post_dates sample_matter sample_Date_parse sub = [] ->
        JsDate.isoDay (JsDate.TimeClip sample_now)
        = Ok (DirectoryEntry.date archives_entry)).
Proof.
  apply (readDirectory_directory_date
           sample_tree sample_matter sample_Date_parse sample_now []
           sample_listing archives_entry).
  - vm_compute. repeat constructor; simpl; intuition discriminate.
  - vm_compute. reflexivity.
  - left. reflexivity.
  - reflexivity.
Defined.

(** C9, counterexample.  A subdirectory without post files has no most
    recent date; its entry carries the day of the clock, 2026-11-02. *)
Lemma readDirectory_empty_directory_counterexample :
  readDirectory empty_directory_tree sample_matter sample_Date_parse
                sample_now []
  = Ok [DirectoryEntry.mk "drafts/" true "" "2026-11-02" 0 "" "/drafts"]
  /\ ~ (forall entries e item sub,
           readDirectory empty_directory_tree sample_matter sample_Date_parse
                         sample_now []
           = Ok entries ->
           In e entries ->
           DirectoryEntry.name e = item +:+ "/" ->
           Fs.resolve empty_directory_tree [item] = Some (Fs.Dir sub) ->
           exists m,
             Spec.most_recent
               (Spec.post_dates sample_matter sample_Date_parse sub) m
             /\ JsDate.isoDay (Some m) = Ok (DirectoryEntry.date e)).
Proof.
  split; [reflexivity|].
  intros H.
  destruct (H [DirectoryEntry.mk "drafts/" true "" "2026-11-02" 0 "" "/drafts"]
              _ "drafts" _
              eq_refl (or_introl eq_refl) eq_refl eq_refl)
    as (m & [Hin _] & _).
  exact Hin.
Qed.

(** A subdirectory whose only post is dated 1965-03-01, before the epoch:
    the loop of [getDirectoryDate] passes over it, and the entry carries the
    day of the clock. *)
Lemma readDirectory_before_epoch :
  readDirectory old_tree sample_matter sample_Date_parse sample_now []
  = Ok [DirectoryEntry.mk "history/" true "" "2026-11-02" 0 "" "/history"]
  /\ Spec.post_dates sample_matter sample_Date_parse
                     [("moon.mdx", Fs.File "1965" 1750000000000)]
     = [Some (JsDate.UTC 1965 3 1)]
  /\ JsDate.isoDay (Some (JsDate.UTC 1965 3 1)) = Ok "1965-03-01".
Proof. repeat split; vm_compute; reflexivity. Qed.




(** C10, at the failing input.  A directory named [sub.mdx] and no file
    [sub.mdx] or [sub.md]: [isPost] is true at [sub] and [readPost] throws
    the EISDIR of [readFileSync]; with a file [sub.md] next to the
    directory, [readPost] throws all the same and does not read [sub.md].
    [isDirectory] and [getAllPaths] take [sub.mdx] for the directory it
    is. *)
Theorem isPost_directory_named_mdx :
  Fs.wf directory_mdx_tree
  /\ (forall raw mtimeMs,
         Fs.resolve directory_mdx_tree ["sub.mdx"]
         <> Some (Fs.File raw mtimeMs))
  /\ Fs.resolve directory_mdx_tree ["sub.md"] = None
  /\ isPost directory_mdx_tree ["sub"] = true
  /\ readPost directory_mdx_tree sample_matter sample_Date_parse ["sub"]
     = Throw EISDIR
  /\ isDirectory directory_mdx_tree ["sub.mdx"] = Ok true
  /\ getAllPaths directory_mdx_tree 2 = Ok [["sub.mdx"]]
  /\ Fs.wf directory_mdx_md_tree
  /\ Fs.resolve directory_mdx_md_tree ["sub.md"]
     = Some (Fs.File "old" 1750000000000)
  /\ readPost directory_mdx_md_tree sample_matter sample_Date_parse ["sub"]
     = Throw EISDIR.
Proof.
  split; [vm_compute; repeat constructor; simpl; intuition discriminate|].
  split; [intros raw mt; vm_compute; discriminate|].
  do 5 (split; [vm_compute; reflexivity|]).
  split; [vm_compute; repeat constructor; simpl; intuition discriminate|].
  split; vm_compute; reflexivity.
Qed.

(** The four paths of [sample_tree]. *)
Lemma getAllPaths_enumerates_witness :
  exists paths,
    getAllPaths sample_tree 3 = Ok paths
    /\ paths = Spec.enumerate sample_tree []
    /\ List.length paths
       = (Spec.count_directories sample_tree + Spec.count_posts sample_tree)%nat
    /\ (forall path, In path paths <-> Spec.is_route sample_tree path)
    /\ (Spec.routes_distinct sample_tree -> NoDup paths).
Proof.
  apply (getAllPaths_enumerates sample_tree 3).
  - vm_compute. repeat constructor; simpl; intuition discriminate.
  - eexists. reflexivity.
  - vm_compute. lia.
Defined.

(** C2, counterexample.  A directory with [post.md] and [post.mdx]: the
    path [post] is returned twice. *)
Lemma getAllPaths_duplicate_counterexample :
  Fs.wf both_tree
  /\ ~ (forall paths, getAllPaths both_tree 2 = Ok paths -> NoDup paths).
Proof.
  split.
  - vm_compute. repeat constructor; simpl; intuition discriminate.
  - intros H. specialize (H [["post"]; ["post"]] eq_refl).
    inversion H as [|? ? Hnotin _]; subst.
    apply Hnotin. left. reflexivity.
Qed.

End ContentFacts.


(* ===================================================================== *)
(** * Part III.  Further properties of the code *)
(* ===================================================================== *)

(** ** The sorted listing and its controls *)

Module DirectoryListingMore.
Import DirectoryEntry DirectoryListing DirectoryListingControls JsArray.

Lemma StronglySorted_nth_error {A : Type} (R : A -> A -> Prop) (l : list A) :
  StronglySorted R l ->
  forall i j a b,
    (i < j)%nat -> nth_error l i = Some a -> nth_error l j = Some b -> R a b.
Proof.
  induction 1 as [|x l Hl IH Hx]; intros i j a b Hij Hi Hj.
  - destruct i; discriminate.
  - destruct j as [|j]; [lia|].
    destruct i as [|i]; simpl in Hi, Hj.
    + injection Hi as <-. rewrite Forall_forall in Hx.
      apply Hx. eapply nth_error_In. eassumption.
    + apply (IH i j); [lia|assumption|assumption].
Qed.

(** X1.  Sorting loses no entry and invents none: the sorted list is a
    rearrangement of the entries, for every column, order and collation. *)
Theorem sorted_Permutation (localeCompare : string -> string -> Z)
        (sortColumn : SortColumn) (sortOrder : SortOrder)
        (entries : list DirectoryEntry.t) :
  Permutation entries (sorted localeCompare sortColumn sortOrder entries)
  /\ List.length (sorted localeCompare sortColumn sortOrder entries)
     = List.length entries.
Proof.
  assert (H : Permutation entries
                          (sorted localeCompare sortColumn sortOrder entries))
    by apply JsArrayFacts.sort_Permutation.
  split; [exact H|]. symmetry. apply Permutation_length, H.
Qed.

(** X2.  The sorted list is in the order of the comparator: with a
    consistent collation, an entry never stands before one that compares
    smaller. *)
Theorem sorted_ordered (localeCompare : string -> string -> Z)
        (sortColumn : SortColumn) (sortOrder : SortOrder)
        (entries : list DirectoryEntry.t) (i j : nat)
        (a b : DirectoryEntry.t) :
  ConsistentComparator localeCompare ->
  (i < j)%nat ->
  nth_error (sorted localeCompare sortColumn sortOrder entries) i = Some a ->
  nth_error (sorted localeCompare sortColumn sortOrder entries) j = Some b ->
  comparator localeCompare sortColumn sortOrder a b <= 0.
Proof.
  intros Hcc.
  apply (StronglySorted_nth_error
           (fun a b => comparator localeCompare sortColumn sortOrder a b <= 0)).
  apply JsArrayFacts.sort_sorted.
  apply DirectoryListingFacts.comparator_consistent, Hcc.
Qed.

Lemma sorted_ordered_witness :
  comparator codeUnitCompare size_col desc archives_entry hello_entry <= 0.
Proof.
  apply (sorted_ordered codeUnitCompare size_col desc
                        [hello_entry; archives_entry] 0 1
                        archives_entry hello_entry
                        DirectoryListingFacts.codeUnitCompare_consistent).
  - lia.
  - reflexivity.
  - reflexivity.
Defined.

(** X3.  Sorting a sorted list changes nothing: with a consistent
    collation, sorting twice by the same column and order gives what
    sorting once gives. *)
Theorem sorted_idempotent (localeCompare : string -> string -> Z)
        (sortColumn : SortColumn) (sortOrder : SortOrder)
        (entries : list DirectoryEntry.t) :
  ConsistentComparator localeCompare ->
  sorted localeCompare sortColumn sortOrder
         (sorted localeCompare sortColumn sortOrder entries)
  = sorted localeCompare sortColumn sortOrder entries.
Proof.
  intros Hcc. unfold sorted.
  pose proof (DirectoryListingFacts.comparator_consistent
                localeCompare Hcc sortColumn sortOrder) as Hc.
  symmetry. apply (JsArrayFacts.sort_unique _ Hc).
  - apply JsArrayFacts.sort_sorted, Hc.
  - intros x. reflexivity.
Qed.

Lemma sorted_idempotent_witness :
  sorted codeUnitCompare name_col asc
         (sorted codeUnitCompare name_col asc
                 [notes_entry; hello_entry; archives_entry])
  = sorted codeUnitCompare name_col asc
           [notes_entry; hello_entry; archives_entry].
Proof.
  apply (sorted_idempotent codeUnitCompare name_col asc
                           [notes_entry; hello_entry; archives_entry]
                           DirectoryListingFacts.codeUnitCompare_consistent).
Defined.

Lemma SortColumn_eqb_eq (a b : SortColumn) :
  SortColumn_eqb a b = true <-> a = b.
Proof. destruct a, b; simpl; split; intros H; congruence. Qed.

Lemma handleSort_same (column : SortColumn) (order : SortOrder) :
  handleSort column (mkState column order)
  = mkState column (match order with asc => desc | desc => asc end).
Proof.
  unfold handleSort. cbn [sortColumn sortOrder].
  rewrite (proj2 (SortColumn_eqb_eq column column) eq_refl). reflexivity.
Qed.

(** X4.  Clicking a column header [n + 1] times in a row sorts by that
    column; if another column was selected before, the order is ascending
    after an odd number of clicks and descending after an even number; if
    the column was selected already, the order it had comes back after an
    even number of clicks and is reversed after an odd number. *)
Theorem handleSort_clicks (column : SortColumn) (n : nat) (st : state) :
  Nat.iter (S n) (handleSort column) st
  = mkState column
            (if SortColumn_eqb (sortColumn st) column
             then (if Nat.even n
                   then match sortOrder st with asc => desc | desc => asc end
                   else sortOrder st)
             else (if Nat.even n then asc else desc)).
Proof.
  induction n as [|n IH].
  - simpl. unfold handleSort.
    destruct (SortColumn_eqb (sortColumn st) column) eqn:E; [|reflexivity].
    apply SortColumn_eqb_eq in E. rewrite E. reflexivity.
  - change (Nat.iter (S (S n)) (handleSort column) st)
      with (handleSort column (Nat.iter (S n) (handleSort column) st)).
    rewrite IH, handleSort_same.
    rewrite Nat.even_succ, <- Nat.negb_even.
    destruct (SortColumn_eqb (sortColumn st) column), (Nat.even n),
      (sortOrder st); reflexivity.
Qed.

End DirectoryListingMore.

(** ** The listing of a directory, item by item *)

Module ListingFacts.
Import Content JsString ListingSpec.

Section Facts.
Variable root : Fs.node.
Variable matter : string -> GrayMatter.file.
Variable Date_parse : string -> JsDate.t.
Variable now : Z.

(** The body of the loop of [readDirectory]. *)
Local Abbreviation loop_body contentPath :=
  (fun (entries : list DirectoryEntry.t) (item : string) =>
     let itemPath := contentPath ++ [item] in
     stat <- Fs.statSync root itemPath ;;
     if Fs.isDirectory stat then
       date <- getDirectoryDate root matter Date_parse now itemPath ;;
       description <- getDirectoryDescription root matter itemPath ;;
       Ok (entries ++
           [DirectoryEntry.mk (item +:+ "/") true "" date 0 description
              ("/" +:+ join "/" (contentPath ++ [item]))])
     else if is_post_name item then
       raw <- Fs.readFileSync root itemPath ;;
       let data := GrayMatter.data (matter raw) in
       let slug := replace_mdx_ext item in
       date <-
         (if GrayMatter.truthy_date (GrayMatter.date data)
          then JsDate.isoDay (new_Date Date_parse (GrayMatter.date data))
          else JsDate.isoDay (Fs.mtime stat)) ;;
       Ok (entries ++
           [DirectoryEntry.mk item false (Path.extname item) date
              (Z.of_nat (String.length raw))
              (or_else (GrayMatter.description data) "")
              ("/" +:+ join "/" (contentPath ++ [slug]))])
     else Ok entries).

Lemma readDirectory_Dir (contentPath : list string)
      (items : list (string * Fs.node)) :
  Fs.resolve root contentPath = Some (Fs.Dir items) ->
  readDirectory root matter Date_parse now contentPath
  = for_of (map fst items) [] (loop_body contentPath).
Proof.
  intros H. unfold readDirectory, Fs.existsSync, Fs.statSync at 1,
              Fs.readdirSync.
  rewrite H. reflexivity.
Qed.

Lemma loop_body_step (contentPath : list string) (item : string) (c : Fs.node)
      (acc : list DirectoryEntry.t) :
  Fs.resolve root (contentPath ++ [item]) = Some c ->
  forall acc',
    loop_body contentPath acc item = Ok acc'
    <-> (Spec.is_routable c item = false /\ acc' = acc)
        \/ (Spec.is_routable c item = true
            /\ exists e, item_entry root matter Date_parse now
                                    contentPath item c e
                         /\ acc' = acc ++ [e]).
Proof.
  intros Hres acc'. cbv beta zeta.
  unfold Fs.statSync, Fs.readFileSync. rewrite Hres.
  destruct c as [raw mt|sub]; cbn [bind Fs.isDirectory Fs.mtime
                                        Spec.is_routable item_entry].
  - destruct (is_post_name item); cbn [bind].
    + assert (Hdate :
                (if GrayMatter.truthy_date
                      (GrayMatter.date (GrayMatter.data (matter raw)))
                 then JsDate.isoDay
                        (new_Date Date_parse
                                  (GrayMatter.date (GrayMatter.data (matter raw))))
                 else JsDate.isoDay (JsDate.TimeClip mt))
                = JsDate.isoDay (Spec.post_date matter Date_parse raw mt)).
      { unfold Spec.post_date. cbv zeta.
        destruct (GrayMatter.truthy_date
                    (GrayMatter.date (GrayMatter.data (matter raw))));
          reflexivity. }
      rewrite Hdate. split.
      * intros H. right. split; [reflexivity|].
        apply bind_Ok_inv in H. destruct H as (date & Hd & H).
        injection H as <-. eexists. split; [|reflexivity].
        exists date. split; [exact Hd|reflexivity].
      * intros [[H _]|[_ (e & (date & Hd & ->) & ->)]]; [discriminate|].
        rewrite Hd. reflexivity.
    + split.
      * intros H. injection H as <-. left. split; reflexivity.
      * intros [[_ ->]|[H _]]; [reflexivity|discriminate].
  - split.
    + intros H. right. split; [reflexivity|].
      apply bind_Ok_inv in H. destruct H as (date & Hd & H).
      apply bind_Ok_inv in H. destruct H as (descr & Hdescr & H).
      injection H as <-. eexists. split; [|reflexivity].
      exists date, descr. auto.
    + intros [[H _]|[_ (e & (date & descr & Hd & Hdescr & ->) & ->)]];
        [discriminate|].
      rewrite Hd. cbn [bind]. rewrite Hdescr. reflexivity.
Qed.

Lemma readDirectory_loop (contentPath : list string)
      (items : list (string * Fs.node)) :
  Fs.resolve root contentPath = Some (Fs.Dir items) ->
  forall (l : list (string * Fs.node)) (acc r : list DirectoryEntry.t),
    (forall item c, In (item, c) l -> Fs.child items item = Some c) ->
    for_of (map fst l) acc (loop_body contentPath) = Ok r
    <-> exists es,
        r = acc ++ es
        /\ Forall2 (fun ic e => item_entry root matter Date_parse now
                                           contentPath (fst ic) (snd ic) e)
                   (listed l) es.
Proof.
  intros Hres l.
  induction l as [|[item c] l IH]; intros acc r Hl.
  - simpl. split.
    + intros H. injection H as <-. exists []. rewrite app_nil_r.
      split; [reflexivity|constructor].
    + intros (es & -> & Hes). inversion Hes. rewrite app_nil_r. reflexivity.
  - assert (Hc : Fs.resolve root (contentPath ++ [item]) = Some c).
    { rewrite (FsFacts.resolve_snoc_Dir root contentPath items item Hres).
      apply Hl. left. reflexivity. }
    assert (Hl' : forall item0 c0, In (item0, c0) l ->
                                   Fs.child items item0 = Some c0)
      by (intros item0 c0 Hin; apply Hl; right; exact Hin).
    pose proof (loop_body_step contentPath item c acc Hc) as Hstep.
    cbn [map fst for_of]. unfold listed. cbn [filter fst snd].
    fold (listed l).
    split.
    + intros H. apply bind_Ok_inv in H. destruct H as (acc' & Hbody & H).
      apply Hstep in Hbody. apply (IH acc' r Hl') in H.
      destruct H as (es & -> & Hes).
      destruct Hbody as [[Hr ->]|[Hr (e & He & ->)]]; rewrite Hr.
      * exists es. split; [reflexivity|exact Hes].
      * exists (e :: es). split; [rewrite <- app_assoc; reflexivity|].
        constructor; assumption.
    + intros (es & -> & Hes).
      destruct (Spec.is_routable c item) eqn:Hr.
      * inversion Hes as [|? e ? es' He Hes' E1 E2]; subst.
        assert (Hbody : loop_body contentPath acc item = Ok (acc ++ [e])).
        { apply Hstep. right. split; [reflexivity|]. eauto. }
        cbv beta zeta in Hbody |- *. rewrite Hbody. cbn [bind].
        apply (IH (acc ++ [e]) _ Hl'). exists es'.
        split; [rewrite <- app_assoc; reflexivity|exact Hes'].
      * assert (Hbody : loop_body contentPath acc item = Ok acc).
        { apply Hstep. left. split; reflexivity. }
        cbv beta zeta in Hbody |- *. rewrite Hbody. cbn [bind].
        apply (IH acc _ Hl'). exists es. split; [reflexivity|exact Hes].
Qed.

(** [readDirectory] returns a list exactly when every listed item gives its
    entry, and the list is made of these entries, in the order of the
    directory. *)
Lemma readDirectory_iff (contentPath : list string)
      (items : list (string * Fs.node)) (entries : list DirectoryEntry.t) :
  Fs.resolve root contentPath = Some (Fs.Dir items) ->
  NoDup (map fst items) ->
  readDirectory root matter Date_parse now contentPath = Ok entries
  <-> Forall2 (fun ic e => item_entry root matter Date_parse now
                                      contentPath (fst ic) (snd ic) e)
              (listed items) entries.
Proof.
  intros Hres Hnd. rewrite (readDirectory_Dir contentPath items Hres).
  rewrite (readDirectory_loop contentPath items Hres items [] entries
             (fun item c => FsFacts.In_child items item c Hnd)).
  split.
  - intros (es & -> & Hes). exact Hes.
  - intros H. exists entries. split; [reflexivity|exact H].
Qed.

Lemma Forall2_In_l {A B : Type} (R : A -> B -> Prop) (l : list A)
      (bs : list B) (a : A) :
  Forall2 R l bs -> In a l -> exists b, In b bs /\ R a b.
Proof.
  induction 1 as [|a' b' l bs Hab H IH]; intros Hin; [contradiction|].
  destruct Hin as [->|Hin].
  - exists b'. split; [left; reflexivity|exact Hab].
  - destruct (IH Hin) as (b & Hb & HR). exists b. split; [right|]; assumption.
Qed.

Lemma listed_In (items : list (string * Fs.node)) (item : string)
      (c : Fs.node) :
  In (item, c) (listed items)
  <-> In (item, c) items /\ Spec.is_routable c item = true.
Proof. unfold listed. rewrite filter_In. reflexivity. Qed.

(** X5.  The listing of a directory has one entry for each of its
    subdirectories and each of its post files, and no other, in the order
    in which the directory lists them; the name of an entry is the name of
    the item, followed by a slash for a subdirectory. *)
Theorem readDirectory_names (contentPath : list string)
        (items : list (string * Fs.node)) (entries : list DirectoryEntry.t) :
  Fs.resolve root contentPath = Some (Fs.Dir items) ->
  NoDup (map fst items) ->
  readDirectory root matter Date_parse now contentPath = Ok entries ->
  map (fun e => (DirectoryEntry.name e, DirectoryEntry.isDirectory e)) entries
  = map (fun ic : string * Fs.node =>
           match snd ic with
           | Fs.Dir _ => (fst ic +:+ "/", true)
           | Fs.File _ _ => (fst ic, false)
           end)
        (listed items).
Proof.
  intros Hres Hnd H.
  apply (readDirectory_iff contentPath items entries Hres Hnd) in H.
  induction H as [|[item c] e l es He H IH]; [reflexivity|].
  cbn [map fst snd]. rewrite IH. f_equal.
  destruct c as [raw mt|sub]; cbn [item_entry fst snd] in He.
  - destruct He as (date & _ & ->). reflexivity.
  - destruct He as (date & descr & _ & _ & ->). reflexivity.
Qed.

Lemma isoDay_Ok_iff (d : JsDate.t) :
  (exists date, JsDate.isoDay d = Ok date) <-> d <> None.
Proof.
  destruct d as [time|].
  - rewrite JsDateFacts.isoDay_Some. split; [discriminate|eauto].
  - split; [intros (date & H); discriminate|congruence].
Qed.

Lemma TimeClip_in_range (time : Z) :
  Z.abs time <= 8640000000000000 -> JsDate.TimeClip time = Some time.
Proof.
  intros H. unfold JsDate.TimeClip.
  destruct (Z.leb_spec (Z.abs time) 8640000000000000); [reflexivity|lia].
Qed.

(** A loop that stops on an exception stopped in one of its rounds, which
    was entered with an accumulator that the rounds before had kept
    within the invariant. *)
Lemma for_of_Throw {A B : Type} (P : B -> Prop) (xs : list A)
      (body : B -> A -> result B) (e : exn) :
  (forall acc x acc', In x xs -> P acc -> body acc x = Ok acc' -> P acc') ->
  forall acc,
    P acc -> for_of xs acc body = Throw e ->
    exists acc0 x, In x xs /\ P acc0 /\ body acc0 x = Throw e.
Proof.
  induction xs as [|x xs IH]; intros Hbody acc Hacc H; simpl in H.
  - discriminate.
  - destruct (body acc x) as [acc'|e'] eqn:Hx; cbn [bind] in H.
    + destruct (IH (fun acc0 x0 acc0' Hin => Hbody acc0 x0 acc0' (or_intror Hin))
                   acc' (Hbody acc x acc' (or_introl eq_refl) Hacc Hx) H)
        as (acc0 & x0 & Hin & HP & Hthrow).
      exists acc0, x0. split; [right; exact Hin|]. split; assumption.
    + injection H as ->. exists acc, x.
      split; [left; reflexivity|]. split; assumption.
Qed.

(** The body of the loop of [getDirectoryDate]. *)
Local Abbreviation date_body dirPath :=
  (fun (latestDate : JsDate.t) (item : string) =>
     let itemPath := dirPath ++ [item] in
     stat <- Fs.statSync root itemPath ;;
     if negb (Fs.isDirectory stat) && is_post_name item then
       raw <- Fs.readFileSync root itemPath ;;
       let data := GrayMatter.data (matter raw) in
       let d :=
         if GrayMatter.truthy_date (GrayMatter.date data)
         then new_Date Date_parse (GrayMatter.date data)
         else Fs.mtime stat in
       Ok (if JsDate.gt d latestDate then d else latestDate)
     else Ok latestDate).

(** [latestDate] stays a valid date: [d > latestDate] is false of a date
    that is not valid. *)
Lemma date_body_valid (dirPath : list string) (latestDate : JsDate.t)
      (item : string) (latestDate' : JsDate.t) :
  latestDate <> None ->
  date_body dirPath latestDate item = Ok latestDate' ->
  latestDate' <> None.
Proof.
  intros Hvalid H. cbv beta zeta in H.
  apply bind_Ok_inv in H. destruct H as (stat & _ & H).
  destruct (negb (Fs.isDirectory stat) && is_post_name item).
  - apply bind_Ok_inv in H. destruct H as (raw & _ & H).
    injection H as <-.
    match goal with
    | |- (if JsDate.gt ?d _ then _ else _) <> None =>
        destruct d as [x|]; destruct latestDate as [y|]; cbn [JsDate.gt];
          try destruct (y <? x); congruence
    end.
  - injection H as <-. exact Hvalid.
Qed.

(** A round of the loop throws what [statSync] or [readFileSync] throws. *)
Lemma date_body_Throw (dirPath : list string) (latestDate : JsDate.t)
      (item : string) :
  date_body dirPath latestDate item <> Throw RangeError.
Proof.
  cbv beta zeta. unfold Fs.statSync, Fs.readFileSync.
  destruct (Fs.resolve root (dirPath ++ [item])) as [[raw mt|sub]|];
    cbn [bind Fs.isDirectory negb andb]; try discriminate.
  destruct (is_post_name item); cbn [bind]; discriminate.
Qed.

Lemma bind_not_Throw {A B : Type} (r : result A) (k : A -> result B)
      (e : exn) :
  r <> Throw e -> (forall a, r = Ok a -> k a <> Throw e) ->
  bind r k <> Throw e.
Proof.
  intros Hr Hk. destruct r as [a|e']; cbn [bind].
  - apply Hk. reflexivity.
  - intros E. apply Hr. congruence.
Qed.

Lemma getDirectoryDate_not_RangeError (dirPath : list string) :
  Z.abs now <= 8640000000000000 ->
  getDirectoryDate root matter Date_parse now dirPath <> Throw RangeError.
Proof.
  intros Hnow. unfold getDirectoryDate.
  apply bind_not_Throw.
  { unfold Fs.readdirSync.
    destruct (Fs.resolve root dirPath) as [[raw mt|sub]|]; discriminate. }
  intros items _. apply bind_not_Throw.
  - intros Hloop.
    destruct (for_of_Throw (fun _ : JsDate.t => True) items (date_body dirPath)
                           RangeError (fun _ _ _ _ _ _ => I) (Some 0) I Hloop)
      as (acc0 & x & _ & _ & Hthrow).
    exact (date_body_Throw dirPath acc0 x Hthrow).
  - intros latest Hloop.
    assert (Hvalid : latest <> None).
    { apply (for_of_invariant (fun d : JsDate.t => d <> None) items
                              (date_body dirPath)
                              (fun acc x acc' _ => date_body_valid dirPath acc x acc')
                              (Some 0) latest); [discriminate|exact Hloop]. }
    destruct latest as [time|]; [|congruence].
    cbn [JsDate.getTime_is_0]. destruct (time =? 0).
    + rewrite TimeClip_in_range, JsDateFacts.isoDay_Some by assumption.
      discriminate.
    + rewrite JsDateFacts.isoDay_Some. discriminate.
Qed.

(** X6.  [getDirectoryDate] never throws a RangeError: a post whose date
    is not a valid date is passed over, since it does not compare greater
    than the latest date so far, and [toISOString] is called on a valid
    date or on the clock only.  (The clock shows a time that a Date can
    hold.) *)
Theorem getDirectoryDate_no_RangeError (dirPath : list string) :
  Z.abs now <= 8640000000000000 ->
  getDirectoryDate root matter Date_parse now dirPath <> Throw RangeError.
Proof. apply getDirectoryDate_not_RangeError. Qed.

(** [getDirectoryDescription] returns only when [index.mdx] is no
    directory, and throws what [readFileSync] throws. *)
Lemma getDirectoryDescription_Ok (dirPath : list string)
      (sub : list (string * Fs.node)) (description : string) :
  Fs.resolve root dirPath = Some (Fs.Dir sub) ->
  getDirectoryDescription root matter dirPath = Ok description ->
  forall sub', Fs.child sub "index.mdx" <> Some (Fs.Dir sub').
Proof.
  intros Hres.
  unfold getDirectoryDescription, Fs.existsSync, Fs.readFileSync.
  rewrite (FsFacts.resolve_snoc_Dir root dirPath sub "index.mdx" Hres).
  destruct (Fs.child sub "index.mdx") as [[raw mt|sub'']|]; cbn [bind];
    intros H sub'; discriminate.
Qed.

Lemma getDirectoryDescription_not_RangeError (dirPath : list string) :
  getDirectoryDescription root matter dirPath <> Throw RangeError.
Proof.
  unfold getDirectoryDescription, Fs.existsSync, Fs.readFileSync.
  destruct (Fs.resolve root (dirPath ++ ["index.mdx"])) as [[raw mt|sub]|];
    cbn [bind]; discriminate.
Qed.

(** A round of the loop of [readDirectory] throws a RangeError only for a
    post file without a valid date. *)
Lemma loop_body_RangeError (contentPath : list string)
      (entries : list DirectoryEntry.t) (item : string) :
  Z.abs now <= 8640000000000000 ->
  loop_body contentPath entries item = Throw RangeError ->
  exists raw mtimeMs,
    Fs.resolve root (contentPath ++ [item]) = Some (Fs.File raw mtimeMs)
    /\ is_post_name item = true
    /\ Spec.post_date matter Date_parse raw mtimeMs = None.
Proof.
  intros Hnow. cbv beta zeta. unfold Fs.statSync, Fs.readFileSync.
  destruct (Fs.resolve root (contentPath ++ [item])) as [[raw mt|sub]|];
    cbn [bind Fs.isDirectory Fs.mtime]; [| |discriminate].
  - destruct (is_post_name item); cbn [bind]; [|discriminate].
    intros H. exists raw, mt. split; [reflexivity|]. split; [reflexivity|].
    unfold Spec.post_date. cbv zeta.
    destruct (GrayMatter.truthy_date
                (GrayMatter.date (GrayMatter.data (matter raw))));
      match type of H with
      | bind (JsDate.isoDay ?d) _ = _ =>
          destruct d as [time|]; [|reflexivity];
            rewrite JsDateFacts.isoDay_Some in H; discriminate
      end.
  - intros H.
    pose proof (getDirectoryDate_not_RangeError (contentPath ++ [item]) Hnow)
      as Hdate.
    pose proof (getDirectoryDescription_not_RangeError (contentPath ++ [item]))
      as Hdescr.
    destruct (getDirectoryDate root matter Date_parse now (contentPath ++ [item]))
      as [date|e]; cbn [bind] in H; [|congruence].
    destruct (getDirectoryDescription root matter (contentPath ++ [item]))
      as [descr|e]; cbn [bind] in H; [discriminate|congruence].
Qed.

(** X7.  Dates and the listing of a directory.  In a content tree without
    two entries of one name in a directory, and with the clock in the range
    of a Date: when [readDirectory] returns the listing of a directory, each
    post file of the directory has a valid date (that of its metadata
    block, or else its modification time) and no subdirectory holds a
    directory named [index.mdx]; and when [readDirectory] throws a
    RangeError, a post file of the directory itself has no valid date: the
    posts of a subdirectory never cause one. *)
Theorem readDirectory_invalid_date (contentPath : list string)
        (items : list (string * Fs.node)) :
  Fs.wf root ->
  Fs.resolve root contentPath = Some (Fs.Dir items) ->
  Z.abs now <= 8640000000000000 ->
  (forall entries,
      readDirectory root matter Date_parse now contentPath = Ok entries ->
      (forall item raw mtimeMs,
          In (item, Fs.File raw mtimeMs) items ->
          is_post_name item = true ->
          Spec.post_date matter Date_parse raw mtimeMs <> None)
      /\ (forall item sub sub',
             In (item, Fs.Dir sub) items ->
             Fs.child sub "index.mdx" <> Some (Fs.Dir sub')))
  /\ (readDirectory root matter Date_parse now contentPath = Throw RangeError ->
      exists item raw mtimeMs,
        In (item, Fs.File raw mtimeMs) items
        /\ is_post_name item = true
        /\ Spec.post_date matter Date_parse raw mtimeMs = None).
Proof.
  intros Hwf Hres Hnow.
  pose proof (FsFacts.wf_resolve _ _ _ Hwf Hres) as Hwfd.
  apply FsFacts.wf_Dir in Hwfd. destruct Hwfd as [Hnd Hwfc].
  assert (Hsub : forall item c, In (item, c) items ->
                   Fs.resolve root (contentPath ++ [item]) = Some c).
  { intros item c Hin.
    rewrite (FsFacts.resolve_snoc_Dir root contentPath items item Hres).
    apply FsFacts.In_child; assumption. }
  split.
  - intros entries H.
    apply (readDirectory_iff contentPath items entries Hres Hnd) in H.
    split.
    + intros item raw mt Hin Hpost.
      destruct (Forall2_In_l _ _ _ (item, Fs.File raw mt) H) as (e & _ & He).
      { apply listed_In. split; [exact Hin|exact Hpost]. }
      cbn [item_entry fst snd] in He. destruct He as (date & Hd & _).
      apply isoDay_Ok_iff. eauto.
    + intros item sub sub' Hin.
      destruct (Forall2_In_l _ _ _ (item, Fs.Dir sub) H) as (e & _ & He).
      { apply listed_In. split; [exact Hin|reflexivity]. }
      cbn [item_entry fst snd] in He.
      destruct He as (date & descr & _ & Hdescr & _).
      apply (getDirectoryDescription_Ok _ sub descr (Hsub _ _ Hin) Hdescr).
  - intros H. rewrite (readDirectory_Dir contentPath items Hres) in H.
    destruct (for_of_Throw (fun _ : list DirectoryEntry.t => True)
                           (map fst items) (loop_body contentPath) RangeError
                           (fun _ _ _ _ _ _ => I) [] I H)
      as (acc0 & item & Hin & _ & Hthrow).
    destruct (loop_body_RangeError contentPath acc0 item Hnow Hthrow)
      as (raw & mt & Hitem & Hpost & Hdate).
    exists item, raw, mt. split; [|split; assumption].
    apply FsFacts.child_In.
    rewrite (FsFacts.resolve_snoc_Dir root contentPath items item Hres)
      in Hitem.
    exact Hitem.
Qed.

End Facts.

(** The listing of the root of [sample_tree]: [notes.txt] is left out. *)
Lemma readDirectory_names_witness :
  map (fun e => (DirectoryEntry.name e, DirectoryEntry.isDirectory e))
      sample_listing
  = [("archives/", true); ("hello.mdx", false)].
Proof.
  refine (eq_trans
            (readDirectory_names sample_tree sample_matter sample_Date_parse
                                 sample_now [] _ sample_listing eq_refl _ _) _).
  - vm_compute. repeat constructor; simpl; intuition discriminate.
  - vm_compute. reflexivity.
  - vm_compute. reflexivity.
Defined.

(** [getDirectoryDate] at [archives/] in [sample_tree]. *)
Lemma getDirectoryDate_no_RangeError_witness :
  getDirectoryDate sample_tree sample_matter sample_Date_parse sample_now
                   ["archives"] <> Throw RangeError.
Proof.
  apply (getDirectoryDate_no_RangeError
           sample_tree sample_matter sample_Date_parse sample_now ["archives"]).
  vm_compute. discriminate.
Defined.

(** The root of [sample_tree] is listed: its post [hello.mdx] has a valid
    date. *)
Lemma readDirectory_invalid_date_witness :
  Spec.post_date sample_matter sample_Date_parse "hello" 1771804800000 <> None.
Proof.
  refine (proj1 (proj1 (readDirectory_invalid_date
                          sample_tree sample_matter sample_Date_parse
                          sample_now [] _ _ eq_refl _)
                       sample_listing _)
                "hello.mdx" "hello" 1771804800000 _ eq_refl).
  - vm_compute. repeat constructor; simpl; intuition discriminate.
  - vm_compute. discriminate.
  - vm_compute. reflexivity.
  - right. left. reflexivity.
Defined.

End ListingFacts.

(** ** Names, slugs and paths as strings *)

Module SlugFacts.
Import JsString JsStringMore JsNumberFacts.

Lemma replace_mdx_ext_mdx (stem : string) :
  replace_mdx_ext (stem +:+ ".mdx") = stem.
Proof.
  induction stem as [|c stem IH]; [reflexivity|].
  cbn [String.append replace_mdx_ext].
  destruct (String.eqb_spec (String c (stem +:+ ".mdx")) ".mdx") as [E|_].
  { apply (f_equal String.length) in E. cbn [String.length] in E.
    rewrite length_append in E. simpl in E. lia. }
  destruct (String.eqb_spec (String c (stem +:+ ".mdx")) ".md") as [E|_].
  { apply (f_equal String.length) in E. cbn [String.length] in E.
    rewrite length_append in E. simpl in E. lia. }
  cbn [orb]. rewrite IH. reflexivity.
Qed.

Lemma replace_mdx_ext_md (stem : string) :
  replace_mdx_ext (stem +:+ ".md") = stem.
Proof.
  induction stem as [|c stem IH]; [reflexivity|].
  cbn [String.append replace_mdx_ext].
  destruct (String.eqb_spec (String c (stem +:+ ".md")) ".mdx") as [E|_].
  { destruct stem as [|c' stem]; [discriminate|].
    apply (f_equal String.length) in E. cbn [String.length String.append] in E.
    rewrite length_append in E. simpl in E. lia. }
  destruct (String.eqb_spec (String c (stem +:+ ".md")) ".md") as [E|_].
  { apply (f_equal String.length) in E. cbn [String.length] in E.
    rewrite length_append in E. simpl in E. lia. }
  cbn [orb]. rewrite IH. reflexivity.
Qed.

(** The name of a post file is its slug followed by its extension. *)
Lemma post_name_slug (item : string) :
  Content.is_post_name item = true ->
  (endsWith item ".mdx" = true /\ item = replace_mdx_ext item +:+ ".mdx")
  \/ (endsWith item ".mdx" = false /\ endsWith item ".md" = true
      /\ item = replace_mdx_ext item +:+ ".md").
Proof.
  unfold Content.is_post_name. intros H.
  destruct (endsWith item ".mdx") eqn:E.
  - left. split; [reflexivity|].
    apply PathFacts.endsWith_inv in E. destruct E as (stem & ->).
    rewrite replace_mdx_ext_mdx. reflexivity.
  - right. cbn [orb] in H. split; [reflexivity|]. split; [exact H|].
    apply PathFacts.endsWith_inv in H. destruct H as (stem & ->).
    rewrite replace_mdx_ext_md. reflexivity.
Qed.

End SlugFacts.

(** ** The resolver's functions together *)

Module ContentMore.
Import Content JsString.

Section Facts.
Variable root : Fs.node.
Variable matter : string -> GrayMatter.file.
Variable Date_parse : string -> JsDate.t.
Variable now : Z.

Lemma readDirectory_href_target (contentPath : list string)
      (entries : list DirectoryEntry.t) (e : DirectoryEntry.t) :
  readDirectory root matter Date_parse now contentPath = Ok entries ->
  In e entries ->
  exists target,
    DirectoryEntry.href e = "/" +:+ join "/" target
    /\ if DirectoryEntry.isDirectory e
       then isDirectory root target = Ok true
       else isPost root target = true.
Proof.
  intros H Hin.
  destruct (ContentFacts.readDirectory_inv root matter Date_parse now
              contentPath entries e H Hin)
    as (items & item & Hdir & Hitem & [Hsub|Hfile]).
  - destruct Hsub as (sub & date & descr & Hres & _ & _ & ->).
    exists (contentPath ++ [item]). cbn [DirectoryEntry.href
                                           DirectoryEntry.isDirectory].
    split; [reflexivity|].
    unfold isDirectory, Fs.existsSync, Fs.statSync. rewrite Hres. reflexivity.
  - destruct Hfile as (raw & mt & date & Hres & Hpost & _ & ->).
    exists (contentPath ++ [replace_mdx_ext item]).
    cbn [DirectoryEntry.href DirectoryEntry.isDirectory].
    split; [reflexivity|].
    unfold isPost, Fs.existsSync. rewrite !FsFacts.add_suffix_snoc.
    destruct (SlugFacts.post_name_slug item Hpost) as [[_ E]|(_ & _ & E)];
      rewrite <- E, Hres.
    + reflexivity.
    + apply orb_true_r.
Qed.

(** X8.  The links of a listing lead somewhere: the [href] of a
    subdirectory's entry is the path of a directory, and the [href] of a
    post's entry is a path at which [isPost] holds.  (For a post whose
    slug is a plain name: [path.join] would drop an empty slug or resolve
    a slug [.] or [..].) *)
Theorem readDirectory_links_resolve (contentPath : list string)
        (entries : list DirectoryEntry.t) (e : DirectoryEntry.t) :
  readDirectory root matter Date_parse now contentPath = Ok entries ->
  In e entries ->
  (DirectoryEntry.isDirectory e = false ->
   PlainPath.plain_name (replace_mdx_ext (DirectoryEntry.name e))) ->
  exists target,
    DirectoryEntry.href e = "/" +:+ join "/" target
    /\ if DirectoryEntry.isDirectory e
       then isDirectory root target = Ok true
       else isPost root target = true.
Proof. intros H Hin _. apply (readDirectory_href_target _ _ _ H Hin). Qed.

(** X9.  The listing and the post agree.  Take the entry of a post file in
    the listing of a directory, with a plain name for slug, and the path its
    [href] names; if the file is
    an [.mdx] file, or no entry of the directory has the same name with
    [.mdx], then [readPost] at that path returns the post of this file: its
    description is the description of the entry, its slug is the [href]
    without the leading slash, and its date is the date of the entry when the
    metadata block has a date, and empty otherwise. *)
Theorem readDirectory_entry_readPost (contentPath : list string)
        (entries : list DirectoryEntry.t) (e : DirectoryEntry.t) :
  readDirectory root matter Date_parse now contentPath = Ok entries ->
  In e entries ->
  DirectoryEntry.isDirectory e = false ->
  PlainPath.plain_name (replace_mdx_ext (DirectoryEntry.name e)) ->
  (endsWith (DirectoryEntry.name e) ".mdx" = true
   \/ Fs.resolve root (contentPath
                         ++ [replace_mdx_ext (DirectoryEntry.name e) +:+ ".mdx"])
      = None) ->
  exists raw mtimeMs post,
    Fs.resolve root (contentPath ++ [DirectoryEntry.name e])
    = Some (Fs.File raw mtimeMs)
    /\ readPost root matter Date_parse
                (contentPath ++ [replace_mdx_ext (DirectoryEntry.name e)])
       = Ok (Some post)
    /\ PostData.content post = GrayMatter.content (matter raw)
    /\ PostData.description post = DirectoryEntry.description e
    /\ DirectoryEntry.href e = "/" +:+ PostData.slug post
    /\ PostData.date post
       = if GrayMatter.truthy_date
              (GrayMatter.date (GrayMatter.data (matter raw)))
         then DirectoryEntry.date e
         else "".
Proof.
  intros H Hin Hfile _ Hown.
  destruct (ContentFacts.readDirectory_inv root matter Date_parse now
              contentPath entries e H Hin)
    as (items & item & Hdir & Hitem & [Hsub|Hf]).
  { destruct Hsub as (sub & date & descr & _ & _ & _ & ->). discriminate. }
  destruct Hf as (raw & mt & date & Hres & Hpost & Hdate & ->).
  cbn [DirectoryEntry.name DirectoryEntry.description DirectoryEntry.href
       DirectoryEntry.date] in *.
  assert (Hat : Spec.post_file_at root contentPath (replace_mdx_ext item) raw).
  { destruct (SlugFacts.post_name_slug item Hpost) as [[_ E]|(Hn & _ & E)].
    - left. exists mt. rewrite <- E. exact Hres.
    - destruct Hown as [Hown|Hown]; [congruence|].
      right. split; [exact Hown|]. exists mt. rewrite <- E. exact Hres. }
  exists raw, mt.
  rewrite (ContentFacts.readPost_post_file root matter Date_parse
             contentPath (replace_mdx_ext item) raw Hat).
  unfold Spec.post_date in Hdate. cbv zeta in Hdate.
  destruct (GrayMatter.truthy_date
              (GrayMatter.date (GrayMatter.data (matter raw)))).
  - rewrite Hdate. cbn [bind]. eexists.
    split; [exact Hres|]. repeat split; reflexivity.
  - cbn [bind]. eexists.
    split; [exact Hres|]. repeat split; reflexivity.
Qed.

Lemma readPost_None_iff (contentPath : list string) :
  readPost root matter Date_parse contentPath = Ok None
  <-> isPost root contentPath = false.
Proof.
  unfold readPost, isPost, Fs.readFileSync, Fs.existsSync.
  destruct (Fs.resolve root (Path.add_suffix contentPath ".mdx"))
    as [[raw mt|sub]|] eqn:Hmdx; cbv beta iota zeta; rewrite ?Hmdx.
  - cbn [bind orb]. split; [|discriminate].
    intros H. apply bind_Ok_inv in H. destruct H as (d & _ & H). discriminate.
  - cbn [bind orb]. split; discriminate.
  - destruct (Fs.resolve root (Path.add_suffix contentPath ".md"))
      as [[raw mt|sub]|] eqn:Hmd; cbv beta iota zeta; rewrite ?Hmd.
    + cbn [bind orb]. split; [|discriminate].
      intros H. apply bind_Ok_inv in H. destruct H as (d & _ & H).
      discriminate.
    + cbn [bind orb]. split; discriminate.
    + split; reflexivity.
Qed.

(** X10.  [readPost] returns [null] exactly when [isPost] is false: a page
    that has tested [isPost] never finds its post missing. *)
Theorem readPost_null_iff (contentPath : list string) :
  readPost root matter Date_parse contentPath = Ok None
  <-> isPost root contentPath = false.
Proof. apply readPost_None_iff. Qed.

(** X11.  A date that is no date.  For the post file that [readPost]
    reads: when [readPost] throws a RangeError, the metadata block has a
    date that is not a valid date; and when [readPost] returns, the
    metadata block has no date or a valid one, so that a post with a date
    that is no date is never returned. *)
Theorem readPost_invalid_date (dir : list string) (base raw : string) :
  Spec.post_file_at root dir base raw ->
  (readPost root matter Date_parse (dir ++ [base]) = Throw RangeError ->
   GrayMatter.truthy_date (GrayMatter.date (GrayMatter.data (matter raw)))
   = true
   /\ new_Date Date_parse (GrayMatter.date (GrayMatter.data (matter raw)))
      = None)
  /\ (forall r,
         readPost root matter Date_parse (dir ++ [base]) = Ok r ->
         GrayMatter.truthy_date
           (GrayMatter.date (GrayMatter.data (matter raw))) = false
         \/ new_Date Date_parse
                     (GrayMatter.date (GrayMatter.data (matter raw)))
            <> None).
Proof.
  intros Hat.
  rewrite (ContentFacts.readPost_post_file root matter Date_parse
             dir base raw Hat).
  destruct (GrayMatter.truthy_date
              (GrayMatter.date (GrayMatter.data (matter raw)))).
  - destruct (new_Date Date_parse
                       (GrayMatter.date (GrayMatter.data (matter raw))))
      as [time|].
    + rewrite JsDateFacts.isoDay_Some. cbn [bind]. split.
      * discriminate.
      * intros r _. right. discriminate.
    + cbn [JsDate.isoDay JsDate.toISOString bind]. split.
      * intros _. split; reflexivity.
      * intros r H. discriminate.
  - cbn [bind]. split.
    + discriminate.
    + intros r _. left. reflexivity.
Qed.

(** X12.  The type column of a listing.  Every entry that [readDirectory]
    returns is shown with [[DIR]] when it is a subdirectory and with [[TXT]]
    when it is a post file; the other tags of the table are never reached
    from a listing.  The one exception is a file named exactly [.mdx] or
    [.md], which has no extension and is shown with the tag of unknown
    types. *)
Theorem readDirectory_type_indicator (contentPath : list string)
        (entries : list DirectoryEntry.t) (e : DirectoryEntry.t) :
  readDirectory root matter Date_parse now contentPath = Ok entries ->
  In e entries ->
  (DirectoryEntry.isDirectory e = true
   /\ Shared.getTypeIndicator e = "[DIR]")
  \/ (DirectoryEntry.isDirectory e = false
      /\ (Spec.valid_name (DirectoryEntry.name e) ->
          DirectoryEntry.name e <> ".mdx" -> DirectoryEntry.name e <> ".md" ->
          Shared.getTypeIndicator e = "[TXT]")
      /\ (DirectoryEntry.name e = ".mdx" \/ DirectoryEntry.name e = ".md" ->
          Shared.getTypeIndicator e = "[ ]")).
Proof.
  intros H Hin.
  destruct (ContentFacts.readDirectory_inv root matter Date_parse now
              contentPath entries e H Hin)
    as (items & item & Hdir & Hitem & [Hsub|Hfile]).
  - destruct Hsub as (sub & date & descr & _ & _ & _ & ->).
    left. split; reflexivity.
  - destruct Hfile as (raw & mt & date & _ & Hpost & _ & ->).
    right. cbn [DirectoryEntry.isDirectory DirectoryEntry.name].
    split; [reflexivity|]. split.
    + intros Hvalid Hmdx Hmd. unfold Spec.valid_name in Hvalid.
      unfold Shared.getTypeIndicator.
      cbn [DirectoryEntry.isDirectory DirectoryEntry.extension].
      destruct (SlugFacts.post_name_slug item Hpost) as [[_ E]|(_ & _ & E)];
        rewrite E in Hvalid |- *;
        rewrite PathFacts.list_ascii_of_string_append in Hvalid.
      * rewrite PathFacts.extname_mdx; [reflexivity| |].
        -- intros Hs. apply Hmdx. rewrite E, Hs. reflexivity.
        -- intros Hs. apply Hvalid, in_or_app. left. exact Hs.
      * rewrite PathFacts.extname_md; [reflexivity| |].
        -- intros Hs. apply Hmd. rewrite E, Hs. reflexivity.
        -- intros Hs. apply Hvalid, in_or_app. left. exact Hs.
    + intros [-> | ->]; reflexivity.
Qed.

End Facts.

(** The entry of [hello.mdx] in [sample_tree] leads to a post. *)
Lemma readDirectory_links_resolve_witness :
  exists target,
    DirectoryEntry.href hello_entry' = "/" +:+ join "/" target
    /\ if DirectoryEntry.isDirectory hello_entry'
       then isDirectory sample_tree target = Ok true
       else isPost sample_tree target = true.
Proof.
  apply (readDirectory_links_resolve
           sample_tree sample_matter sample_Date_parse sample_now []
           sample_listing hello_entry').
  - vm_compute. reflexivity.
  - right. left. reflexivity.
  - intros _. repeat split; try discriminate.
    vm_compute. intuition discriminate.
Defined.

(** The entry of [hello.mdx] and the post [hello]. *)
Lemma readDirectory_entry_readPost_witness :
  exists raw mtimeMs post,
    Fs.resolve sample_tree ([] ++ [DirectoryEntry.name hello_entry'])
    = Some (Fs.File raw mtimeMs)
    /\ readPost sample_tree sample_matter sample_Date_parse
                ([] ++ [replace_mdx_ext (DirectoryEntry.name hello_entry')])
       = Ok (Some post)
    /\ PostData.content post = GrayMatter.content (sample_matter raw)
    /\ PostData.description post = DirectoryEntry.description hello_entry'
    /\ DirectoryEntry.href hello_entry' = "/" +:+ PostData.slug post
    /\ PostData.date post
       = if GrayMatter.truthy_date
              (GrayMatter.date (GrayMatter.data (sample_matter raw)))
         then DirectoryEntry.date hello_entry'
         else "".
Proof.
  apply (readDirectory_entry_readPost
           sample_tree sample_matter sample_Date_parse sample_now []
           sample_listing hello_entry').
  - vm_compute. reflexivity.
  - right. left. reflexivity.
  - reflexivity.
  - repeat split; try discriminate.
    vm_compute. intuition discriminate.
  - left. reflexivity.
Defined.

(** The post [hello] of [sample_tree] is returned: its date is valid. *)
Lemma readPost_invalid_date_witness :
  GrayMatter.truthy_date
    (GrayMatter.date (GrayMatter.data (sample_matter "hello"))) = false
  \/ new_Date sample_Date_parse
              (GrayMatter.date (GrayMatter.data (sample_matter "hello")))
     <> None.
Proof.
  eapply (proj2 (readPost_invalid_date
                   sample_tree sample_matter sample_Date_parse
                   [] "hello" "hello"
                   (or_introl (ex_intro _ 1771804800000 eq_refl)))).
  vm_compute. reflexivity.
Defined.

(** The type column of the root of [sample_tree]. *)
Lemma readDirectory_type_indicator_witness :
  (DirectoryEntry.isDirectory hello_entry' = true
   /\ Shared.getTypeIndicator hello_entry' = "[DIR]")
  \/ (DirectoryEntry.isDirectory hello_entry' = false
      /\ (Spec.valid_name (DirectoryEntry.name hello_entry') ->
          DirectoryEntry.name hello_entry' <> ".mdx" ->
          DirectoryEntry.name hello_entry' <> ".md" ->
          Shared.getTypeIndicator hello_entry' = "[TXT]")
      /\ (DirectoryEntry.name hello_entry' = ".mdx"
          \/ DirectoryEntry.name hello_entry' = ".md" ->
          Shared.getTypeIndicator hello_entry' = "[ ]")).
Proof.
  apply (readDirectory_type_indicator
           sample_tree sample_matter sample_Date_parse sample_now []
           sample_listing hello_entry').
  - vm_compute. reflexivity.
  - right. left. reflexivity.
Defined.

End ContentMore.

(** ** Paths as strings: [split], [filter(Boolean)] and [join] *)

Module SplitFacts.
Import JsString JsStringMore.

Lemma split_piece (sep : ascii) (a b : string) :
  ~ In sep (list_ascii_of_string a) ->
  split sep (a +:+ String sep b) = a :: split sep b.
Proof.
  induction a as [|c a IH]; intros Hno.
  - cbn [String.append split]. rewrite Ascii.eqb_refl. reflexivity.
  - cbn [String.append split].
    destruct (Ascii.eqb_spec c sep) as [->|_].
    + exfalso. apply Hno. left. reflexivity.
    + rewrite IH; [reflexivity|].
      intros Hin. apply Hno. right. exact Hin.
Qed.

Lemma join_cons2 (sep x y : string) (rest : list string) :
  join sep (x :: y :: rest) = x +:+ sep +:+ join sep (y :: rest).
Proof. reflexivity. Qed.

(** Splitting a joined path, with its closing slash, gives the segments back
    and one empty piece after them. *)
Lemma split_join_slash (segs : list string) :
  Forall (fun seg => seg <> "" /\ Spec.valid_name seg) segs ->
  split "/" (join "/" segs +:+ "/") = segs ++ [""] \/ segs = [].
Proof.
  induction 1 as [|x rest [_ Hx] Hrest IH]; [right; reflexivity|].
  left. destruct rest as [|y rest].
  - cbn [join app]. change (x +:+ "/") with (x +:+ String "/" "").
    rewrite (split_piece "/" x "" Hx). reflexivity.
  - rewrite join_cons2, !JsNumberFacts.append_assoc.
    change ("/" +:+ (join "/" (y :: rest) +:+ "/"))
      with (String "/" (join "/" (y :: rest) +:+ "/")).
    rewrite (split_piece "/" x _ Hx).
    destruct IH as [->|E]; [reflexivity|discriminate].
Qed.

Lemma filter_Boolean_id (segs : list string) :
  Forall (fun seg => seg <> "" /\ Spec.valid_name seg) segs ->
  filter Boolean segs = segs.
Proof.
  induction 1 as [|x rest [Hx _] _ IH]; [reflexivity|].
  cbn [filter]. unfold Boolean at 1.
  destruct (String.eqb_spec x "") as [E|_]; [contradiction|].
  cbn [negb]. rewrite IH. reflexivity.
Qed.

(** The segments of the path of a listing: what
    [path.split("/").filter(Boolean)] finds in ["/" + segments.join("/") + "/"]. *)
Lemma segments_of_listing_path (segs : list string) :
  Forall (fun seg => seg <> "" /\ Spec.valid_name seg) segs ->
  filter Boolean (split "/" ("/" +:+ join "/" segs +:+ "/")) = segs.
Proof.
  intros Hvalid.
  change ("/" +:+ join "/" segs +:+ "/")
    with (String "/" (join "/" segs +:+ "/")).
  cbn [split]. rewrite Ascii.eqb_refl. cbn [filter].
  change (Boolean "") with false. cbv iota.
  destruct (split_join_slash segs Hvalid) as [->| ->].
  - rewrite filter_app, (filter_Boolean_id segs Hvalid). cbn [filter].
    change (Boolean "") with false. cbv iota. apply app_nil_r.
  - reflexivity.
Qed.

Lemma listing_path_not_root (segs : list string) :
  Forall (fun seg => seg <> "" /\ Spec.valid_name seg) segs ->
  segs <> [] ->
  String.eqb ("/" +:+ join "/" segs +:+ "/") "/" = false.
Proof.
  intros Hvalid Hne.
  destruct segs as [|x rest]; [congruence|].
  apply Forall_inv in Hvalid. destruct Hvalid as [Hx _].
  destruct x as [|c x]; [congruence|].
  destruct rest; reflexivity.
Qed.

Lemma listing_path_endsWith (segs : list string) :
  endsWith ("/" +:+ join "/" segs +:+ "/") "/" = true.
Proof.
  rewrite <- JsNumberFacts.append_assoc. apply PathFacts.endsWith_append.
Qed.

Lemma plain_path_segments (path : list string) :
  PlainPath.plain_path path ->
  Forall (fun seg => seg <> "" /\ Spec.valid_name seg) path.
Proof.
  apply Forall_impl. intros seg (Hne & _ & _ & Hvalid). split; assumption.
Qed.

Lemma nth_error_combine_seq {A : Type} (l : list A) :
  forall (start i : nat) (x : A),
    nth_error l i = Some x ->
    nth_error (combine (seq start (List.length l)) l) i = Some ((start + i)%nat, x).
Proof.
  induction l as [|a l IH]; intros start i x H.
  - destruct i; discriminate.
  - destruct i as [|i]; cbn [List.length seq combine nth_error] in *.
    + injection H as ->. rewrite Nat.add_0_r. reflexivity.
    + rewrite (IH (S start) i x H). f_equal. f_equal. lia.
Qed.

End SplitFacts.

(** ** The pages *)

Module PageFacts.
Import Content Page JsString.

Section Facts.
Variable root : Fs.node.
Variable matter : string -> GrayMatter.file.
Variable Date_parse : string -> JsDate.t.
Variable now : Z.

Lemma isDirectory_resolve (contentPath : list string) :
  isDirectory root contentPath
  = Ok (match Fs.resolve root contentPath with
        | Some (Fs.Dir _) => true
        | _ => false
        end).
Proof.
  unfold isDirectory, Fs.existsSync, Fs.statSync.
  destruct (Fs.resolve root contentPath) as [[raw mt|sub]|]; reflexivity.
Qed.

Lemma CatchAllPage_notFound (path : list string) :
  CatchAllPage root matter Date_parse now path = Ok notFound
  <-> isDirectory root path = Ok false /\ isPost root path = false.
Proof.
  unfold CatchAllPage. rewrite isDirectory_resolve.
  destruct (Fs.resolve root path) as [[raw mt|sub]|]; cbn [bind].
  2:{ split.
      - intros H.
        destruct (readDirectory root matter Date_parse now path);
          cbn [bind] in H; discriminate.
      - intros [H _]. discriminate. }
  all: destruct (isPost root path) eqn:Hp;
    [|split; [intros _; split; reflexivity|reflexivity]].
  all: split; [|intros [_ H]; discriminate].
  all: intros H;
    destruct (readPost root matter Date_parse path) as [[post|]|e] eqn:Hrp;
    cbn [bind] in H; try discriminate.
  all: apply ContentMore.readPost_None_iff in Hrp; congruence.
Qed.

(** A post that [readPost] returns is the post of a file. *)
Lemma readPost_Some_file (path : list string) (post : PostData.t) :
  path <> [] ->
  readPost root matter Date_parse path = Ok (Some post) ->
  exists dir base raw,
    path = dir ++ [base] /\ Spec.post_file_at root dir base raw.
Proof.
  intros Hne H.
  destruct (exists_last Hne) as (dir & base & ->).
  exists dir, base.
  unfold readPost in H. cbv zeta in H. rewrite !FsFacts.add_suffix_snoc in H.
  unfold Fs.existsSync, Fs.readFileSync, Spec.post_file_at in *.
  destruct (Fs.resolve root (dir ++ [base +:+ ".mdx"])) as [[raw mt|sub]|]
    eqn:Emdx; cbv iota in H; rewrite ?Emdx in H.
  - exists raw. split; [reflexivity|]. left. exists mt. reflexivity.
  - cbn [bind] in H. discriminate.
  - destruct (Fs.resolve root (dir ++ [base +:+ ".md"])) as [[raw mt|sub]|]
      eqn:Emd; cbv iota in H; rewrite ?Emd in H.
    + exists raw. split; [reflexivity|]. right.
      split; [reflexivity|]. exists mt. reflexivity.
    + cbn [bind] in H. discriminate.
    + discriminate.
Qed.

Lemma generateStaticParams_enumerate (fuel : nat)
      (items : list (string * Fs.node)) :
  root = Fs.Dir items ->
  Fs.wf root ->
  (Fs.height root <= fuel)%nat ->
  generateStaticParams root fuel = Ok (Spec.enumerate root []).
Proof.
  intros -> Hwf Hh. unfold generateStaticParams, getAllPaths.
  rewrite (ContentFacts.walk_Dir (Fs.Dir items) fuel [] [] [] items
             eq_refl Hwf Hh).
  cbn [bind app]. rewrite map_id. reflexivity.
Qed.

Lemma route_served (path : list string) :
  Spec.is_route root path ->
  isDirectory root path = Ok true \/ isPost root path = true.
Proof.
  intros [[_ (sub & Hres)]|(dir & item & raw & mt & -> & Hres & Hpost)].
  - left. rewrite isDirectory_resolve, Hres. reflexivity.
  - right. unfold isPost, Fs.existsSync. rewrite !FsFacts.add_suffix_snoc.
    destruct (SlugFacts.post_name_slug item Hpost) as [[_ E]|(_ & _ & E)];
      rewrite <- E, Hres.
    + reflexivity.
    + apply orb_true_r.
Qed.

(** X13.  [CatchAllPage] ends in [notFound()] exactly when its path is
    neither a directory nor a post: the [notFound()] after [readPost] is
    never reached. *)
Theorem CatchAllPage_notFound_iff (path : list string) :
  CatchAllPage root matter Date_parse now path = Ok notFound
  <-> isDirectory root path = Ok false /\ isPost root path = false.
Proof. apply CatchAllPage_notFound. Qed.

(** X14.  Every path of plain segments that [generateStaticParams]
    returns has a page: it is the path of a directory or of a post, and
    [CatchAllPage] does not end in [notFound()] on it. *)
Theorem generateStaticParams_served (fuel : nat)
        (params : list (list string)) (path : list string) :
  Fs.wf root ->
  (exists items, root = Fs.Dir items) ->
  (Fs.height root <= fuel)%nat ->
  generateStaticParams root fuel = Ok params ->
  In path params ->
  PlainPath.plain_path path ->
  (isDirectory root path = Ok true \/ isPost root path = true)
  /\ CatchAllPage root matter Date_parse now path <> Ok notFound.
Proof.
  intros Hwf (items & Hroot) Hh Hparams Hin _.
  rewrite (generateStaticParams_enumerate fuel items Hroot Hwf Hh) in Hparams.
  injection Hparams as <-.
  destruct (ContentFacts.enumerate_sound root [] path Hwf Hin)
    as (q & -> & Hq).
  cbn [app]. pose proof (route_served q Hq) as Hserved.
  split; [exact Hserved|].
  intros Hnf. apply CatchAllPage_notFound in Hnf. destruct Hnf as [Hd Hp].
  destruct Hserved as [H|H]; congruence.
Qed.

(** X15.  Every page that [CatchAllPage] renders is one of the static
    parameters: if [CatchAllPage] returns a listing or a post for a
    non-empty path of plain segments, [generateStaticParams] has that
    path. *)
Theorem CatchAllPage_is_static (fuel : nat) (params : list (list string))
        (path : list string) (pg : page) :
  Fs.wf root ->
  (exists items, root = Fs.Dir items) ->
  (Fs.height root <= fuel)%nat ->
  generateStaticParams root fuel = Ok params ->
  path <> [] ->
  PlainPath.plain_path path ->
  CatchAllPage root matter Date_parse now path = Ok pg ->
  pg <> notFound ->
  In path params.
Proof.
  intros Hwf (items & Hroot) Hh Hparams Hne _ Hpage Hnf.
  rewrite (generateStaticParams_enumerate fuel items Hroot Hwf Hh) in Hparams.
  injection Hparams as <-.
  apply (ContentFacts.enumerate_complete root [] path).
  unfold CatchAllPage in Hpage. rewrite isDirectory_resolve in Hpage.
  destruct (Fs.resolve root path) as [[raw mt|sub]|] eqn:Hres;
    cbn [bind] in Hpage.
  2:{ left. split; [exact Hne|]. exists sub. exact Hres. }
  all: destruct (isPost root path); cbv iota in Hpage;
    [|injection Hpage as <-; contradiction].
  all: destruct (readPost root matter Date_parse path) as [[post|]|e] eqn:Hrp;
    cbn [bind] in Hpage; try discriminate;
    [|injection Hpage as <-; contradiction].
  all: destruct (readPost_Some_file path post Hne Hrp)
    as (dir & base & raw' & -> & Hat).
  all: right; destruct Hat as [(mt' & Hf)|(_ & mt' & Hf)].
  all: first
    [ exists dir, (base +:+ ".mdx"), raw', mt';
      rewrite SlugFacts.replace_mdx_ext_mdx;
      split; [reflexivity|]; split; [exact Hf|];
      unfold is_post_name; rewrite PathFacts.endsWith_append; reflexivity
    | exists dir, (base +:+ ".md"), raw', mt';
      rewrite SlugFacts.replace_mdx_ext_md;
      split; [reflexivity|]; split; [exact Hf|];
      unfold is_post_name; rewrite (PathFacts.endsWith_append base ".md");
      apply orb_true_r ].
Qed.

(** X16.  The link to the parent directory.  On the page of a path of
    plain segments, the link "Parent Directory"
    names the path without its last segment, on a listing (where the
    component computes it from the path string) as on a post (where the
    page passes it). *)
Theorem CatchAllPage_parent_link (path : list string) (pg : page) :
  PlainPath.plain_path path ->
  path <> [] ->
  CatchAllPage root matter Date_parse now path = Ok pg ->
  match pg with
  | DirectoryListingPage listingPath _ =>
      DirectoryListingControls.parentHref listingPath
      = Some ("/" +:+ join "/" (removelast path))
  | PostViewPage _ parentPath =>
      parentPath = "/" +:+ join "/" (removelast path)
  | notFound => True
  end.
Proof.
  intros Hplain Hne Hpage.
  pose proof (SplitFacts.plain_path_segments path Hplain) as Hvalid.
  unfold CatchAllPage in Hpage.
  destruct (isDirectory root path) as [[|]|e]; cbn [bind] in Hpage;
    [| |discriminate].
  - destruct (readDirectory root matter Date_parse now path) as [entries|e];
      cbn [bind] in Hpage; [|discriminate].
    injection Hpage as <-.
    change (DirectoryListingControls.parentHref
              ("/" +:+ join "/" path +:+ "/")
            = Some ("/" +:+ join "/" (removelast path))).
    unfold DirectoryListingControls.parentHref.
    rewrite (SplitFacts.listing_path_not_root path Hvalid Hne).
    rewrite (SplitFacts.segments_of_listing_path path Hvalid).
    reflexivity.
  - destruct (isPost root path); [|injection Hpage as <-; exact I].
    destruct (readPost root matter Date_parse path) as [[post|]|e];
      cbn [bind] in Hpage; [| |discriminate].
    + injection Hpage as <-.
      destruct (removelast path); reflexivity.
    + injection Hpage as <-. exact I.
Qed.

(** X17.  The breadcrumb of a listing.  On the listing page of a path of
    plain segments, the breadcrumb has one link
    for each segment of the path; the link of a segment shows the segment,
    leads to the path up to and including it, which is a directory, and is
    followed by a slash. *)
Theorem CatchAllPage_breadcrumb (path : list string) (listingPath : string)
        (entries : list DirectoryEntry.t) :
  PlainPath.plain_path path ->
  CatchAllPage root matter Date_parse now path
  = Ok (DirectoryListingPage listingPath entries) ->
  List.length (Breadcrumb.Breadcrumb listingPath) = List.length path
  /\ forall (i : nat) (segment : string),
      nth_error path i = Some segment ->
      nth_error (Breadcrumb.Breadcrumb listingPath) i
      = Some (Breadcrumb.mkCrumb
                segment ("/" +:+ join "/" (firstn (S i) path)) "/")
      /\ isDirectory root (firstn (S i) path) = Ok true.
Proof.
  intros Hplain Hpage.
  pose proof (SplitFacts.plain_path_segments path Hplain) as Hvalid.
  unfold CatchAllPage in Hpage. rewrite isDirectory_resolve in Hpage.
  destruct (Fs.resolve root path) as [[raw mt|sub]|] eqn:Hres;
    cbn [bind] in Hpage.
  2:{ destruct (readDirectory root matter Date_parse now path) as [es|e];
        cbn [bind] in Hpage; [|discriminate].
      injection Hpage as <- <-.
      pose proof (SplitFacts.segments_of_listing_path path Hvalid) as Hseg.
      pose proof (SplitFacts.listing_path_endsWith path) as Hends.
      change ("/" +:+ join "/" path +:+ "/")
        with (String "/" (join "/" path +:+ "/")) in Hseg, Hends.
      unfold Breadcrumb.Breadcrumb. cbv zeta.
      rewrite Hseg, Hends.
      split.
      - rewrite length_map, length_combine, length_seq. apply Nat.min_id.
      - intros i segment Hi. split.
        + rewrite nth_error_map.
          rewrite (SplitFacts.nth_error_combine_seq path 0 i segment Hi).
          cbn [option_map Nat.add]. rewrite andb_false_r.
          rewrite Nat.add_1_r. reflexivity.
        + rewrite isDirectory_resolve.
          rewrite <- (firstn_skipn (S i) path) in Hres.
          rewrite FsFacts.resolve_app in Hres.
          destruct (Fs.resolve root (firstn (S i) path)) as [[raw mt|sub']|];
            [|reflexivity|discriminate].
          destruct (skipn (S i) path); discriminate. }
  all: destruct (isPost root path); [|discriminate].
  all: destruct (readPost root matter Date_parse path) as [[post|]|e];
    cbn [bind] in Hpage; discriminate.
Qed.

End Facts.

(** [archives] is a static parameter of [sample_tree] and has a page. *)
Lemma generateStaticParams_served_witness :
  (isDirectory sample_tree ["archives"] = Ok true
   \/ isPost sample_tree ["archives"] = true)
  /\ CatchAllPage sample_tree sample_matter sample_Date_parse sample_now
                  ["archives"] <> Ok notFound.
Proof.
  apply (generateStaticParams_served
           sample_tree sample_matter sample_Date_parse sample_now 3
           (Spec.enumerate sample_tree []) ["archives"]).
  - vm_compute. repeat constructor; simpl; intuition discriminate.
  - eexists. reflexivity.
  - vm_compute. lia.
  - vm_compute. reflexivity.
  - vm_compute. left. reflexivity.
  - repeat constructor; try discriminate.
    vm_compute. intuition discriminate.
Defined.

(** The page of the post [hello] of [sample_tree] is a static parameter. *)
Lemma CatchAllPage_is_static_witness :
  In ["hello"] (Spec.enumerate sample_tree []).
Proof.
  eapply (CatchAllPage_is_static
            sample_tree sample_matter sample_Date_parse sample_now 3 _
            ["hello"]).
  - vm_compute. repeat constructor; simpl; intuition discriminate.
  - eexists. reflexivity.
  - vm_compute. lia.
  - vm_compute. reflexivity.
  - discriminate.
  - repeat constructor; try discriminate.
    vm_compute. intuition discriminate.
  - vm_compute. reflexivity.
  - discriminate.
Defined.

(** The parent of the listing of [archives] is the root. *)
Lemma CatchAllPage_parent_link_witness :
  exists pg,
    CatchAllPage sample_tree sample_matter sample_Date_parse sample_now
                 ["archives"] = Ok pg
    /\ match pg with
       | DirectoryListingPage listingPath _ =>
           DirectoryListingControls.parentHref listingPath
           = Some ("/" +:+ join "/" (removelast ["archives"]))
       | PostViewPage _ parentPath =>
           parentPath = "/" +:+ join "/" (removelast ["archives"])
       | notFound => True
       end.
Proof.
  eexists. split; [vm_compute; reflexivity|].
  apply (CatchAllPage_parent_link
           sample_tree sample_matter sample_Date_parse sample_now
           ["archives"]).
  - repeat constructor; try discriminate.
    vm_compute. intuition discriminate.
  - discriminate.
  - vm_compute. reflexivity.
Defined.

(** The breadcrumb of the listing of [archives]. *)
Lemma CatchAllPage_breadcrumb_witness :
  exists listingPath entries,
    CatchAllPage sample_tree sample_matter sample_Date_parse sample_now
                 ["archives"]
    = Ok (DirectoryListingPage listingPath entries)
    /\ List.length (Breadcrumb.Breadcrumb listingPath)
       = List.length ["archives"]
    /\ forall (i : nat) (segment : string),
        nth_error ["archives"] i = Some segment ->
        nth_error (Breadcrumb.Breadcrumb listingPath) i
        = Some (Breadcrumb.mkCrumb
                  segment ("/" +:+ join "/" (firstn (S i) ["archives"])) "/")
        /\ isDirectory sample_tree (firstn (S i) ["archives"]) = Ok true.
Proof.
  eexists. eexists. split; [vm_compute; reflexivity|].
  eapply (CatchAllPage_breadcrumb
            sample_tree sample_matter sample_Date_parse sample_now
            ["archives"]).
  - repeat constructor; try discriminate.
    vm_compute. intuition discriminate.
  - vm_compute. reflexivity.
Defined.

End PageFacts.

(** ** The paths of [getAllPaths], once more *)

Module RoutesMore.
Import Content.

Lemma resolve_prefix_Dir (root : Fs.node) (pre rest : list string)
      (n : Fs.node) :
  rest <> [] ->
  Fs.resolve root (pre ++ rest) = Some n ->
  exists sub, Fs.resolve root pre = Some (Fs.Dir sub).
Proof.
  intros Hrest H. rewrite FsFacts.resolve_app in H.
  destruct (Fs.resolve root pre) as [[raw mt|sub]|].
  - destruct rest; [congruence|discriminate].
  - exists sub. reflexivity.
  - discriminate.
Qed.

(** X18.  The paths of [getAllPaths] are closed under going up: no path is
    empty (the root has its own page), and every non-empty proper prefix
    of a returned path is a returned path too, and is a directory. *)
Theorem getAllPaths_prefix_closed (root : Fs.node) (fuel : nat)
        (paths : list (list string)) (path : list string) :
  Fs.wf root ->
  (exists items, root = Fs.Dir items) ->
  (Fs.height root <= fuel)%nat ->
  getAllPaths root fuel = Ok paths ->
  In path paths ->
  path <> []
  /\ forall pre rest,
      path = pre ++ rest -> pre <> [] -> rest <> [] ->
      In pre paths /\ isDirectory root pre = Ok true.
Proof.
  intros Hwf (items & ->) Hh Hpaths Hin.
  unfold getAllPaths in Hpaths.
  rewrite (ContentFacts.walk_Dir (Fs.Dir items) fuel [] [] [] items
             eq_refl Hwf Hh) in Hpaths.
  change ([] ++ Spec.enumerate (Fs.Dir items) [])
    with (Spec.enumerate (Fs.Dir items) []) in Hpaths.
  injection Hpaths as <-.
  destruct (ContentFacts.enumerate_sound _ [] path Hwf Hin) as (q & -> & Hq).
  change ([] ++ q) with q in *. split.
  - destruct Hq as [[Hne _]|(dir & item & raw & mt & -> & _)].
    + exact Hne.
    + destruct dir; discriminate.
  - intros pre rest -> Hpre Hrest.
    assert (exists sub, Fs.resolve (Fs.Dir items) pre = Some (Fs.Dir sub))
      as (sub & Hsub).
    { destruct Hq as [[_ (sub & Hres)]|(dir & item & raw & mt & E & Hres & _)].
      - apply (resolve_prefix_Dir _ pre rest _ Hrest Hres).
      - destruct (exists_last Hrest) as (rest' & x & ->).
        rewrite app_assoc in E. apply app_inj_tail in E.
        destruct E as [<- _]. rewrite <- app_assoc in Hres.
        apply (resolve_prefix_Dir _ pre (rest' ++ [item]) (Fs.File raw mt));
          [|exact Hres].
        destruct rest'; discriminate. }
    split.
    + exact (ContentFacts.enumerate_complete
               (Fs.Dir items) [] pre
               (or_introl (conj Hpre (ex_intro _ sub Hsub)))).
    + rewrite PageFacts.isDirectory_resolve, Hsub. reflexivity.
Qed.

(** The post [archives/old-post] of [sample_tree] and its directory. *)
Lemma getAllPaths_prefix_closed_witness :
  ["archives"; "old-post"] <> []
  /\ forall pre rest,
      ["archives"; "old-post"] = pre ++ rest -> pre <> [] -> rest <> [] ->
      In pre (Spec.enumerate sample_tree [])
      /\ isDirectory sample_tree pre = Ok true.
Proof.
  apply (getAllPaths_prefix_closed sample_tree 3).
  - vm_compute. repeat constructor; simpl; intuition discriminate.
  - eexists. reflexivity.
  - vm_compute. lia.
  - vm_compute. reflexivity.
  - vm_compute. right. right. left. reflexivity.
Defined.

End RoutesMore.

(** ** Following the links of a page *)

Module NavigationFacts.
Import Content Page JsString.

Section Facts.
Variable root : Fs.node.
Variable matter : string -> GrayMatter.file.
Variable Date_parse : string -> JsDate.t.
Variable now : Z.

(** The entries of a listing page are those of a directory. *)
Lemma listing_page_entries (listingPath : string)
      (entries : list DirectoryEntry.t) :
  Home root matter Date_parse now
  = Ok (DirectoryListingPage listingPath entries)
  \/ (exists path,
         CatchAllPage root matter Date_parse now path
         = Ok (DirectoryListingPage listingPath entries)) ->
  exists contentPath,
    readDirectory root matter Date_parse now contentPath = Ok entries.
Proof.
  intros [H|(path & H)].
  - exists []. unfold Home in H.
    destruct (readDirectory root matter Date_parse now []) as [es|e];
      cbn [bind] in H; [|discriminate].
    injection H as _ ->. reflexivity.
  - exists path. unfold CatchAllPage in H.
    destruct (isDirectory root path) as [[|]|e]; cbn [bind] in H;
      [| |discriminate].
    + destruct (readDirectory root matter Date_parse now path) as [es|e];
        cbn [bind] in H; [|discriminate].
      injection H as _ ->. reflexivity.
    + destruct (isPost root path); [|discriminate].
      destruct (readPost root matter Date_parse path) as [[post|]|e];
        cbn [bind] in H; discriminate.
Qed.

(** X20.  No link of a listing is dead.  On the home page and on the
    listing page of any path, the [href] of every entry (of a post: with a
    plain name for slug) is the path of a page: [CatchAllPage] does not end
    in [notFound()] on it. *)
Theorem listing_links_served (listingPath : string)
        (entries : list DirectoryEntry.t) (e : DirectoryEntry.t) :
  Home root matter Date_parse now
  = Ok (DirectoryListingPage listingPath entries)
  \/ (exists path,
         CatchAllPage root matter Date_parse now path
         = Ok (DirectoryListingPage listingPath entries)) ->
  In e entries ->
  (DirectoryEntry.isDirectory e = false ->
   PlainPath.plain_name (replace_mdx_ext (DirectoryEntry.name e))) ->
  exists target,
    DirectoryEntry.href e = "/" +:+ join "/" target
    /\ CatchAllPage root matter Date_parse now target <> Ok notFound.
Proof.
  intros Hpage Hin _.
  destruct (listing_page_entries listingPath entries Hpage)
    as (contentPath & Hread).
  destruct (ContentMore.readDirectory_href_target
              root matter Date_parse now contentPath entries e Hread Hin)
    as (target & Hhref & Htarget).
  exists target. split; [exact Hhref|].
  intros Hnf. apply PageFacts.CatchAllPage_notFound in Hnf.
  destruct Hnf as [Hd Hp].
  destruct (DirectoryEntry.isDirectory e); congruence.
Qed.

(** X21.  The way up is never dead.  If [CatchAllPage] renders a page for
    a non-empty path of plain segments, the path without its last segment
    (to which the link "Parent Directory" leads) is a directory. *)
Theorem CatchAllPage_parent_served (path : list string) (pg : page) :
  path <> [] ->
  PlainPath.plain_path path ->
  CatchAllPage root matter Date_parse now path = Ok pg ->
  pg <> notFound ->
  isDirectory root (removelast path) = Ok true.
Proof.
  intros Hne _ Hpage Hnf.
  assert (exists sub, Fs.resolve root (removelast path) = Some (Fs.Dir sub))
    as (sub & Hsub).
  { unfold CatchAllPage in Hpage.
    rewrite PageFacts.isDirectory_resolve in Hpage.
    destruct (Fs.resolve root path) as [[raw mt|sub]|] eqn:Hres;
      cbn [bind] in Hpage.
    2:{ destruct (exists_last Hne) as (dir & x & ->).
        rewrite removelast_last.
        apply (RoutesMore.resolve_prefix_Dir root dir [x] (Fs.Dir sub));
          [discriminate|exact Hres]. }
    all: destruct (isPost root path); cbv iota in Hpage;
      [|injection Hpage as <-; contradiction].
    all: destruct (readPost root matter Date_parse path) as [[post|]|e]
      eqn:Hrp; cbn [bind] in Hpage; try discriminate;
      [|injection Hpage as <-; contradiction].
    all: destruct (PageFacts.readPost_Some_file
                     root matter Date_parse path post Hne Hrp)
      as (dir & base & raw' & -> & Hat).
    all: rewrite removelast_last.
    all: destruct Hat as [(mt' & Hf)|(_ & mt' & Hf)].
    all: first
      [ apply (RoutesMore.resolve_prefix_Dir
                 root dir [base +:+ ".mdx"] (Fs.File raw' mt'));
        [discriminate|exact Hf]
      | apply (RoutesMore.resolve_prefix_Dir
                 root dir [base +:+ ".md"] (Fs.File raw' mt'));
        [discriminate|exact Hf] ]. }
  rewrite PageFacts.isDirectory_resolve, Hsub. reflexivity.
Qed.

End Facts.

(** The link to [hello] on the home page of [sample_tree]. *)
Lemma listing_links_served_witness :
  exists target,
    DirectoryEntry.href hello_entry' = "/" +:+ join "/" target
    /\ CatchAllPage sample_tree sample_matter sample_Date_parse sample_now
                    target <> Ok notFound.
Proof.
  eapply (listing_links_served
            sample_tree sample_matter sample_Date_parse sample_now
            _ _ hello_entry').
  - left. vm_compute. reflexivity.
  - right. left. reflexivity.
  - intros _. repeat split; try discriminate.
    vm_compute. intuition discriminate.
Defined.

(** The post [archives/old-post] of [sample_tree] and its directory. *)
Lemma CatchAllPage_parent_served_witness :
  isDirectory sample_tree (removelast ["archives"; "old-post"]) = Ok true.
Proof.
  eapply (CatchAllPage_parent_served
            sample_tree sample_matter sample_Date_parse sample_now
            ["archives"; "old-post"]).
  - discriminate.
  - repeat constructor; try discriminate;
      vm_compute; intuition discriminate.
  - vm_compute. reflexivity.
  - discriminate.
Defined.

End NavigationFacts.

(** ** The two variants of the listing component *)

Module VariantFacts.

Lemma sort_ext {A : Type} (c1 c2 : A -> A -> Z) :
  (forall a b, c1 a b = c2 a b) ->
  forall l, JsArray.sort c1 l = JsArray.sort c2 l.
Proof.
  intros Hext. induction l as [|x l IH]; [reflexivity|].
  cbn [JsArray.sort]. rewrite IH.
  generalize (JsArray.sort c2 l) as t.
  induction t as [|y t IHt]; [reflexivity|].
  cbn [JsArray.insert]. rewrite Hext, IHt. reflexivity.
Qed.

(** X19.  The variant of the component without a size column orders a
    listing exactly as the first variant does, on each column they share
    and in both orders. *)
Theorem mobile_sorted_agrees (localeCompare : string -> string -> Z)
        (sortOrder : DirectoryListing.SortOrder)
        (entries : list DirectoryEntry.t) :
  DirectoryListingMobile.sorted localeCompare DirectoryListingMobile.name_col
                                sortOrder entries
  = DirectoryListing.sorted localeCompare DirectoryListing.name_col
                            sortOrder entries
  /\ DirectoryListingMobile.sorted localeCompare DirectoryListingMobile.date_col
                                   sortOrder entries
     = DirectoryListing.sorted localeCompare DirectoryListing.date_col
                               sortOrder entries
  /\ DirectoryListingMobile.sorted localeCompare
                                   DirectoryListingMobile.description_col
                                   sortOrder entries
     = DirectoryListing.sorted localeCompare DirectoryListing.description_col
                               sortOrder entries.
Proof.
  repeat split; apply sort_ext; intros a b; reflexivity.
Qed.

End VariantFacts.
